(** * Change detection and notification fan-out: a shallow embedding

    The development follows the three Go services of the platform:

    - [crawler]: the priority table, the two periodic selections and the
      transactional reconciliation [saveProduct];
    - [analyzer]: the in-memory price alerts and [processProductUpdate];
    - [notification]: the per-user channels and the consume handler.

    Prices are IEEE binary64 numbers ([float]), Go's [int] is a 64-bit
    two's-complement integer carried by [Z], Go's [uint] identifiers are [N],
    and [time.Time] is a count of nanoseconds in [Z]. *)

From Stdlib Require Import PrimFloat ZArith NArith Lia.
From stdpp Require Import gmap strings list pretty sorting.

Local Open Scope string_scope.
Local Open Scope list_scope.
Local Open Scope Z_scope.

(** ** Machine integers and time *)

Definition int_wrap (z : Z) : Z := (z + 2 ^ 63) mod 2 ^ 64 - 2 ^ 63.

Definition maxDuration : Z := 2 ^ 63 - 1.
Definition minDuration : Z := - 2 ^ 63.

(** [time.Duration] constants, in nanoseconds. *)
Definition Second : Z := 1000000000.
Definition Hour : Z := 3600 * Second.

(** [t.Sub(u)]: the difference saturates at the ends of [int64]. *)
Definition time_Sub (t u : Z) : Z :=
  if maxDuration <? t - u then maxDuration
  else if t - u <? minDuration then minDuration
  else t - u.

(** [time.Since(t)] at the clock reading [now]. *)
Definition time_Since (now t : Z) : Z := time_Sub now t.

(** ** Errors and outcomes

    [Errorf msg cause] is [fmt.Errorf("msg: %w", cause)]. *)

Inductive error :=
| ErrRecordNotFound
| ErrStatement
| ErrDuplicateKey
| ErrUnmarshal
| ErrWriteMessages
| Errorf (msg : string) (cause : error).

(** The client errors of the HTTP handlers ([echo.NewHTTPError]). *)
Inductive HTTPError :=
| StatusBadRequest (msg : string)
| StatusNotFound (msg : string)
| StatusInternalServerError (msg : string).

(** A Go call either returns or panics. *)
Inductive outcome (A : Type) :=
| Done (a : A)
| Panic.
Arguments Done {A} a.
Arguments Panic {A}.

(** ** Data model (internal/common/models/product.go)

    Only the columns read or written by the embedded code are kept. *)

Module Variant.
Record t := mk
  { ID : N; ProductID : N; ExternalID : string;
    Price : float; OriginalPrice : float; StockCount : Z }.
Definition with_ids (id pid : N) (v : t) : t :=
  mk id pid (ExternalID v) (Price v) (OriginalPrice v) (StockCount v).
End Variant.

Module Product.
Record t := mk
  { ID : N; CreatedAt : Z; ExternalID : string; Name : string; URL : string;
    IsActive : bool; Variants : list Variant.t }.
Definition with_ID (id : N) (p : t) : t :=
  mk id (CreatedAt p) (ExternalID p) (Name p) (URL p) (IsActive p) (Variants p).
Definition with_CreatedAt (c : Z) (p : t) : t :=
  mk (ID p) c (ExternalID p) (Name p) (URL p) (IsActive p) (Variants p).
Definition with_Variants (vs : list Variant.t) (p : t) : t :=
  mk (ID p) (CreatedAt p) (ExternalID p) (Name p) (URL p) (IsActive p) vs.
End Product.

Module PriceHistory.
Record t := mk
  { ProductID : N; VariantID : N;
    PreviousPrice : float; NewPrice : float; ChangePercent : float }.
End PriceHistory.

Module StockHistory.
Record t := mk
  { ProductID : N; VariantID : N;
    PreviousStock : Z; NewStock : Z; ChangeQuantity : Z }.
End StockHistory.

Module Notification.
Record t := mk
  { UserID : N; ProductID : N; Message : string; IsRead : bool;
    DeliveredAt : Z }.
End Notification.

Module UserFavorite.
Record t := mk { UserID : N; ProductID : N }.
End UserFavorite.

(** ** The relational store (internal/common/db)

    Tables are lists of rows in creation order.  A connection carries the
    committed tables, the working copy of the open transaction when there is
    one, and a script of injected statement failures: every statement takes
    the head of the script, [true] meaning that this statement fails. *)

Module db.

Record Tables := mkTables
  { products : list Product.t;
    variants : list Variant.t;
    price_histories : list PriceHistory.t;
    stock_histories : list StockHistory.t;
    notifications : list Notification.t;
    user_favorites : list UserFavorite.t;
    users : list N;
    clock : Z }.

Definition with_products ps (d : Tables) : Tables :=
  mkTables ps (variants d) (price_histories d) (stock_histories d)
           (notifications d) (user_favorites d) (users d) (clock d).
Definition with_variants vs (d : Tables) : Tables :=
  mkTables (products d) vs (price_histories d) (stock_histories d)
           (notifications d) (user_favorites d) (users d) (clock d).
Definition with_price_histories hs (d : Tables) : Tables :=
  mkTables (products d) (variants d) hs (stock_histories d)
           (notifications d) (user_favorites d) (users d) (clock d).
Definition with_stock_histories hs (d : Tables) : Tables :=
  mkTables (products d) (variants d) (price_histories d) hs
           (notifications d) (user_favorites d) (users d) (clock d).
Definition with_notifications ns (d : Tables) : Tables :=
  mkTables (products d) (variants d) (price_histories d) (stock_histories d)
           ns (user_favorites d) (users d) (clock d).

Inductive TxState := NoTx | TxOpen (work : Tables) | TxRolledBack | TxCommitted | TxAborted.

Record Conn := mkConn
  { committed : Tables; tx : TxState; faults : list bool }.

(** What a reader outside the transaction observes. *)
Definition observable (c : Conn) : Tables := committed c.

Definition connect (d : Tables) (script : list bool) : Conn := mkConn d NoTx script.

(** The state-and-error monad of statements. *)
Definition M (A : Type) : Type := Conn -> (error + A) * Conn.

Definition ret {A} (a : A) : M A := fun c => (inr a, c).
Definition bind {A B} (m : M A) (k : A -> M B) : M B :=
  fun c => match m c with
           | (inl e, c') => (inl e, c')
           | (inr a, c') => k a c'
           end.

(** The tables a statement works on: the transaction's copy when one is
    open, the committed tables otherwise (autocommit). *)
Definition current (c : Conn) : Tables :=
  match tx c with TxOpen w => w | _ => committed c end.

Definition put (d : Tables) (c : Conn) : Conn :=
  match tx c with
  | TxOpen _ => mkConn (committed c) (TxOpen d) (faults c)
  | st => mkConn d st (faults c)
  end.

Definition draw (c : Conn) : bool * Conn :=
  match faults c with
  | [] => (false, c)
  | b :: rest => (b, mkConn (committed c) (tx c) rest)
  end.

(** One statement: fails when the script says so, otherwise runs [f] on the
    current tables; a failed statement leaves the tables as they were. *)
Definition statement {A} (f : Tables -> error + (A * Tables)) : M A :=
  fun c =>
    let '(failed, c1) := draw c in
    if failed then (inl ErrStatement, c1)
    else match f (current c1) with
         | inl e => (inl e, c1)
         | inr (a, d) => (inr a, put d c1)
         end.

(** [db.Begin()] *)
Definition Begin : M unit :=
  fun c =>
    let '(failed, c1) := draw c in
    if failed then (inl ErrStatement, c1)
    else (inr tt, mkConn (committed c1) (TxOpen (committed c1)) (faults c1)).

(** [tx.Rollback()] *)
Definition Rollback (c : Conn) : Conn :=
  match tx c with
  | TxOpen _ => mkConn (committed c) TxRolledBack (faults c)
  | _ => c
  end.

(** [tx.Commit()]: a failed commit discards the transaction. *)
Definition Commit : M unit :=
  fun c =>
    let '(failed, c1) := draw c in
    match tx c1 with
    | TxOpen w =>
        if failed then (inl ErrStatement, mkConn (committed c1) TxAborted (faults c1))
        else (inr tt, mkConn w TxCommitted (faults c1))
    | _ => (inl ErrStatement, c1)
    end.

(** ** Queries and writes used by the services *)

Definition fresh_id (ids : list N) : N := N.succ (foldr N.max 0%N ids).

(** [Where("external_id = ?", e).First(&product)] *)
Definition First_product_by_external_id (e : string) : M Product.t :=
  statement (fun d =>
    match List.find (fun p => String.eqb (Product.ExternalID p) e) (products d) with
    | Some p => inr (p, d)
    | None => inl ErrRecordNotFound
    end).

(** [First(&product, id)] *)
Definition First_product_by_id (id : N) : M Product.t :=
  statement (fun d =>
    match List.find (fun p => N.eqb (Product.ID p) id) (products d) with
    | Some p => inr (p, d)
    | None => inl ErrRecordNotFound
    end).

(** [First(&variant, id)] *)
Definition First_variant_by_id (id : N) : M Variant.t :=
  statement (fun d =>
    match List.find (fun v => N.eqb (Variant.ID v) id) (variants d) with
    | Some v => inr (v, d)
    | None => inl ErrRecordNotFound
    end).

(** [Where("product_id = ?", pid).Find(&variants)] *)
Definition Find_variants_by_product_id (pid : N) : M (list Variant.t) :=
  statement (fun d =>
    inr (List.filter (fun v => N.eqb (Variant.ProductID v) pid) (variants d), d)).

(** [Where("product_id = ?", pid).Order("created_at DESC").Limit(n).Find(&histories)]:
    rows are kept in creation order, so the newest come last in the table. *)
Definition Find_recent_price_histories (pid : N) (n : nat) : M (list PriceHistory.t) :=
  statement (fun d =>
    inr (take n (rev (List.filter (fun h => N.eqb (PriceHistory.ProductID h) pid)
                                  (price_histories d))), d)).

(** [Preload("Product").Find(&userFavorites)]: a favorite whose product row
    is missing carries the zero [Product]. *)
Definition Find_user_favorites_with_product : M (list (UserFavorite.t * Product.t)) :=
  statement (fun d =>
    inr ((fun f =>
            (f, match List.find (fun p => N.eqb (Product.ID p) (UserFavorite.ProductID f))
                                (products d) with
                | Some p => p
                | None => Product.mk 0 0 "" "" "" false []
                end)) <$> user_favorites d, d)).

(** [First(&user, id)] *)
Definition First_user_by_id (id : N) : M N :=
  statement (fun d =>
    match List.find (N.eqb id) (users d) with
    | Some u => inr (u, d)
    | None => inl ErrRecordNotFound
    end).

(** [Where("user_id = ? AND product_id = ?", u, p).First(&favorite)] *)
Definition First_user_favorite (u p : N) : M UserFavorite.t :=
  statement (fun d =>
    match List.find (fun f => N.eqb (UserFavorite.UserID f) u
                              && N.eqb (UserFavorite.ProductID f) p) (user_favorites d) with
    | Some f => inr (f, d)
    | None => inl ErrRecordNotFound
    end).

(** [Create(&favorite)] *)
Definition Create_user_favorite (f : UserFavorite.t) : M unit :=
  statement (fun d =>
    inr (tt, mkTables (products d) (variants d) (price_histories d) (stock_histories d)
                      (notifications d) (user_favorites d ++ [f]) (users d) (clock d))).

(** [Create(&priceHistory)] *)
Definition Create_price_history (h : PriceHistory.t) : M unit :=
  statement (fun d => inr (tt, with_price_histories (price_histories d ++ [h]) d)).

(** [Create(&stockHistory)] *)
Definition Create_stock_history (h : StockHistory.t) : M unit :=
  statement (fun d => inr (tt, with_stock_histories (stock_histories d ++ [h]) d)).

(** [Create(&notification)] *)
Definition Create_notification (n : Notification.t) : M unit :=
  statement (fun d => inr (tt, with_notifications (notifications d ++ [n]) d)).

(** Modelled from the spec: the store's insert-or-update of one variant row
    (the persistence engine itself is an external collaborator).  A row
    without identity is inserted under a fresh one, a row with an identity
    replaces the stored row of that identity; [external_id] is a unique
    index (models/product.go). *)
Definition upsert_variant (v : Variant.t) (rows : list Variant.t)
  : error + list Variant.t :=
  if N.eqb (Variant.ID v) 0 then
    if existsb (fun r => String.eqb (Variant.ExternalID r) (Variant.ExternalID v)) rows
    then inl ErrDuplicateKey
    else inr (rows ++ [Variant.with_ids (fresh_id (Variant.ID <$> rows))
                                        (Variant.ProductID v) v])
  else if existsb (fun r => String.eqb (Variant.ExternalID r) (Variant.ExternalID v)
                            && negb (N.eqb (Variant.ID r) (Variant.ID v))) rows
  then inl ErrDuplicateKey
  else if existsb (fun r => N.eqb (Variant.ID r) (Variant.ID v)) rows then
    inr ((fun r => if N.eqb (Variant.ID r) (Variant.ID v) then v else r) <$> rows)
  else inr (rows ++ [v]).

Fixpoint upsert_variants (pid : N) (vs : list Variant.t) (rows : list Variant.t)
  : error + list Variant.t :=
  match vs with
  | [] => inr rows
  | v :: rest =>
      match upsert_variant (Variant.with_ids (Variant.ID v) pid v) rows with
      | inl e => inl e
      | inr rows' => upsert_variants pid rest rows'
      end
  end.

(** Modelled from the spec: the insert-or-update of the product row; the
    row itself does not hold the association. *)
Definition upsert_product (now : Z) (p : Product.t) (rows : list Product.t)
  : error + (N * list Product.t) :=
  let row := Product.with_Variants []
               (if Z.eqb (Product.CreatedAt p) 0 then Product.with_CreatedAt now p else p) in
  if N.eqb (Product.ID p) 0 then
    if existsb (fun r => String.eqb (Product.ExternalID r) (Product.ExternalID p)) rows
    then inl ErrDuplicateKey
    else let id := fresh_id (Product.ID <$> rows) in
         inr (id, rows ++ [Product.with_ID id row])
  else if existsb (fun r => String.eqb (Product.ExternalID r) (Product.ExternalID p)
                            && negb (N.eqb (Product.ID r) (Product.ID p))) rows
  then inl ErrDuplicateKey
  else if existsb (fun r => N.eqb (Product.ID r) (Product.ID p)) rows then
    inr (Product.ID p,
         (fun r => if N.eqb (Product.ID r) (Product.ID p) then row else r) <$> rows)
  else inr (Product.ID p, rows ++ [row]).

(** Modelled from the spec: the upsert of the item together with its
    reconciled variant set. *)
Definition upsert (p : Product.t) (d : Tables) : error + (unit * Tables) :=
  match upsert_product (clock d) p (products d) with
  | inl e => inl e
  | inr (pid, prows) =>
      match upsert_variants pid (Product.Variants p) (variants d) with
      | inl e => inl e
      | inr vrows => inr (tt, with_variants vrows (with_products prows d))
      end
  end.

(** [Save(product)], one statement. *)
Definition Save (p : Product.t) : M unit := statement (upsert p).

(** [Where("product_id = ?", pid).Order("created_at DESC").Find(&priceHistory)] *)
Definition Find_price_histories (pid : N) : M (list PriceHistory.t) :=
  statement (fun d =>
    inr (rev (List.filter (fun h => N.eqb (PriceHistory.ProductID h) pid)
                          (price_histories d)), d)).

(** ** Queries and writes on the notifications

    [models.Notification] embeds [gorm.Model]: [Delete] marks the rows as
    deleted and every query leaves the marked rows out, so the table holds
    the rows that queries still see. *)

(** [WHERE user_id = ?] *)
Definition of_user (userID : N) (n : Notification.t) : bool :=
  N.eqb (Notification.UserID n) userID.

(** [WHERE user_id = ? AND is_read = false] *)
Definition unread_of (userID : N) (n : Notification.t) : bool :=
  N.eqb (Notification.UserID n) userID && negb (Notification.IsRead n).

(** [ORDER BY delivered_at DESC]; rows delivered at the same instant come in
    the order the sort leaves them, the database promises none. *)
Definition newer_first (a b : Notification.t) : Prop :=
  Notification.DeliveredAt b <= Notification.DeliveredAt a.

#[global] Instance newer_first_dec : RelDecision newer_first :=
  fun a b => decide (Notification.DeliveredAt b <= Notification.DeliveredAt a).

Definition Order_delivered_at_desc (rows : list Notification.t) : list Notification.t :=
  merge_sort newer_first rows.

(** [Limit(limit).Offset(offset)]: an offset that is not positive is left
    out of the query, a negative limit lifts the limit. *)
Definition Limit_Offset {A} (limit offset : Z) (rows : list A) : list A :=
  let rows := drop (Z.to_nat offset) rows in
  if limit <? 0 then rows else take (Z.to_nat limit) rows.

(** [Model(&Notification{}).Where(cond).Count(&total)] *)
Definition Count_notifications (cond : Notification.t -> bool) : M Z :=
  statement (fun d => inr (Z.of_nat (length (List.filter cond (notifications d))), d)).

(** [Where(cond).Order("delivered_at DESC").Limit(limit).Offset(offset).Find(&notifications)] *)
Definition Find_notifications (cond : Notification.t -> bool) (limit offset : Z)
  : M (list Notification.t) :=
  statement (fun d =>
    inr (Limit_Offset limit offset
           (Order_delivered_at_desc (List.filter cond (notifications d))), d)).

Definition mark_read (n : Notification.t) : Notification.t :=
  Notification.mk (Notification.UserID n) (Notification.ProductID n)
                  (Notification.Message n) true (Notification.DeliveredAt n).

(** [Model(&Notification{}).Where("user_id = ? AND is_read = ?", u, false).Update("is_read", true)] *)
Definition Update_notifications_read (userID : N) : M unit :=
  statement (fun d =>
    inr (tt, with_notifications
               ((fun n => if unread_of userID n then mark_read n else n)
                  <$> notifications d) d)).

(** [Where("delivered_at < ?", cutoff).Delete(&Notification{})]; the value
    is [RowsAffected]. *)
Definition Delete_notifications_before (cutoff : Z) : M Z :=
  statement (fun d =>
    inr (Z.of_nat (length (List.filter
                             (fun n => Notification.DeliveredAt n <? cutoff)
                             (notifications d))),
         with_notifications
           (List.filter (fun n => negb (Notification.DeliveredAt n <? cutoff))
                        (notifications d)) d)).

End db.

Notation "'let*' x ':=' m 'in' k" := (db.bind m (fun x => k))
  (at level 10, x name, m at level 100, k at level 200, only parsing).

(** ** The broker client (internal/common/messaging/kafka.go)

    A client keeps what it has written, and a script of injected write
    failures consumed one per publish. *)

Module messaging.

Record KafkaClient (A : Type) := mkKafka
  { written : list (string * string * A); failures : list bool }.
Arguments mkKafka {A} written failures.
Arguments written {A} k.
Arguments failures {A} k.

(** [PublishMessage(ctx, topic, key, data)] *)
Definition PublishMessage {A} (topic key : string) (data : A) (k : KafkaClient A)
  : option error * KafkaClient A :=
  match failures k with
  | true :: rest =>
      (Some (Errorf "error writing message to Kafka" ErrWriteMessages),
       mkKafka (written k) rest)
  | false :: rest => (None, mkKafka (written k ++ [(topic, key, data)]) rest)
  | [] => (None, mkKafka (written k ++ [(topic, key, data)]) [])
  end.

(** [ConsumeMessages(ctx, topic, handler)]: the loop over what
    [consumer.ReadMessage] returns until the context is done, [None] being a
    read that fails.  A failed read is logged and the loop goes on; so does
    it when the handler returns an error. *)
Definition ConsumeMessages {S M E} (handler : M -> S -> E * S)
    (reads : list (option M)) (s : S) : S :=
  foldl (fun s read => match read with
                       | Some message => snd (handler message s)
                       | None => s
                       end) s reads.

End messaging.

(** The payload of the product topic, written by the crawler
    ([publishProductUpdate]) and read by the analyzer; the time stamp, which
    no reader uses, is left out. *)
Module ProductUpdate.
Record t := mk { ExternalID : string; Name : string; IsActive : bool }.
End ProductUpdate.

(** ** The configuration (internal/common/config)

    The environment of the process is a finite map from names to values. *)

Module config.

(** [getEnv]: [os.LookupEnv] tells a variable that is set to the empty
    string from one that is not set. *)
Definition getEnv (env : gmap string string) (key defaultValue : string) : string :=
  match env !! key with
  | Some value => value
  | None => defaultValue
  end.

(** [split] *)
Definition split (s sep : string) : list string :=
  if String.eqb s "" then [] else [s].

(** [getEnvAsSlice] *)
Definition getEnvAsSlice (env : gmap string string) (key : string)
    (defaultValue : list string) : list string :=
  let valueStr := getEnv env key "" in
  if String.eqb valueStr "" then defaultValue else split valueStr ",".

(** [LoadConfig().Kafka]: the fields read from variables that hold text. *)
Record KafkaConfig := mkKafkaConfig
  { Brokers : list string; ConsumerGroup : string;
    ProductTopic : string; NotificationTopic : string }.

Definition LoadConfig_Kafka (env : gmap string string) : KafkaConfig :=
  mkKafkaConfig (getEnvAsSlice env "KAFKA_BROKERS" ["localhost:9092"])
                (getEnv env "KAFKA_CONSUMER_GROUP" "ecommerce-group")
                (getEnv env "KAFKA_PRODUCT_TOPIC" "product-updates")
                (getEnv env "KAFKA_NOTIFICATION_TOPIC" "user-notifications").

End config.

(** ** The scraper (internal/crawler/scraper.go) *)

Module scraper.

(** The decoded body of the product endpoint, with the fields that reach
    the columns of the data model. *)
Record variantResult := mkVariantResult
  { variantID : string; Price : float; OriginalPrice : float; StockCount : Z }.

Record result := mkResult
  { ID : string; Name : string; URL : string; IsInStock : bool;
    Variants : list variantResult }.

(** The product that [GetProductDetails] builds from the decoded body: it
    names neither the product row nor a variant row. *)
Definition product_of (r : result) : Product.t :=
  Product.mk 0 0 (ID r) (Name r) (URL r) (IsInStock r)
    ((fun v => Variant.mk 0 0 (variantID v) (Price v) (OriginalPrice v) (StockCount v))
       <$> Variants r).

(** A scraper is the script of the replies to the requests to come, one
    script for each of the two endpoints, [None] being a request that fails
    (transport, status other than 200, or a body that does not decode); when
    a script is used up, requests fail. *)
Record Scraper := mkScraper
  { details : list (option result); listings : list (option (list string)) }.

(** [GetProductDetails] *)
Definition GetProductDetails (productID : string) (s : Scraper)
  : option Product.t * Scraper :=
  match details s with
  | Some r :: rest => (Some (product_of r), mkScraper rest (listings s))
  | None :: rest => (None, mkScraper rest (listings s))
  | [] => (None, s)
  end.

(** [GetProductIDsByCategory] *)
Definition GetProductIDsByCategory (categoryID : string) (s : Scraper)
  : option (list string) * Scraper :=
  match listings s with
  | reply :: rest => (reply, mkScraper (details s) rest)
  | [] => (None, s)
  end.

End scraper.

(** The payload of the notification topic, written by the analyzer and read
    by the notification service. *)
Module PriceDrop.
Record t := mk
  { UserID : N; ProductID : N; VariantID : N;
    PreviousPrice : float; NewPrice : float; DiscountPercent : float;
    ProductName : string; ProductURL : string }.
End PriceDrop.

(** ** Lock discipline of a table guarded by a [sync.RWMutex]

    The services log, in program order, what they do to a shared table and to
    its mutex. *)

Module sync.

Inductive event := Lock | Unlock | RLock | RUnlock | Read | Write.

Inductive held := Free | Shared (readers : nat) | Exclusive.

(** One event against the state of the mutex; [None] when the event is a
    table access made without the lock it needs, or a misuse of the mutex. *)
Definition step (h : held) (e : event) : option held :=
  match e, h with
  | Lock, Free => Some Exclusive
  | Unlock, Exclusive => Some Free
  | RLock, Free => Some (Shared 1)
  | RLock, Shared n => Some (Shared (S n))
  | RUnlock, Shared 1 => Some Free
  | RUnlock, Shared (S (S n)) => Some (Shared (S n))
  | Read, Shared n => Some (Shared n)
  | Read, Exclusive => Some Exclusive
  | Write, Exclusive => Some Exclusive
  | _, _ => None
  end.

Fixpoint run (h : held) (tr : list event) : option held :=
  match tr with
  | [] => Some h
  | e :: rest => match step h e with Some h' => run h' rest | None => None end
  end.

(** Every access of the trace is made under the lock, which is released at
    the end. *)
Definition guarded (tr : list event) : Prop := run Free tr = Some Free.

End sync.

(** ** The crawler service (crawler package) *)

Module crawler.
Import db.

(** [Service]: the store, the priority table, and the log of what is done
    to the table and to [priorityMux]. *)
Record Service := mkService
  { database : Conn;
    priorityList : gmap string Z;
    trace : list sync.event }.

Definition NewCrawlerService (c : Conn) : Service := mkService c ∅ [].

Definition emit (e : sync.event) (s : Service) : Service :=
  mkService (database s) (priorityList s) (trace s ++ [e]).
Definition with_database (c : Conn) (s : Service) : Service :=
  mkService c (priorityList s) (trace s).

(** [s.priorityList[id] = priority] *)
Definition priorityList_set (id : string) (priority : Z) (s : Service) : Service :=
  emit sync.Write (mkService (database s) (<[id := priority]> (priorityList s)) (trace s)).

(** [_, exists := s.priorityList[id]] *)
Definition priorityList_exists (id : string) (s : Service) : bool * Service :=
  (bool_decide (is_Some (priorityList s !! id)), emit sync.Read s).

(** [calculatePercentageChange] *)
Definition calculatePercentageChange (oldPrice newPrice : float) : float :=
  if (oldPrice =? 0)%float then 0%float
  else ((newPrice - oldPrice) / oldPrice * 100)%float.

(** The error branch shared by the statements of [saveProduct]:
    [if err != nil { tx.Rollback(); return fmt.Errorf(msg, err) }]. *)
Definition or_rollback {A} (msg : string) (m : M A) : M A :=
  fun c => match m c with
           | (inl e, c') => (inl (Errorf msg e), Rollback c')
           | r => r
           end.

(** [if err != nil { return fmt.Errorf(msg, err) }] *)
Definition or_return {A} (msg : string) (m : M A) : M A :=
  fun c => match m c with
           | (inl e, c') => (inl (Errorf msg e), c')
           | r => r
           end.

(** [result := stmt]: the error is kept as a value and inspected later. *)
Definition result_of {A} (m : M A) : M (error + A) :=
  fun c => let '(r, c') := m c in (inr r, c').

(** The loop [for i, variant := range product.Variants] of [saveProduct];
    the list returned is [product.Variants] after the loop. *)
Fixpoint compareVariants (existingProduct : Product.t)
    (existingVariantMap : gmap string Variant.t) (vs : list Variant.t)
  : M (list Variant.t) :=
  match vs with
  | [] => ret []
  | variant :: rest =>
      match existingVariantMap !! Variant.ExternalID variant with
      | Some existingVariant =>
          let* _ :=
            (if negb (Variant.Price existingVariant =? Variant.Price variant)%float
             then or_rollback "failed to create price history"
                    (Create_price_history
                       (PriceHistory.mk (Product.ID existingProduct)
                          (Variant.ID existingVariant)
                          (Variant.Price existingVariant)
                          (Variant.Price variant)
                          (calculatePercentageChange (Variant.Price existingVariant)
                                                     (Variant.Price variant))))
             else ret tt) in
          let* _ :=
            (if negb (Variant.StockCount existingVariant =? Variant.StockCount variant)
             then or_rollback "failed to create stock history"
                    (Create_stock_history
                       (StockHistory.mk (Product.ID existingProduct)
                          (Variant.ID existingVariant)
                          (Variant.StockCount existingVariant)
                          (Variant.StockCount variant)
                          (int_wrap (Variant.StockCount variant
                                     - Variant.StockCount existingVariant))))
             else ret tt) in
          let variant := Variant.with_ids (Variant.ID existingVariant)
                                          (Product.ID existingProduct) variant in
          let* rest' := compareVariants existingProduct existingVariantMap rest in
          ret (variant :: rest')
      | None =>
          let* rest' := compareVariants existingProduct existingVariantMap rest in
          ret (variant :: rest')
      end
  end.

(** [existingVariantMap]: later rows overwrite earlier ones of the same key. *)
Definition variantMap (existingVariants : list Variant.t) : gmap string Variant.t :=
  foldl (fun m variant => <[Variant.ExternalID variant := variant]> m) ∅ existingVariants.

(** [saveProduct] *)
Definition saveProduct (product : Product.t) : M unit :=
  let* _ := Begin in
  let* result := result_of (First_product_by_external_id (Product.ExternalID product)) in
  let* product :=
    match result with
    | inr existingProduct =>
        let product :=
          Product.with_CreatedAt (Product.CreatedAt existingProduct)
            (Product.with_ID (Product.ID existingProduct) product) in
        let* existingVariants :=
          or_rollback "failed to fetch existing variants"
            (Find_variants_by_product_id (Product.ID existingProduct)) in
        let existingVariantMap := variantMap existingVariants in
        let* variants :=
          compareVariants existingProduct existingVariantMap (Product.Variants product) in
        ret (Product.with_Variants variants product)
    | inl _ => ret product
    end in
  let* _ := or_rollback "failed to save product" (Save product) in
  let* _ := or_return "failed to commit transaction" Commit in
  ret tt.

(** [loadPriorityList]: every favorited product gets band 10. *)
Definition loadPriorityList (s : Service) : option error * Service :=
  match Find_user_favorites_with_product (database s) with
  | (inl e, c) => (Some (Errorf "failed to load user favorites" e), with_database c s)
  | (inr userFavorites, c) =>
      let s := emit sync.Lock (with_database c s) in
      let s :=
        foldl (fun s favorite => priorityList_set (Product.ExternalID (snd favorite)) 10 s)
              s userFavorites in
      (None, emit sync.Unlock s)
  end.

(** The branch of [crawlProductsByCategory] taken for a product that is
    already stored: make sure it has an entry, band 1 by default. *)
Definition ensurePriority (productID : string) (s : Service) : Service :=
  let s := emit sync.Lock s in
  let '(exists_, s) := priorityList_exists productID s in
  let s := if negb exists_ then priorityList_set productID 1 s else s in
  emit sync.Unlock s.

(** [crawlRegularPriorityProducts]: the batch the tick goes on to fetch.
    [iteration] is the order in which [range s.priorityList] yields the
    entries, which Go leaves unspecified. *)
Definition crawlRegularPriorityProducts (iteration : list (string * Z)) (s : Service)
  : list string * Service :=
  let s := emit sync.RLock s in
  let regularPriorityProducts :=
    fst <$> List.filter (fun entry => snd entry <? 5) iteration in
  let s := emit sync.RUnlock (emit sync.Read s) in
  let maxProducts := 100%nat in
  (if (maxProducts <? length regularPriorityProducts)%nat
   then take maxProducts regularPriorityProducts
   else regularPriorityProducts, s).

(** [crawlHighPriorityProducts]: the batch of the high-priority tick. *)
Definition crawlHighPriorityProducts (iteration : list (string * Z)) (s : Service)
  : list string * Service :=
  let s := emit sync.RLock s in
  let highPriorityProducts :=
    fst <$> List.filter (fun entry => snd entry >=? 5) iteration in
  let s := emit sync.RUnlock (emit sync.Read s) in
  (highPriorityProducts, s).

(** [updateProductPriority] (API): [request] is the bound body, [None] when
    binding fails. *)
Definition updateProductPriority (id : string) (request : option Z) (s : Service)
  : (HTTPError + unit) * Service :=
  match request with
  | None => (inl (StatusBadRequest "Invalid request body"), s)
  | Some Priority =>
      if (Priority <? 0) || (Priority >? 10) then
        (inl (StatusBadRequest "Priority must be between 0 and 10"), s)
      else
        match First_product_by_external_id id (database s) with
        | (inl ErrRecordNotFound, c) =>
            (inl (StatusNotFound "Product not found"), with_database c s)
        | (inl _, c) =>
            (inl (StatusInternalServerError "Failed to fetch product"), with_database c s)
        | (inr _, c) =>
            let s := emit sync.Lock (with_database c s) in
            let s := priorityList_set id Priority s in
            (inr tt, emit sync.Unlock s)
        end
  end.

(** The handler of [listenForPriorityUpdates]: [update] is the decoded
    message ([product_id], [priority]), [None] when decoding fails. *)
Definition listenForPriorityUpdates (update : option (string * Z)) (s : Service)
  : option error * Service :=
  match update with
  | None => (Some (Errorf "failed to unmarshal priority update" ErrUnmarshal), s)
  | Some (ProductID, Priority) =>
      let s := emit sync.Lock s in
      let s := priorityList_set ProductID Priority s in
      (None, emit sync.Unlock s)
  end.

(** [getProductByID] (API): the product found by its external identifier,
    with its variants preloaded; the other associations are not modelled. *)
Definition getProductByID (id : string) (s : Service)
  : (HTTPError + Product.t) * Service :=
  match First_product_by_external_id id (database s) with
  | (inl ErrRecordNotFound, c) =>
      (inl (StatusNotFound "Product not found"), with_database c s)
  | (inl _, c) =>
      (inl (StatusInternalServerError "Failed to fetch product"), with_database c s)
  | (inr product, c) =>
      match Find_variants_by_product_id (Product.ID product) c with
      | (inl _, c) =>
          (inl (StatusInternalServerError "Failed to fetch product"), with_database c s)
      | (inr variants, c) =>
          (inr (Product.with_Variants variants product), with_database c s)
      end
  end.

(** *** The crawling loops

    A crawl threads the service together with its two collaborators, the
    broker client and the scraper.  The context is taken not to be cancelled
    while a loop runs. *)

Record Crawl := mkCrawl
  { service : Service;
    kafka : messaging.KafkaClient ProductUpdate.t;
    scraper : scraper.Scraper }.

Definition with_service (s : Service) (w : Crawl) : Crawl :=
  mkCrawl s (kafka w) (scraper w).
Definition with_kafka (k : messaging.KafkaClient ProductUpdate.t) (w : Crawl) : Crawl :=
  mkCrawl (service w) k (scraper w).
Definition with_scraper (sc : scraper.Scraper) (w : Crawl) : Crawl :=
  mkCrawl (service w) (kafka w) sc.

Section crawling.
(** [s.config.Kafka.ProductTopic] *)
Variable ProductTopic : string.

(** [publishProductUpdate] *)
Definition publishProductUpdate (product : Product.t)
    (k : messaging.KafkaClient ProductUpdate.t)
  : option error * messaging.KafkaClient ProductUpdate.t :=
  messaging.PublishMessage ProductTopic (Product.ExternalID product)
    (ProductUpdate.mk (Product.ExternalID product) (Product.Name product)
                      (Product.IsActive product)) k.

(** The body of the loop over the batch of a tick, and of the branch of
    [crawlProductsByCategory] for a product that is not stored: fetch,
    [saveProduct], [publishProductUpdate], going on to the next product as
    soon as the fetch or the save fails. *)
Definition crawlAndPublish (productID : string) (w : Crawl) : Crawl :=
  match scraper.GetProductDetails productID (scraper w) with
  | (None, sc) => with_scraper sc w
  | (Some product, sc) =>
      let w := with_scraper sc w in
      match saveProduct product (database (service w)) with
      | (inl _, c) => with_service (with_database c (service w)) w
      | (inr _, c) =>
          let w := with_service (with_database c (service w)) w in
          with_kafka (snd (publishProductUpdate product (kafka w))) w
      end
  end.

(** [crawlRegularPriorityProducts], the selection and the loop. *)
Definition regularPriorityTick (iteration : list (string * Z)) (w : Crawl) : Crawl :=
  let '(regularPriorityProducts, s) := crawlRegularPriorityProducts iteration (service w) in
  foldl (fun w productID => crawlAndPublish productID w)
        (with_service s w) regularPriorityProducts.

(** [crawlHighPriorityProducts], the selection and the loop. *)
Definition highPriorityTick (iteration : list (string * Z)) (w : Crawl) : Crawl :=
  let '(highPriorityProducts, s) := crawlHighPriorityProducts iteration (service w) in
  foldl (fun w productID => crawlAndPublish productID w)
        (with_service s w) highPriorityProducts.

(** One turn of the inner loop of [crawlProductsByCategory]. *)
Definition discoverProduct (productID : string) (w : Crawl) : Crawl :=
  match First_product_by_external_id productID (database (service w)) with
  | (inr _, c) =>
      with_service (ensurePriority productID (with_database c (service w))) w
  | (inl _, c) =>
      crawlAndPublish productID (with_service (with_database c (service w)) w)
  end.

(** [crawlProductsByCategory]: [categories] holds the external identifiers
    of the categories. *)
Definition crawlProductsByCategory (categories : list string) (w : Crawl) : Crawl :=
  foldl (fun w category =>
           match scraper.GetProductIDsByCategory category (scraper w) with
           | (None, sc) => with_scraper sc w
           | (Some productIDs, sc) =>
               foldl (fun w productID => discoverProduct productID w)
                     (with_scraper sc w) productIDs
           end) w categories.

(** The background function of [crawlProduct] (API): the update is
    published whether or not the product could be saved. *)
Definition crawlProduct (id : string) (w : Crawl) : Crawl :=
  match scraper.GetProductDetails id (scraper w) with
  | (None, sc) => with_scraper sc w
  | (Some product, sc) =>
      let w := with_scraper sc w in
      let c := snd (saveProduct product (database (service w))) in
      let w := with_service (with_database c (service w)) w in
      with_kafka (snd (publishProductUpdate product (kafka w))) w
  end.

(** The background function of [crawlCategory] (API), past the check that
    the category is stored. *)
Definition crawlCategory (id : string) (w : Crawl) : Crawl :=
  match scraper.GetProductIDsByCategory id (scraper w) with
  | (None, sc) => with_scraper sc w
  | (Some productIDs, sc) =>
      foldl (fun w productID => crawlProduct productID w) (with_scraper sc w) productIDs
  end.

End crawling.

(** The handler of [listenForPriorityUpdates] run by [ConsumeMessages] over
    what the reader of the topic delivers. *)
Definition consumePriorityUpdates (reads : list (option (option (string * Z))))
    (s : Service) : Service :=
  messaging.ConsumeMessages listenForPriorityUpdates reads s.

End crawler.

(** ** The analyzer service (analyzer package) *)

Module analyzer.
Import db messaging.

(** [priceAlert] *)
Record priceAlert := mkAlert
  { UserID : N; ProductID : N; VariantID : N;
    DiscountPercent : float; LastNotification : Z }.

Definition with_LastNotification (t : Z) (a : priceAlert) : priceAlert :=
  mkAlert (UserID a) (ProductID a) (VariantID a) (DiscountPercent a) t.

(** [time.Time{}], January 1 of year 1, in nanoseconds before the epoch. *)
Definition zeroTime : Z := - 62135596800 * Second.

(** [Service]; the struct has no mutex, so the log only ever holds the
    accesses to [priceAlerts]. *)
Record Service := mkService
  { database : Conn;
    kafka : KafkaClient PriceDrop.t;
    priceAlerts : gmap N (list priceAlert);
    trace : list sync.event }.

Definition NewAnalyzerService (c : Conn) (k : KafkaClient PriceDrop.t) : Service :=
  mkService c k ∅ [].

Definition emit (e : sync.event) (s : Service) : Service :=
  mkService (database s) (kafka s) (priceAlerts s) (trace s ++ [e]).
Definition with_database (c : Conn) (s : Service) : Service :=
  mkService c (kafka s) (priceAlerts s) (trace s).
Definition with_kafka (k : KafkaClient PriceDrop.t) (s : Service) : Service :=
  mkService (database s) k (priceAlerts s) (trace s).
Definition with_priceAlerts (m : gmap N (list priceAlert)) (s : Service) : Service :=
  mkService (database s) (kafka s) m (trace s).

(** [s.priceAlerts[id]]: a missing key reads as the nil slice. *)
Definition alertsOf (id : N) (s : Service) : list priceAlert :=
  default [] (priceAlerts s !! id).

(** [s.priceAlerts[id] = append(s.priceAlerts[id], alert)] *)
Definition appendAlert (id : N) (alert : priceAlert) (s : Service) : Service :=
  emit sync.Write
    (with_priceAlerts (<[id := alertsOf id s ++ [alert]]> (priceAlerts s))
                      (emit sync.Read s)).

(** [loadPriceAlerts] *)
Definition loadPriceAlerts (s : Service) : option error * Service :=
  match Find_user_favorites_with_product (database s) with
  | (inl e, c) => (Some (Errorf "failed to load user favorites" e), with_database c s)
  | (inr userFavorites, c) =>
      (None,
       foldl (fun s favorite =>
                let alert := mkAlert (UserFavorite.UserID (fst favorite))
                                     (UserFavorite.ProductID (fst favorite))
                                     0 10%float zeroTime in
                appendAlert (UserFavorite.ProductID (fst favorite)) alert s)
             (with_database c s) userFavorites)
  end.

(** The loop that follows a successful publish: every alert of the product
    that belongs to the notified user gets [time.Now()]; the elements are
    written in place. *)
Definition updateLastNotification (productID userID : N) (now : Z) (s : Service)
  : Service :=
  match priceAlerts s !! productID with
  | Some alerts =>
      emit sync.Write
        (with_priceAlerts
           (<[productID :=
                (fun a => if N.eqb (UserID a) userID
                          then with_LastNotification now a else a) <$> alerts]>
              (priceAlerts s))
           (emit sync.Read s))
  | None => emit sync.Read s
  end.

(** The key of the published message,
    [fmt.Sprintf("price-drop-%d-%d", alert.UserID, product.ID)]. *)
Definition notificationKey (userID productID : N) : string :=
  "price-drop-" +:+ pretty userID +:+ "-" +:+ pretty productID.

Section handler.
(** [s.config.Kafka.NotificationTopic] *)
Variable NotificationTopic : string.
(** The reading of the clock during the call. *)
Variable now : Z.

(** The body of the loop over [priceHistories], for the copy [alert] of
    the alert under examination. *)
Definition processHistory (product : Product.t) (alert : priceAlert)
    (history : PriceHistory.t) (s : Service) : Service :=
  if (PriceHistory.ChangePercent history <=? - DiscountPercent alert)%float
     && (24 * Hour <? time_Since now (LastNotification alert))
  then
    match First_variant_by_id (PriceHistory.VariantID history) (database s) with
    | (inl _, c) => with_database c s
    | (inr variant, c) =>
        let notification :=
          PriceDrop.mk (UserID alert) (Product.ID product) (Variant.ID variant)
                       (PriceHistory.PreviousPrice history)
                       (PriceHistory.NewPrice history)
                       (- PriceHistory.ChangePercent history)%float
                       (Product.Name product) (Product.URL product) in
        match PublishMessage NotificationTopic
                (notificationKey (UserID alert) (Product.ID product))
                notification (kafka s) with
        | (Some _, k) => with_kafka k (with_database c s)
        | (None, k) =>
            updateLastNotification (Product.ID product) (UserID alert) now
                                   (with_kafka k (with_database c s))
        end
    end
  else s.

(** One turn of [for _, alert := range alerts]: the element is copied out
    of the slice, which shares its array with [s.priceAlerts]. *)
Definition processAlert (product : Product.t) (priceHistories : list PriceHistory.t)
    (i : nat) (s : Service) : Service :=
  match alertsOf (Product.ID product) s !! i with
  | Some alert =>
      foldl (fun s history => processHistory product alert history s)
            (emit sync.Read s) priceHistories
  | None => s
  end.

(** [processProductUpdate] *)
Definition processProductUpdate (externalID : string) (s : Service)
  : option error * Service :=
  match First_product_by_external_id externalID (database s) with
  | (inl e, c) => (Some (Errorf "failed to fetch product" e), with_database c s)
  | (inr product, c) =>
      match Find_recent_price_histories (Product.ID product) 10 c with
      | (inl e, c) =>
          (Some (Errorf "failed to fetch price histories" e), with_database c s)
      | (inr priceHistories, c) =>
          let s := emit sync.Read (with_database c s) in
          match priceAlerts s !! Product.ID product with
          | Some alerts =>
              if (0 <? length priceHistories)%nat then
                (None, foldl (fun s i => processAlert product priceHistories i s)
                             s (seq 0 (length alerts)))
              else (None, s)
          | None => (None, s)
          end
      end
  end.

End handler.

(** [createPriceAlert] (API): [request] is the bound body
    ([user_id], [product_id], [variant_id], [discount_percent]). *)
Definition createPriceAlert (request : option (N * N * N * float)) (s : Service)
  : (HTTPError + priceAlert) * Service :=
  match request with
  | None => (inl (StatusBadRequest "Invalid request body"), s)
  | Some (UserID, ProductID, VariantID, DiscountPercent) =>
      if (DiscountPercent <=? 0)%float then
        (inl (StatusBadRequest "Discount percentage must be positive"), s)
      else
        match First_product_by_id ProductID (database s) with
        | (inl ErrRecordNotFound, c) =>
            (inl (StatusNotFound "Product not found"), with_database c s)
        | (inl _, c) =>
            (inl (StatusInternalServerError "Failed to fetch product"), with_database c s)
        | (inr _, c) =>
            match First_user_by_id UserID c with
            | (inl ErrRecordNotFound, c) =>
                (inl (StatusNotFound "User not found"), with_database c s)
            | (inl _, c) =>
                (inl (StatusInternalServerError "Failed to fetch user"), with_database c s)
            | (inr _, c) =>
                let checked :=
                  if (0 <? VariantID)%N then
                    match First_variant_by_id VariantID c with
                    | (inl ErrRecordNotFound, c) =>
                        (inl (StatusNotFound "Variant not found"), c)
                    | (inl _, c) =>
                        (inl (StatusInternalServerError "Failed to fetch variant"), c)
                    | (inr _, c) => (inr tt, c)
                    end
                  else (inr tt, c) in
                match checked with
                | (inl e, c) => (inl e, with_database c s)
                | (inr _, c) =>
                    let alert := mkAlert UserID ProductID VariantID DiscountPercent
                                         zeroTime in
                    let s := appendAlert ProductID alert (with_database c s) in
                    match First_user_favorite UserID ProductID (database s) with
                    | (inl ErrRecordNotFound, c) =>
                        match Create_user_favorite (UserFavorite.mk UserID ProductID) c with
                        | (inl _, c) =>
                            (inl (StatusInternalServerError "Failed to create user favorite"),
                             with_database c s)
                        | (inr _, c) => (inr alert, with_database c s)
                        end
                    | (_, c) => (inr alert, with_database c s)
                    end
                end
            end
        end
  end.

(** [deletePriceAlert] (API): [id] is the parsed path parameter, [None]
    when it is not a number, and [request] the bound body ([user_id],
    [product_id]).  The alert removed is the first one of the product that
    belongs to the user; [id] is not looked at again. *)
Definition deletePriceAlert (id : option N) (request : option (N * N)) (s : Service)
  : (HTTPError + unit) * Service :=
  match id with
  | None => (inl (StatusBadRequest "Invalid alert ID"), s)
  | Some _ =>
      match request with
      | None => (inl (StatusBadRequest "Invalid request body"), s)
      | Some (UserID_, ProductID_) =>
          match priceAlerts s !! ProductID_ with
          | Some alerts =>
              match list_find (fun alert => UserID alert = UserID_) alerts with
              | Some (i, _) =>
                  (inr tt,
                   emit sync.Write
                     (with_priceAlerts
                        (<[ProductID_ := take i alerts ++ drop (S i) alerts]>
                           (priceAlerts s))
                        (emit sync.Read s)))
              | None => (inl (StatusNotFound "Price alert not found"), emit sync.Read s)
              end
          | None => (inl (StatusNotFound "Price alert not found"), emit sync.Read s)
          end
      end
  end.

(** [getUserPriceAlerts] (API): [id] is the parsed path parameter and
    [iteration] the order in which [range api.service.priceAlerts] yields the
    entries.  An alert whose product cannot be fetched is left out. *)
Definition getUserPriceAlerts (id : option N) (iteration : list (N * list priceAlert))
    (s : Service) : (HTTPError + list (priceAlert * string)) * Service :=
  match id with
  | None => (inl (StatusBadRequest "Invalid user ID"), s)
  | Some userID =>
      let '(alerts, s) :=
        foldl (fun '(alerts, s) '(productID, productAlerts) =>
                 foldl (fun '(alerts, s) alert =>
                          if N.eqb (UserID alert) userID then
                            match First_product_by_id productID (database s) with
                            | (inl _, c) => (alerts, with_database c s)
                            | (inr product, c) =>
                                (alerts ++ [(alert, Product.Name product)],
                                 with_database c s)
                            end
                          else (alerts, s))
                       (alerts, s) productAlerts)
              ([], emit sync.Read s) iteration in
      (inr alerts, s)
  end.

(** [getPriceHistory] (API): [id] is the parsed path parameter. *)
Definition getPriceHistory (id : option N) (s : Service)
  : (HTTPError + list PriceHistory.t) * Service :=
  match id with
  | None => (inl (StatusBadRequest "Invalid product ID"), s)
  | Some productID =>
      match Find_price_histories productID (database s) with
      | (inl _, c) =>
          (inl (StatusInternalServerError "Failed to get price history"),
           with_database c s)
      | (inr priceHistory, c) => (inr priceHistory, with_database c s)
      end
  end.

(** The loop of [updatePriorities] over [trendingProducts], the rows its
    query has returned: a failed publish is logged and the loop goes on. *)
Definition updatePriorities (trendingProducts : list Product.t)
    (k : KafkaClient (string * Z)) : KafkaClient (string * Z) :=
  foldl (fun k product =>
           snd (PublishMessage "product-priorities" (Product.ExternalID product)
                               (Product.ExternalID product, 8) k))
        k trendingProducts.

Section consumer.
Variable NotificationTopic : string.
Variable now : Z.

(** The handler of [consumeProductUpdates]: [update] is the decoded
    [external_id], [None] when decoding fails. *)
Definition consumeProductUpdates (update : option string) (s : Service)
  : option error * Service :=
  match update with
  | None => (Some (Errorf "failed to unmarshal product update" ErrUnmarshal), s)
  | Some ExternalID => processProductUpdate NotificationTopic now ExternalID s
  end.

End consumer.

End analyzer.

(** ** The notification service (notification package) *)

Module notification.
Import db.

(** A buffered [chan string].  A channel value is a reference: the service
    state keeps every channel made so far, and a channel is named by its
    position there. *)
Record channel := mkChan
  { buffer : list string; capacity : nat; closed : bool }.

(** [Service] *)
Record Service := mkService
  { database : Conn;
    channels : list channel;
    userChannels : gmap N nat }.

Definition NewNotificationService (c : Conn) : Service := mkService c [] ∅.

Definition with_database (c : Conn) (s : Service) : Service :=
  mkService c (channels s) (userChannels s).
Definition with_channels (h : list channel) (s : Service) : Service :=
  mkService (database s) h (userChannels s).

(** [close(ch)]: closing a closed channel panics. *)
Definition close (ch : nat) (h : list channel) : outcome (list channel) :=
  match h !! ch with
  | Some c =>
      if closed c then Panic
      else Done (<[ch := mkChan (buffer c) (capacity c) true]> h)
  | None => Panic
  end.

Inductive sent := Sent (h : list channel) | NotSent.

(** [select { case ch <- msg: ... default: ... }]: a send on a closed
    channel panics, a send on a channel with room is taken, otherwise the
    default case runs. *)
Definition trySend (ch : nat) (msg : string) (h : list channel) : outcome sent :=
  match h !! ch with
  | Some c =>
      if closed c then Panic
      else if (length (buffer c) <? capacity c)%nat
           then Done (Sent (<[ch := mkChan (buffer c ++ [msg]) (capacity c) false]> h))
           else Done NotSent
  | None => Panic
  end.

Inductive received := Received (msg : string) | Closed | Empty.

(** [msg, ok := <-ch] when the case can run: a closed channel still hands
    out what is buffered, and reports [ok = false] once it is drained. *)
Definition receive (ch : nat) (h : list channel) : received * list channel :=
  match h !! ch with
  | Some c =>
      match buffer c with
      | msg :: rest => (Received msg, <[ch := mkChan rest (capacity c) (closed c)]> h)
      | [] => (if closed c then Closed else Empty, h)
      end
  | None => (Empty, h)
  end.

(** [RegisterUserChannel] *)
Definition RegisterUserChannel (userID : N) (s : Service) : outcome (nat * Service) :=
  match (match userChannels s !! userID with
         | Some channel => close channel (channels s)
         | None => Done (channels s)
         end) with
  | Panic => Panic
  | Done h =>
      let channel := length h in
      Done (channel,
            mkService (database s) (h ++ [mkChan [] 100 false])
                      (<[userID := channel]> (userChannels s)))
  end.

(** [UnregisterUserChannel] *)
Definition UnregisterUserChannel (userID : N) (s : Service) : outcome Service :=
  match userChannels s !! userID with
  | Some channel =>
      match close channel (channels s) with
      | Panic => Panic
      | Done h => Done (mkService (database s) h (delete userID (userChannels s)))
      end
  | None => Done s
  end.

(** The end of the handler of [consumeNotifications], past
    [s.channelsMutex.RUnlock()]: [if exists { select ... }] on the channel
    that was read from the registry under the lock. *)
Definition deliver (found : option nat) (notificationMsg : string) (s : Service)
  : outcome (option error * Service) :=
  match found with
  | Some channel =>
      match trySend channel notificationMsg (channels s) with
      | Panic => Panic
      | Done (Sent h) => Done (None, with_channels h s)
      | Done NotSent => Done (None, s)
      end
  | None => Done (None, s)
  end.

Section handler.
(** [fmt.Sprintf("Price drop alert: %s is now %.2f (was %.2f, %.1f%% discount)", ...)] *)
Variable Sprintf : string -> float -> float -> float -> string.
(** The reading of the clock during the call. *)
Variable now : Z.

(** The handler of [consumeNotifications], run without another goroutine in
    between: [message] is the decoded payload, [None] when decoding fails. *)
Definition consumeNotifications (message : option PriceDrop.t) (s : Service)
  : outcome (option error * Service) :=
  match message with
  | None => Done (Some (Errorf "failed to unmarshal notification" ErrUnmarshal), s)
  | Some notification =>
      let notificationMsg :=
        Sprintf (PriceDrop.ProductName notification) (PriceDrop.NewPrice notification)
                (PriceDrop.PreviousPrice notification)
                (PriceDrop.DiscountPercent notification) in
      let dbNotification :=
        Notification.mk (PriceDrop.UserID notification) (PriceDrop.ProductID notification)
                        notificationMsg false now in
      let s := with_database (snd (Create_notification dbNotification (database s))) s in
      deliver (userChannels s !! PriceDrop.UserID notification) notificationMsg s
  end.

End handler.

Inductive turn := WriteJSON (msg : string) | Return | Wait.

(** One turn of the [select] loop of [handleWebSocket] on the case
    [msg, ok := <-notificationCh]: a message is written to the socket; on
    [!ok] the handler returns and its deferred [UnregisterUserChannel] runs. *)
Definition handleWebSocket (userID : N) (notificationCh : nat) (s : Service)
  : outcome (turn * Service) :=
  match receive notificationCh (channels s) with
  | (Received msg, h) => Done (WriteJSON msg, with_channels h s)
  | (Closed, _) =>
      match UnregisterUserChannel userID s with
      | Panic => Panic
      | Done s' => Done (Return, s')
      end
  | (Empty, _) => Done (Wait, s)
  end.

(** [GetUnreadNotifications] *)
Definition GetUnreadNotifications (userID : N) (limit offset : Z) (s : Service)
  : (error + (list Notification.t * Z)) * Service :=
  match Count_notifications (unread_of userID) (database s) with
  | (inl e, c) => (inl (Errorf "failed to count notifications" e), with_database c s)
  | (inr total, c) =>
      match Find_notifications (unread_of userID) limit offset c with
      | (inl e, c) =>
          (inl (Errorf "failed to fetch notifications" e), with_database c s)
      | (inr notifications, c) => (inr (notifications, total), with_database c s)
      end
  end.

(** [MarkAllNotificationsAsRead] *)
Definition MarkAllNotificationsAsRead (userID : N) (s : Service)
  : option error * Service :=
  match Update_notifications_read userID (database s) with
  | (inl e, c) =>
      (Some (Errorf "failed to mark all notifications as read" e), with_database c s)
  | (inr _, c) => (None, with_database c s)
  end.

(** [cleanupOldNotifications]: [cutoff] is [time.Now().AddDate(0, 0, -30)];
    the outcome is only logged. *)
Definition cleanupOldNotifications (cutoff : Z) (s : Service) : Service :=
  with_database (snd (Delete_notifications_before cutoff (database s))) s.

(** A query parameter that holds a number: absent or empty, not a number,
    or a number. *)
Inductive param := Absent | Malformed | Number (n : N).

(** The pagination shared by the listing handlers: [page] and [limit] are
    what [strconv.Atoi] has returned, its error dropped. *)
Definition pagination (page limit : Z) : Z * Z * Z :=
  let page := if page <=? 0 then 1 else page in
  let limit := if (limit <=? 0) || (limit >? 100) then 20 else limit in
  (page, limit, int_wrap ((page - 1) * limit)).

(** [getNotifications] (API): the answer holds the rows, [total], [page]
    and [limit]; the error of the count is not looked at. *)
Definition getNotifications (user_id : param) (page limit : Z) (s : Service)
  : (HTTPError + (list Notification.t * Z * Z * Z)) * Service :=
  match user_id with
  | Absent => (inl (StatusBadRequest "User ID is required"), s)
  | Malformed => (inl (StatusBadRequest "Invalid user ID"), s)
  | Number userID =>
      let '(page, limit, offset) := pagination page limit in
      let '(counted, c) := Count_notifications (of_user userID) (database s) in
      let total := match counted with inr total => total | inl _ => 0 end in
      match Find_notifications (of_user userID) limit offset c with
      | (inl _, c) =>
          (inl (StatusInternalServerError "Failed to fetch notifications"),
           with_database c s)
      | (inr notifications, c) =>
          (inr (notifications, total, page, limit), with_database c s)
      end
  end.

(** [getUnreadNotifications] (API): the answer holds the rows, [total],
    [limit] and [offset]. *)
Definition getUnreadNotifications (user_id : param) (limit offset : Z) (s : Service)
  : (HTTPError + (list Notification.t * Z * Z * Z)) * Service :=
  match user_id with
  | Absent => (inl (StatusBadRequest "User ID is required"), s)
  | Malformed => (inl (StatusBadRequest "Invalid user ID"), s)
  | Number userID =>
      let limit := if (limit <=? 0) || (limit >? 100) then 20 else limit in
      let offset := if offset <? 0 then 0 else offset in
      match GetUnreadNotifications userID limit offset s with
      | (inl _, s) =>
          (inl (StatusInternalServerError "Failed to fetch unread notifications"), s)
      | (inr (notifications, total), s) =>
          (inr (notifications, total, limit, offset), s)
      end
  end.

(** [markAllAsRead] (API): [request] is the bound [user_id]. *)
Definition markAllAsRead (request : option N) (s : Service)
  : (HTTPError + unit) * Service :=
  match request with
  | None => (inl (StatusBadRequest "Invalid request body"), s)
  | Some UserID =>
      match MarkAllNotificationsAsRead UserID s with
      | (Some _, s) =>
          (inl (StatusInternalServerError "Failed to mark all notifications as read"), s)
      | (None, s) => (inr tt, s)
      end
  end.


End notification.

(** * Properties *)

(** ** The specification's side, as definitions *)

(** The percentage of a price change in the words of the specification:
    [(new - old) / old * 100] when [old != 0], else [0]. *)
Definition changePercent (old new : float) : float :=
  if negb (old =? 0)%float then ((new - old) / old * 100)%float else 0%float.

(** The price records owed to one incoming variant matched with its stored
    row: one record when the prices differ, none when they are equal. *)
Definition price_change (item : N) (stored incoming : Variant.t) : list PriceHistory.t :=
  if (Variant.Price stored =? Variant.Price incoming)%float then []
  else [PriceHistory.mk item (Variant.ID stored) (Variant.Price stored)
                        (Variant.Price incoming)
                        (changePercent (Variant.Price stored) (Variant.Price incoming))].

Definition stock_change (item : N) (stored incoming : Variant.t) : list StockHistory.t :=
  if Variant.StockCount stored =? Variant.StockCount incoming then []
  else [StockHistory.mk item (Variant.ID stored) (Variant.StockCount stored)
                        (Variant.StockCount incoming)
                        (int_wrap (Variant.StockCount incoming - Variant.StockCount stored))].

(** The records owed to a whole snapshot, variant by variant, against the
    stored variants indexed by external identifier. *)
Definition price_changes (item : N) (stored : gmap string Variant.t)
    (incoming : list Variant.t) : list PriceHistory.t :=
  flat_map (fun v => match stored !! Variant.ExternalID v with
                     | Some ev => price_change item ev v
                     | None => []
                     end) incoming.

Definition stock_changes (item : N) (stored : gmap string Variant.t)
    (incoming : list Variant.t) : list StockHistory.t :=
  flat_map (fun v => match stored !! Variant.ExternalID v with
                     | Some ev => stock_change item ev v
                     | None => []
                     end) incoming.

(** The incoming variants after reconciliation: a matched variant takes the
    identity of its stored row. *)
Definition adopt_identities (item : N) (stored : gmap string Variant.t)
    (incoming : list Variant.t) : list Variant.t :=
  (fun v => match stored !! Variant.ExternalID v with
            | Some ev => Variant.with_ids (Variant.ID ev) item v
            | None => v
            end) <$> incoming.

(** Tables with further history rows. *)
Definition add_histories (P : list PriceHistory.t) (S : list StockHistory.t)
    (d : db.Tables) : db.Tables :=
  db.mkTables (db.products d) (db.variants d) (db.price_histories d ++ P)
              (db.stock_histories d ++ S) (db.notifications d) (db.user_favorites d)
              (db.users d) (db.clock d).

(** The stored variants of an item, indexed as [saveProduct] indexes them. *)
Definition stored_variants (d : db.Tables) (item : N) : gmap string Variant.t :=
  crawler.variantMap (List.filter (fun v => N.eqb (Variant.ProductID v) item) (db.variants d)).

(** The stored item of an external identifier, if any. *)
Definition stored_item (d : db.Tables) (e : string) : option Product.t :=
  List.find (fun p => String.eqb (Product.ExternalID p) e) (db.products d).

(** The number of item rows of an external identifier. *)
Definition item_rows (d : db.Tables) (e : string) : nat :=
  length (List.filter (fun p => String.eqb (Product.ExternalID p) e) (db.products d)).

(** What [saveProduct] hands to [Save], and the records it stages, when its
    lookup has returned [found]. *)
Definition reconcile (d : db.Tables) (found : option Product.t) (product : Product.t)
  : Product.t * list PriceHistory.t * list StockHistory.t :=
  match found with
  | Some ep =>
      let m := stored_variants d (Product.ID ep) in
      (Product.with_Variants
         (adopt_identities (Product.ID ep) m (Product.Variants product))
         (Product.with_CreatedAt (Product.CreatedAt ep)
            (Product.with_ID (Product.ID ep) product)),
       price_changes (Product.ID ep) m (Product.Variants product),
       stock_changes (Product.ID ep) m (Product.Variants product))
  | None => (product, [], [])
  end.

(** [r] is the only row of the table with its external identifier or with
    its identity. *)
Definition sole_row (table : list Variant.t) (r : Variant.t) : Prop :=
  forall x, x ∈ table ->
    Variant.ExternalID x = Variant.ExternalID r \/ Variant.ID x = Variant.ID r -> x = r.

(** The errors by which [saveProduct] reports a statement it answers with a
    rollback. *)
Definition failed_step (e : error) : Prop :=
  exists msg cause,
    e = Errorf msg cause
    /\ msg ∈ ["failed to fetch existing variants"; "failed to create price history";
              "failed to create stock history"; "failed to save product"].


(** Every band of a priority table lies in [0, 10]. *)
Definition bands_valid (table : gmap string Z) : Prop :=
  forall id band, table !! id = Some band -> 0 <= band <= 10.

(** The invariant of the channel registry: a registered channel is open, an
    open channel is registered, no channel is registered for two users, and
    every channel has room for 100 messages.  Open channels and registered
    users are thus in one-to-one correspondence: a user has at most one open
    channel. *)
Definition channels_ok (s : notification.Service) : Prop :=
  (forall u ch, notification.userChannels s !! u = Some ch ->
     exists c, notification.channels s !! ch = Some c /\ notification.closed c = false)
  /\ (forall ch c, notification.channels s !! ch = Some c ->
        notification.closed c = false ->
        exists u, notification.userChannels s !! u = Some ch)
  /\ (forall u1 u2 ch, notification.userChannels s !! u1 = Some ch ->
        notification.userChannels s !! u2 = Some ch -> u1 = u2)
  /\ (forall ch c, notification.channels s !! ch = Some c ->
        notification.capacity c = 100%nat).

(** ** Further notions used in the statements *)

(** Product rows have distinct identities. *)
Definition product_ids_unique (d : db.Tables) : Prop :=
  NoDup (Product.ID <$> db.products d).

(** A product of external identifier [e] is stored. *)
Definition stored (d : db.Tables) (e : string) : Prop :=
  exists row, row ∈ db.products d /\ Product.ExternalID row = e.

(** No transaction is open on the connection. *)
Definition autocommit (c : db.Conn) : Prop := forall work, db.tx c <> db.TxOpen work.

(** Every variant row belongs to a stored product. *)
Definition variants_belong (d : db.Tables) : Prop :=
  Forall (fun v => Variant.ProductID v ∈ Product.ID <$> db.products d) (db.variants d).

(** The variant row [v] of the product [item] holds what the scraper read
    in [rv]. *)
Definition holds_variant (item : N) (v : Variant.t) (rv : scraper.variantResult) : Prop :=
  Variant.ExternalID v = scraper.variantID rv
  /\ Variant.Price v = scraper.Price rv
  /\ Variant.OriginalPrice v = scraper.OriginalPrice rv
  /\ Variant.StockCount v = scraper.StockCount rv
  /\ Variant.ProductID v = item
  /\ Variant.ID v <> 0%N.

(** What [publishProductUpdate] writes for the product built from [r]. *)
Definition announcement (topic : string) (r : scraper.result)
  : string * string * ProductUpdate.t :=
  (topic, scraper.ID r,
   ProductUpdate.mk (scraper.ID r) (scraper.Name r) (scraper.IsInStock r)).

(** What holds of a crawl that started from the messages [before]: every
    message added since names a stored product. *)
Definition announced_stored (ProductTopic : string)
    (before : list (string * string * ProductUpdate.t)) (w : crawler.Crawl) : Prop :=
  product_ids_unique (db.committed (crawler.database (crawler.service w)))
  /\ forall topic key update,
       (topic, key, update) ∈ messaging.written (crawler.kafka w) ->
       (topic, key, update) ∈ before
       \/ (topic = ProductTopic /\ ProductUpdate.ExternalID update = key
           /\ stored (db.committed (crawler.database (crawler.service w))) key).

(** The invariant of the discovery pass that started from the table
    [table] and the messages [before]. *)
Definition discovered (ProductTopic : string) (table : gmap string Z)
    (before : list (string * string * ProductUpdate.t)) (w : crawler.Crawl) : Prop :=
  announced_stored ProductTopic before w
  /\ autocommit (crawler.database (crawler.service w))
  /\ (forall id band, table !! id = Some band ->
        crawler.priorityList (crawler.service w) !! id = Some band)
  /\ (forall id band, crawler.priorityList (crawler.service w) !! id = Some band ->
        table !! id = Some band
        \/ (table !! id = None /\ band = 1
            /\ stored (db.committed (crawler.database (crawler.service w))) id)).

(** The band that the updates delivered in [reads] leave for [id], if any
    of them names it. *)
Definition latest_band (id : string) (reads : list (option (option (string * Z))))
  : option Z :=
  foldl (fun found read =>
           match read with
           | Some (Some (ProductID, Priority)) =>
               if String.eqb ProductID id then Some Priority else found
           | _ => found
           end) None reads.


(** The alert that [loadPriceAlerts] makes of a favorite. *)
Definition default_alert (f : UserFavorite.t) : analyzer.priceAlert :=
  analyzer.mkAlert (UserFavorite.UserID f) (UserFavorite.ProductID f) 0 10
                   analyzer.zeroTime.

(** The favorites of a product, in the order of the table. *)
Definition favorites_of (productID : N) (d : db.Tables) : list UserFavorite.t :=
  List.filter (fun f => N.eqb (UserFavorite.ProductID f) productID) (db.user_favorites d).

(** [a'] is the rule [a], notified at [now] or not at all since. *)
Definition same_rule (now : Z) (a' a : analyzer.priceAlert) : Prop :=
  analyzer.UserID a' = analyzer.UserID a
  /\ analyzer.ProductID a' = analyzer.ProductID a
  /\ analyzer.VariantID a' = analyzer.VariantID a
  /\ analyzer.DiscountPercent a' = analyzer.DiscountPercent a
  /\ (analyzer.LastNotification a' = analyzer.LastNotification a
      \/ analyzer.LastNotification a' = now).

(** The message [m] on [topic] tells of a stored price record of the
    product [externalID] that reaches the threshold of one of [alerts]. *)
Definition justified (topic : string) (d : db.Tables) (externalID : string)
    (alerts : N -> list analyzer.priceAlert) (m : string * string * PriceDrop.t) : Prop :=
  exists product alert history variant,
    product ∈ db.products d /\ Product.ExternalID product = externalID
    /\ alert ∈ alerts (Product.ID product)
    /\ history ∈ db.price_histories d
    /\ PriceHistory.ProductID history = Product.ID product
    /\ variant ∈ db.variants d /\ Variant.ID variant = PriceHistory.VariantID history
    /\ (PriceHistory.ChangePercent history <=? - analyzer.DiscountPercent alert)%float = true
    /\ m = (topic,
            analyzer.notificationKey (analyzer.UserID alert) (Product.ID product),
            PriceDrop.mk (analyzer.UserID alert) (Product.ID product) (Variant.ID variant)
                         (PriceHistory.PreviousPrice history)
                         (PriceHistory.NewPrice history)
                         (- PriceHistory.ChangePercent history)%float
                         (Product.Name product) (Product.URL product)).

(** What holds of the service [s] while [processProductUpdate] runs on the
    product [externalID], from the service [start] on the tables [tables]. *)
Definition matching (topic : string) (now : Z) (tables : db.Tables)
    (externalID : string) (start s : analyzer.Service) : Prop :=
  db.committed (analyzer.database s) = tables
  /\ db.tx (analyzer.database s) = db.NoTx
  /\ (forall id, Forall2 (same_rule now) (analyzer.alertsOf id s)
                                         (analyzer.alertsOf id start))
  /\ exists new,
       messaging.written (analyzer.kafka s)
       = messaging.written (analyzer.kafka start) ++ new
       /\ Forall (justified topic tables externalID
                            (fun id => analyzer.alertsOf id start)) new.

(** The entries that [getUserPriceAlerts] makes of the alerts of one
    product. *)
Definition listed_alerts (tables : db.Tables) (userID : N)
    (entry : N * list analyzer.priceAlert) : list (analyzer.priceAlert * string) :=
  match List.find (fun p => N.eqb (Product.ID p) (fst entry)) (db.products tables) with
  | Some product =>
      (fun alert => (alert, Product.Name product))
        <$> List.filter (fun alert => N.eqb (analyzer.UserID alert) userID) (snd entry)
  | None => []
  end.

(** The record [history] reaches the threshold of [alert] and names a stored
    variant. *)
Definition qualifies (tables : db.Tables) (alert : analyzer.priceAlert)
    (history : PriceHistory.t) : bool :=
  (PriceHistory.ChangePercent history <=? - analyzer.DiscountPercent alert)%float
  && bool_decide (is_Some (List.find (fun v => N.eqb (Variant.ID v)
                                                     (PriceHistory.VariantID history))
                                     (db.variants tables))).

(** The message that the matcher publishes for [alert] and [history]. *)
Definition price_drop (topic : string) (product : Product.t)
    (alert : analyzer.priceAlert) (history : PriceHistory.t)
  : string * string * PriceDrop.t :=
  (topic, analyzer.notificationKey (analyzer.UserID alert) (Product.ID product),
   PriceDrop.mk (analyzer.UserID alert) (Product.ID product)
                (PriceHistory.VariantID history)
                (PriceHistory.PreviousPrice history) (PriceHistory.NewPrice history)
                (- PriceHistory.ChangePercent history)%float
                (Product.Name product) (Product.URL product)).


(** The rows of an answer of a listing handler, none when it is an error. *)
Definition rows_of {S} (r : (HTTPError + (list Notification.t * Z * Z * Z)) * S)
  : list Notification.t :=
  match fst r with
  | inr (rows, _, _, _) => rows
  | inl _ => []
  end.

(** ** Sample data *)

(** Tables without any row. *)
Definition empty_tables : db.Tables := db.mkTables [] [] [] [] [] [] [] 77.

(** One stored item with two variants, priced 100.00 and 50.00, and two
    users. *)
Definition sample_tables : db.Tables :=
  db.mkTables
    [Product.mk 1 5 "p1" "Shoe" "https://shop.example/p1" true []]
    [Variant.mk 1 1 "v1" 100 120 5; Variant.mk 2 1 "v2" 50 50 3]
    [] [] [] [] [7%N; 8%N] 77.

(** A snapshot of that item: the first variant now costs 80.00 with the same
    stock, the second keeps its price and has sold two units, the third is
    new. *)
Definition sample_snapshot : Product.t :=
  Product.mk 0 0 "p1" "Shoe" "https://shop.example/p1" true
    [Variant.mk 0 0 "v1" 80 120 5; Variant.mk 0 0 "v2" 50 50 1;
     Variant.mk 0 0 "v3" 9 9 9].

(** A script under which the statements of [saveProduct] succeed up to the
    two inserts of change records, and [Save] fails. *)
Definition save_fails : list bool := [false; false; false; false; false; true].


(** The clock reading of the analyzer samples, and the tables they read: the
    sample item with its last price records, newest last. *)
Definition sample_now : Z := 500000 * Hour.

Definition one_drop : db.Tables :=
  db.with_price_histories [PriceHistory.mk 1 1 100 80 (-20)] sample_tables.

Definition two_drops : db.Tables :=
  db.with_price_histories
    [PriceHistory.mk 1 1 100 80 (-20); PriceHistory.mk 1 1 80 56 (-30)] sample_tables.

(** An analyzer with the given alerts on the sample item. *)
Definition sample_analyzer (d : db.Tables) (alerts : list analyzer.priceAlert)
  : analyzer.Service :=
  analyzer.mkService (db.connect d []) (messaging.mkKafka [] []) {[ 1%N := alerts ]} [].

(** A rule of user 7 on the sample item, threshold 15%, last notified [ago]
    before the sample clock reading. *)
Definition rule_15 (ago : Z) : analyzer.priceAlert :=
  analyzer.mkAlert 7 1 0 15 (sample_now - ago).

(** What one run of the matcher on the sample item writes to the broker. *)
Definition sample_run (d : db.Tables) (alerts : list analyzer.priceAlert)
  : list (string * string * PriceDrop.t) :=
  messaging.written
    (analyzer.kafka
       (snd (analyzer.processProductUpdate "user-notifications" sample_now "p1"
               (sample_analyzer d alerts)))).

(** A rendering of the notification text for the samples. *)
Definition sample_Sprintf (name : string) (new old percent : float) : string :=
  "Price drop alert: " +:+ name.

(** A notify-event for user 7. *)
Definition sample_event : PriceDrop.t :=
  PriceDrop.mk 7 1 1 100 80 20 "Shoe" "https://shop.example/p1".

(** User 7 connected, with 100 messages waiting on the channel. *)
Definition sample_full : notification.Service :=
  notification.mkService (db.connect empty_tables [])
    [notification.mkChan (replicate 100 "m") 100 false] {[ 7%N := 0%nat ]}.

(** What the scraper reads for the sample item, and for an item that is not
    stored. *)
Definition sample_result : scraper.result :=
  scraper.mkResult "p1" "Shoe" "https://shop.example/p1" true
    [scraper.mkVariantResult "v1" 80 120 5; scraper.mkVariantResult "v2" 50 50 1;
     scraper.mkVariantResult "v3" 9 9 9].

Definition new_result : scraper.result :=
  scraper.mkResult "p2" "Hat" "https://shop.example/p2" true
    [scraper.mkVariantResult "w1" 20 25 4].

(** A crawl on the given tables, with the given failures of the store,
    replies of the scraper and priority table; the broker fails no write. *)
Definition sample_crawl (d : db.Tables) (script : list bool)
    (details : list (option scraper.result)) (listings : list (option (list string)))
    (table : gmap string Z) : crawler.Crawl :=
  crawler.mkCrawl (crawler.mkService (db.connect d script) table [])
                  (messaging.mkKafka [] []) (scraper.mkScraper details listings).

(** The sample tables with user 7 having the sample item as a favorite. *)
Definition favorite_tables : db.Tables :=
  db.mkTables (db.products sample_tables) (db.variants sample_tables) [] [] []
              [UserFavorite.mk 7 1] [7%N; 8%N] 77.

(** Three notifications: two of user 7, the older one read, and one of user 8. *)
Definition sample_notifications : db.Tables :=
  db.with_notifications
    [Notification.mk 7 1 "first" true 10; Notification.mk 8 1 "other" false 20;
     Notification.mk 7 1 "second" false 30] empty_tables.


(** An analyzer on the sample tables that fail the fourth statement. *)
Definition failing_analyzer : analyzer.Service :=
  analyzer.mkService (db.connect sample_tables [false; false; false; true])
                     (messaging.mkKafka [] []) ∅ [].

(** A notification service on the three sample notifications, no user
    connected. *)
Definition sample_inbox : notification.Service :=
  notification.NewNotificationService (db.connect sample_notifications []).

(** ** Statements inside a transaction *)

Section transactions.
Import db crawler.

Lemma changePercent_calculatePercentageChange old new :
  calculatePercentageChange old new = changePercent old new.
Proof.
  unfold calculatePercentageChange, changePercent.
  by destruct (old =? 0)%float.
Qed.

Lemma add_histories_nil d : add_histories [] [] d = d.
Proof. destruct d. unfold add_histories. simpl. by rewrite !app_nil_r. Qed.

Lemma add_histories_add P1 S1 P2 S2 d :
  add_histories P2 S2 (add_histories P1 S1 d) = add_histories (P1 ++ P2) (S1 ++ S2) d.
Proof. unfold add_histories. simpl. by rewrite !app_assoc. Qed.

Lemma draw_frame c b c1 :
  draw c = (b, c1) -> committed c1 = committed c /\ tx c1 = tx c.
Proof.
  unfold draw. destruct (faults c); intros [= <- <-]; done.
Qed.

(** A statement run inside an open transaction leaves the committed tables
    alone, and the transaction open. *)
Lemma statement_open {A} (f : Tables -> error + (A * Tables)) c w r c' :
  tx c = TxOpen w ->
  statement f c = (r, c') ->
  committed c' = committed c /\
  ((exists e, r = inl e /\ tx c' = TxOpen w) \/
   (exists a w', r = inr a /\ f w = inr (a, w') /\ tx c' = TxOpen w')).
Proof.
  intros Hw. unfold statement.
  destruct (draw c) as [b c1] eqn:Hd.
  apply draw_frame in Hd as [Hc Ht]. rewrite Hw in Ht.
  destruct b.
  - intros [= <- <-]. split; [done|]. left. eauto.
  - unfold current. rewrite Ht.
    destruct (f w) as [e|[a w']] eqn:Hf.
    + intros [= <- <-]. split; [done|]. left. eauto.
    + intros [= <- <-]. unfold put. rewrite Ht. simpl.
      split; [done|]. right. eauto.
Qed.

Lemma or_rollback_open {A} msg (f : Tables -> error + (A * Tables)) c w r c' :
  tx c = TxOpen w ->
  or_rollback msg (statement f) c = (r, c') ->
  committed c' = committed c /\
  ((exists e, r = inl (Errorf msg e) /\ tx c' = TxRolledBack) \/
   (exists a w', r = inr a /\ f w = inr (a, w') /\ tx c' = TxOpen w')).
Proof.
  intros Hw. unfold or_rollback.
  destruct (statement f c) as [r0 c0] eqn:Hs.
  destruct (statement_open f c w r0 c0 Hw Hs) as [Hc [(e & -> & Ht)|(a & w' & -> & Hf & Ht)]].
  - intros [= <- <-]. unfold Rollback. rewrite Ht. simpl. split; [done|]. left. eauto.
  - intros [= <- <-]. split; [done|]. right. eauto.
Qed.

Lemma failed_step_intro msg cause :
  msg ∈ ["failed to fetch existing variants"; "failed to create price history";
         "failed to create stock history"; "failed to save product"] ->
  failed_step (Errorf msg cause).
Proof. intros H. by exists msg, cause. Qed.

Lemma bind_inv {A B} (m : M A) (k : A -> M B) c r c' :
  bind m k c = (r, c') ->
  (exists e, m c = (inl e, c') /\ r = inl e) \/
  (exists a c1, m c = (inr a, c1) /\ k a c1 = (r, c')).
Proof.
  unfold bind. destruct (m c) as [[e|a] c1].
  - intros [= <- <-]. left. eauto.
  - intros H. right. eauto.
Qed.

(** The two conditional inserts of the loop. *)
Lemma price_record_open ep ev v c w r c' :
  tx c = TxOpen w ->
  (if negb (Variant.Price ev =? Variant.Price v)%float
   then or_rollback "failed to create price history"
          (Create_price_history
             (PriceHistory.mk (Product.ID ep) (Variant.ID ev) (Variant.Price ev)
                (Variant.Price v)
                (calculatePercentageChange (Variant.Price ev) (Variant.Price v))))
   else ret tt) c = (r, c') ->
  committed c' = committed c /\
  ((exists e, r = inl e /\ failed_step e /\ tx c' = TxRolledBack) \/
   (r = inr tt /\
    tx c' = TxOpen (add_histories (price_change (Product.ID ep) ev v) [] w))).
Proof.
  intros Hw. unfold price_change.
  destruct (Variant.Price ev =? Variant.Price v)%float; simpl.
  - intros [= <- <-]. split; [done|]. right. by rewrite add_histories_nil.
  - intros H.
    apply (or_rollback_open _ _ _ w) in H
      as [? [(e & -> & ?)|(a & w' & -> & Hf & Ht)]]; [| |done].
    + split; [done|]. left. eexists. split; [done|]. split; [|done].
      apply failed_step_intro. repeat constructor.
    + split; [done|]. right. destruct a. split; [done|].
      injection Hf as <-. rewrite Ht. f_equal.
      unfold add_histories, with_price_histories. simpl.
      by rewrite app_nil_r, changePercent_calculatePercentageChange.
Qed.

Lemma stock_record_open ep ev v c w r c' :
  tx c = TxOpen w ->
  (if negb (Variant.StockCount ev =? Variant.StockCount v)
   then or_rollback "failed to create stock history"
          (Create_stock_history
             (StockHistory.mk (Product.ID ep) (Variant.ID ev) (Variant.StockCount ev)
                (Variant.StockCount v)
                (int_wrap (Variant.StockCount v - Variant.StockCount ev))))
   else ret tt) c = (r, c') ->
  committed c' = committed c /\
  ((exists e, r = inl e /\ failed_step e /\ tx c' = TxRolledBack) \/
   (r = inr tt /\
    tx c' = TxOpen (add_histories [] (stock_change (Product.ID ep) ev v) w))).
Proof.
  intros Hw. unfold stock_change.
  destruct (Variant.StockCount ev =? Variant.StockCount v); simpl.
  - intros [= <- <-]. split; [done|]. right. by rewrite add_histories_nil.
  - intros H.
    apply (or_rollback_open _ _ _ w) in H
      as [? [(e & -> & ?)|(a & w' & -> & Hf & Ht)]]; [| |done].
    + split; [done|]. left. eexists. split; [done|]. split; [|done].
      apply failed_step_intro. repeat constructor.
    + split; [done|]. right. destruct a. split; [done|].
      injection Hf as <-. rewrite Ht. f_equal.
      unfold add_histories, with_stock_histories. simpl.
      by rewrite app_nil_r.
Qed.

(** The loop of [saveProduct], whatever statements fail: either it has
    rolled the transaction back, or it has staged exactly the records owed
    to the snapshot. *)
Lemma compareVariants_open ep m vs : forall c w r c',
  tx c = TxOpen w ->
  compareVariants ep m vs c = (r, c') ->
  committed c' = committed c /\
  ((exists e, r = inl e /\ failed_step e /\ tx c' = TxRolledBack) \/
   (r = inr (adopt_identities (Product.ID ep) m vs) /\
    tx c' = TxOpen (add_histories (price_changes (Product.ID ep) m vs)
                                  (stock_changes (Product.ID ep) m vs) w))).
Proof.
  induction vs as [|v vs IH]; intros c w r c' Hw; simpl.
  - intros [= <- <-]. split; [done|]. right. by rewrite add_histories_nil.
  - unfold adopt_identities, price_changes, stock_changes. simpl.
    destruct (m !! Variant.ExternalID v) as [ev|] eqn:Hm.
    + intros H.
      apply bind_inv in H as [(e & H1 & ->)|([] & c1 & H1 & H)].
      { apply (price_record_open _ _ _ _ w) in H1
          as [? [(? & [= <-] & ? & ?)|[[=] _]]]; [|done].
        split; [done|]. left. eauto. }
      apply (price_record_open _ _ _ _ w) in H1 as [Hc1 [(? & [=] & _)|[_ Ht1]]]; [|done].
      apply bind_inv in H as [(e & H2 & ->)|([] & c2 & H2 & H)].
      { destruct (stock_record_open _ _ _ _ _ _ _ Ht1 H2)
          as [? [(? & [= <-] & ? & ?)|[[=] _]]].
        split; [congruence|]. left. eauto. }
      destruct (stock_record_open _ _ _ _ _ _ _ Ht1 H2) as [Hc2 [(? & [=] & _)|[_ Ht2]]].
      rewrite add_histories_add in Ht2. simpl in Ht2. rewrite app_nil_r in Ht2.
      apply bind_inv in H as [(e & H3 & ->)|(vs' & c3 & H3 & H)].
      { apply (IH _ _ _ _ Ht2) in H3 as [? [(? & [= <-] & ? & ?)|[[=] _]]].
        split; [congruence|]. left. eauto. }
      apply (IH _ _ _ _ Ht2) in H3 as [Hc3 [(? & [=] & _)|[[= ->] Ht3]]].
      injection H as <- <-. split; [congruence|]. right. split; [done|].
      rewrite Ht3. f_equal. by rewrite add_histories_add.
    + intros H.
      apply bind_inv in H as [(e & H3 & ->)|(vs' & c3 & H3 & H)].
      { apply (IH _ _ _ _ Hw) in H3 as [? [(? & [= <-] & ? & ?)|[[=] _]]].
        split; [done|]. left. eauto. }
      apply (IH _ _ _ _ Hw) in H3 as [Hc3 [(? & [=] & _)|[[= ->] Ht3]]].
      injection H as <- <-. split; [done|]. by right.
Qed.

Lemma Begin_inv c r c1 :
  Begin c = (r, c1) ->
  committed c1 = committed c /\
  ((r = inl ErrStatement /\ tx c1 = tx c) \/
   (r = inr tt /\ tx c1 = TxOpen (committed c))).
Proof.
  unfold Begin. destruct (draw c) as [b c0] eqn:Hd.
  apply draw_frame in Hd as [Hc Ht].
  destruct b; intros [= <- <-]; simpl.
  - split; [done|]. by left.
  - split; [done|]. right. by rewrite Hc.
Qed.

Lemma Commit_open c w r c' :
  tx c = TxOpen w ->
  Commit c = (r, c') ->
  (r = inl ErrStatement /\ committed c' = committed c /\ tx c' = TxAborted) \/
  (r = inr tt /\ committed c' = w /\ tx c' = TxCommitted).
Proof.
  intros Hw. unfold Commit. destruct (draw c) as [b c0] eqn:Hd.
  apply draw_frame in Hd as [Hc Ht]. rewrite Ht, Hw.
  destruct b; intros [= <- <-]; simpl.
  - by left.
  - by right.
Qed.

Lemma upsert_add_histories p P S d :
  upsert p (add_histories P S d) =
  match upsert p d with
  | inl e => inl e
  | inr (u, d') => inr (u, add_histories P S d')
  end.
Proof.
  unfold upsert. simpl.
  destruct (upsert_product _ _ _) as [e|[pid prows]]; [done|].
  by destruct (upsert_variants _ _ _).
Qed.

(** Every way [saveProduct] can end.  An error leaves the committed tables
    as they were, with the transaction rolled back (or never begun, or
    refused at commit); success commits the staged records together with
    the upsert of the reconciled snapshot. *)
Lemma saveProduct_inv product c r c' :
  saveProduct product c = (r, c') ->
  (exists e, r = inl e /\ committed c' = committed c /\
             ((failed_step e /\ tx c' = TxRolledBack) \/
              (e = ErrStatement /\ tx c' = tx c) \/
              (e = Errorf "failed to commit transaction" ErrStatement /\
               tx c' = TxAborted))) \/
  (r = inr tt /\ tx c' = TxCommitted /\
   exists found,
     (found = stored_item (committed c) (Product.ExternalID product) \/ found = None) /\
     let '(p, Ph, Sh) := reconcile (committed c) found product in
     exists d', upsert p (committed c) = inr (tt, d') /\
                committed c' = add_histories Ph Sh d').
Proof.
  unfold saveProduct. intros H.
  apply bind_inv in H as [(e & H0 & ->)|([] & c1 & H0 & H)].
  { apply Begin_inv in H0 as [Hc1 [[[= ->] Ht1]|[[=] _]]]. left. eauto 10. }
  apply Begin_inv in H0 as [Hc1 [[[=] _]|[_ Ht1]]].
  apply bind_inv in H as [(e & H1 & _)|(result & c2 & H1 & H)];
    unfold result_of in H1;
    destruct (First_product_by_external_id _ c1) as [r1 c2'] eqn:HF; [done|].
  injection H1 as <- <-.
  apply (statement_open _ _ _ _ _ Ht1) in HF as [Hc2 HF].
  assert (tx c2' = TxOpen (committed c)) as Ht2
    by (destruct HF as [(? & _ & ?)|(a & w' & _ & Hf & ?)]; [done|];
        destruct (List.find _ _); by simplify_eq).
  assert (exists found Ph Sh p c3,
             (found = stored_item (committed c) (Product.ExternalID product) \/ found = None) /\
             reconcile (committed c) found product = (p, Ph, Sh) /\
             committed c3 = committed c /\
             ((exists e, r = inl e /\ c' = c3 /\ failed_step e /\ tx c3 = TxRolledBack) \/
              (tx c3 = TxOpen (add_histories Ph Sh (committed c)) /\
               bind (or_rollback "failed to save product" (Save p))
                    (fun _ => bind (or_return "failed to commit transaction" Commit)
                                   (fun _ => ret tt)) c3 = (r, c'))))
    as (found & Ph & Sh & p & c3 & Hfound & Hrec & Hc3 & Hrest).
  { destruct r1 as [e1|ep].
    - exists None, [], [], product, c2'. split; [by right|]. split; [done|].
      split; [congruence|]. right. rewrite add_histories_nil.
      split; [done|]. apply bind_inv in H as [(? & [=] & _)|(a & ? & [= <- <-] & H)]. done.
    - destruct HF as [(? & [=] & _)|(a & w' & [= <-] & Hf & _)].
      fold (stored_item (committed c) (Product.ExternalID product)) in Hf.
      destruct (stored_item _ _) as [ep'|] eqn:Hsi; [|done]. injection Hf as -> <-.
      exists (Some ep). simpl.
      apply bind_inv in H as [(e & H2 & ->)|(p' & c3 & H2 & H)].
      + do 3 eexists. exists c'. split; [by left|]. split; [done|].
        apply bind_inv in H2 as [(e' & H2 & [= <-])|(evs & c4 & H2 & H3)].
        * apply (or_rollback_open _ _ _ _ _ _ Ht2) in H2
            as [? [(? & [= ->] & ?)|(? & ? & [=] & _)]].
          split; [congruence|]. left. eexists. split; [done|]. split; [done|].
          split; [|done]. apply failed_step_intro. repeat constructor.
        * apply (or_rollback_open _ _ _ _ _ _ Ht2) in H2
            as [Hc4 [(? & [=] & _)|(? & ? & [= <-] & [= <- <-] & Ht4)]].
          apply bind_inv in H3 as [(e' & H3 & [= <-])|(? & ? & _ & [=])].
          apply (compareVariants_open _ _ _ _ _ _ _ Ht4) in H3
            as [? [(? & [= <-] & ? & ?)|[[=] _]]].
          split; [congruence|]. left. eauto.
      + apply bind_inv in H2 as [(? & _ & [=])|(evs & c4 & H2 & H3)].
        apply (or_rollback_open _ _ _ _ _ _ Ht2) in H2
          as [Hc4 [(? & [=] & _)|(? & ? & [= <-] & [= <- <-] & Ht4)]].
        apply bind_inv in H3 as [(? & _ & [=])|(vs' & c5 & H3 & [= <- <-])].
        apply (compareVariants_open _ _ _ _ _ _ _ Ht4) in H3
          as [Hc5 [(? & [=] & _)|[[= ->] Ht5]]].
        do 3 eexists. exists c5. split; [by left|]. split; [done|].
        split; [congruence|]. right. done. }
  destruct Hrest as [(e & -> & -> & Hstep & Ht3)|[Ht3 Hrest]].
  { left. exists e. eauto. }
  clear H. apply bind_inv in Hrest as [(e & H4 & ->)|([] & c4 & H4 & H)].
  { apply (or_rollback_open _ _ _ _ _ _ Ht3) in H4
      as [Hc4 [(? & [= ->] & Ht4)|(? & ? & [=] & _)]].
    left. eexists. split; [done|]. split; [congruence|]. left. split; [|done].
    apply failed_step_intro. repeat constructor. }
  apply (or_rollback_open _ _ _ _ _ _ Ht3) in H4
    as [Hc4 [(? & [=] & _)|(? & w4 & _ & Hup & Ht4)]].
  rewrite upsert_add_histories in Hup.
  destruct (upsert p (committed c)) as [?|[[] d']] eqn:Hup'; [done|].
  injection Hup as <-.
  apply bind_inv in H as [(e & H5 & ->)|([] & c5 & H5 & [= <- <-])];
    unfold or_return in H5;
    destruct (Commit c4) as [r5 c5'] eqn:HC;
    apply (Commit_open _ _ _ _ Ht4) in HC as [(-> & Hc5 & Ht5)|(-> & Hc5 & Ht5)];
    simplify_eq.
  - left. eexists. split; [done|]. split; [congruence|]. eauto.
  - right. split; [done|]. split; [done|].
    exists found. split; [done|]. rewrite Hrec. eauto.
Qed.

Lemma upsert_histories p d u d' :
  upsert p d = inr (u, d') ->
  price_histories d' = price_histories d /\ stock_histories d' = stock_histories d.
Proof.
  unfold upsert.
  destruct (upsert_product _ _ _) as [e|[pid prows]]; [done|].
  destruct (upsert_variants _ _ _); [done|]. by intros [= _ <-].
Qed.

Lemma upsert_product_row now p rows pid rows' :
  upsert_product now p rows = inr (pid, rows') ->
  exists row, row ∈ rows' /\ Product.ExternalID row = Product.ExternalID p.
Proof.
  unfold upsert_product.
  set (row := Product.with_Variants [] _).
  assert (Product.ExternalID row = Product.ExternalID p) as Hrow
    by (unfold row; by destruct (Product.CreatedAt p =? 0)).
  destruct (Product.ID p =? 0)%N eqn:Hid.
  - destruct (existsb _ rows); [done|]. intros [= _ <-].
    eexists. split; [apply elem_of_app; right; apply list_elem_of_singleton; done|done].
  - destruct (existsb _ rows); [done|].
    destruct (existsb (fun r => (Product.ID r =? Product.ID p)%N) rows) eqn:Hex.
    + intros [= _ <-]. apply existsb_exists in Hex as (r & Hr & Heq).
      exists row. split; [|done]. apply list_elem_of_fmap. exists r.
      rewrite Heq. split; [done|]. by apply list_elem_of_In.
    + intros [= _ <-]. exists row. split; [|done].
      apply elem_of_app. right. by apply list_elem_of_singleton.
Qed.

(** An item without identity cannot be saved over a stored item of the same
    external identifier. *)
Lemma upsert_unidentified_known p d ep :
  Product.ID p = 0%N ->
  stored_item d (Product.ExternalID p) = Some ep ->
  upsert p d = inl ErrDuplicateKey.
Proof.
  intros Hid Hs. unfold upsert, upsert_product. rewrite Hid. simpl.
  apply find_some in Hs as [Hin Heq].
  assert (existsb (fun r => String.eqb (Product.ExternalID r) (Product.ExternalID p))
                  (products d) = true) as ->; [|done].
  apply existsb_exists. eauto.
Qed.

End transactions.

(** ** Reconciliation: the change records (C1) and atomicity (C2) *)

(** C1. When an incoming snapshot is reconciled against a stored item, the
    price records added are, for every incoming variant whose external
    identifier matches a stored variant, exactly one record when the prices
    differ, carrying the stored price, the incoming price and the percentage
    [(new - old) / old * 100], or [0] when the stored price is [0], and no
    record when the prices are equal; likewise an unchanged stock count adds
    no stock record.  A stored price of 100.00 and an incoming price of 80.00
    give the single record (100.00, 80.00, -20.0). *)
Theorem saveProduct_change_records (product existing : Product.t) (c c' : db.Conn) :
  Product.ID product = 0%N ->
  stored_item (db.observable c) (Product.ExternalID product) = Some existing ->
  crawler.saveProduct product c = (inr tt, c') ->
  let item := Product.ID existing in
  let stored := stored_variants (db.observable c) item in
  db.price_histories (db.observable c')
    = db.price_histories (db.observable c)
        ++ price_changes item stored (Product.Variants product)
  /\ db.stock_histories (db.observable c')
      = db.stock_histories (db.observable c)
          ++ stock_changes item stored (Product.Variants product)
  /\ (forall ev v,
        (Variant.Price ev =? Variant.Price v)%float = false ->
        price_change item ev v
        = [PriceHistory.mk item (Variant.ID ev) (Variant.Price ev) (Variant.Price v)
             (if (Variant.Price ev =? 0)%float then 0%float
              else ((Variant.Price v - Variant.Price ev) / Variant.Price ev * 100)%float)])
  /\ (forall ev v,
        (Variant.Price ev =? Variant.Price v)%float = true -> price_change item ev v = [])
  /\ (forall ev v,
        Variant.StockCount ev = Variant.StockCount v -> stock_change item ev v = [])
  /\ (forall ev v,
        Variant.Price ev = 100%float -> Variant.Price v = 80%float ->
        price_change item ev v = [PriceHistory.mk item (Variant.ID ev) 100 80 (-20)]).
Proof.
  intros Hid Hstored Hsave item stored. unfold db.observable in *.
  apply saveProduct_inv in Hsave as [(e & [=] & _)|(_ & _ & found & Hfound & Hrec)].
  destruct Hfound as [->| ->]; [rewrite Hstored in Hrec|]; simpl in Hrec;
    destruct Hrec as (d' & Hup & ->);
    [|by rewrite (upsert_unidentified_known _ _ _ Hid Hstored) in Hup].
  apply upsert_histories in Hup as [Hp Hs]. simpl. rewrite Hp, Hs.
  repeat split.
  - intros ev v Hne. unfold price_change, changePercent. rewrite Hne.
    by destruct (Variant.Price ev =? 0)%float.
  - intros ev v Heq. unfold price_change. by rewrite Heq.
  - intros ev v Heq. unfold stock_change. by rewrite Heq, Z.eqb_refl.
  - intros ev v Hev Hv. unfold price_change, changePercent. by rewrite Hev, Hv.
Qed.

(** The sample snapshot against the sample tables: one price record, for the
    first variant, and one stock record, for the second. *)
Lemma saveProduct_change_records_witness :
  db.price_histories
    (db.observable (snd (crawler.saveProduct sample_snapshot (db.connect sample_tables []))))
  = [PriceHistory.mk 1 1 100 80 (-20)]
  /\ db.stock_histories
      (db.observable (snd (crawler.saveProduct sample_snapshot (db.connect sample_tables []))))
    = [StockHistory.mk 1 2 3 1 (-2)].
Proof.
  destruct (saveProduct_change_records sample_snapshot
              (Product.mk 1 5 "p1" "Shoe" "https://shop.example/p1" true [])
              (db.connect sample_tables [])
              (snd (crawler.saveProduct sample_snapshot (db.connect sample_tables []))))
    as (Hp & Hs & _).
  - reflexivity.
  - reflexivity.
  - vm_compute. reflexivity.
  - rewrite Hp, Hs. split; vm_compute; reflexivity.
Defined.




(** ** Reconciling an item never seen before, twice (C8) *)

Section new_item.
Import db crawler.

Lemma fresh_id_gt ids x : x ∈ ids -> (x < fresh_id ids)%N.
Proof.
  unfold fresh_id. induction ids as [|y ids IH]; [by intros ?%elem_of_nil|].
  intros [->|Hin]%elem_of_cons; simpl; [lia|]. specialize (IH Hin). lia.
Qed.

Lemma fresh_id_nonzero ids : fresh_id ids <> 0%N.
Proof. unfold fresh_id. lia. Qed.

Lemma existsb_false_elem {A} (f : A -> bool) l x :
  existsb f l = false -> x ∈ l -> f x = false.
Proof.
  intros Hex Hin. destruct (f x) eqn:Hf; [|done].
  assert (existsb f l = true) as Ht; [|congruence].
  apply existsb_exists. exists x. split; [by apply list_elem_of_In|done].
Qed.

(** Rows without identity are appended under fresh identities, and each is
    then the only row with its external identifier. *)
Lemma upsert_variants_new pid vs : forall rows rows',
  Forall (fun v => Variant.ID v = 0%N) vs ->
  upsert_variants pid vs rows = inr rows' ->
  exists ins,
    rows' = rows ++ ins
    /\ Forall2 (fun r v => r = Variant.with_ids (Variant.ID r) pid v) ins vs
    /\ Forall (fun r => Variant.ID r <> 0%N /\ sole_row (rows ++ ins) r) ins.
Proof.
  induction vs as [|v vs IH]; intros rows rows' Hids; simpl.
  - intros [= <-]. exists []. rewrite app_nil_r. by repeat constructor.
  - apply Forall_cons in Hids as [Hid Hids].
    unfold upsert_variant. simpl. rewrite Hid. simpl.
    destruct (existsb _ rows) eqn:Hex; [done|].
    set (r := Variant.with_ids (fresh_id (Variant.ID <$> rows)) pid _).
    intros Hrest. apply IH in Hrest as (ins & -> & Htwin & Hsole); [|done].
    exists (r :: ins). rewrite <- app_assoc. simpl.
    split; [done|]. split; [by constructor|].
    rewrite <- app_assoc in Hsole. simpl in Hsole.
    constructor; [|done]. split; [apply fresh_id_nonzero|].
    intros x [Hx|[->|Hx]%elem_of_cons]%elem_of_app Heq; [|done|].
    + exfalso. destruct Heq as [Heq|Heq].
      * apply (existsb_false_elem _ _ x) in Hex; [|done]. simpl in Hex.
        apply String.eqb_neq in Hex. done.
      * assert (Variant.ID x ∈ Variant.ID <$> rows) as Hin
          by (apply list_elem_of_fmap; eauto).
        apply fresh_id_gt in Hin. simpl in Heq. lia.
    + rewrite Forall_forall in Hsole. destruct (Hsole x Hx) as [_ Hsx].
      symmetry. apply Hsx.
      * apply elem_of_app. right. by left.
      * destruct Heq as [->| ->]; auto.
Qed.

Lemma variantMap_snoc l x :
  variantMap (l ++ [x]) = <[Variant.ExternalID x := x]> (variantMap l).
Proof. unfold variantMap. by rewrite foldl_app. Qed.

(** The index finds a row that is alone with its external identifier. *)
Lemma variantMap_sole l r :
  r ∈ l ->
  (forall x, x ∈ l -> Variant.ExternalID x = Variant.ExternalID r -> x = r) ->
  variantMap l !! Variant.ExternalID r = Some r.
Proof.
  induction l as [|x l IH] using rev_ind; [by intros ?%elem_of_nil|].
  intros Hin Hsole. rewrite variantMap_snoc.
  destruct (decide (Variant.ExternalID x = Variant.ExternalID r)) as [Heq|Hne].
  - rewrite Heq, lookup_insert_eq. f_equal. apply Hsole; [|done].
    apply elem_of_app. right. by apply list_elem_of_singleton.
  - rewrite lookup_insert_ne by done. apply IH.
    + apply elem_of_app in Hin as [?|Hx%list_elem_of_singleton]; [done|]. by subst.
    + intros y Hy. apply Hsole. apply elem_of_app. by left.
Qed.

(** *** Runs without injected failures *)

Lemma statement_no_faults {A} (f : Tables -> error + (A * Tables)) d w :
  statement f (mkConn d (TxOpen w) [])
  = match f w with
    | inl e => (inl e, mkConn d (TxOpen w) [])
    | inr (a, w') => (inr a, mkConn d (TxOpen w') [])
    end.
Proof. unfold statement, draw, current, put. simpl. by destruct (f w) as [|[]]. Qed.

Lemma Create_price_history_no_faults h d w :
  Create_price_history h (mkConn d (TxOpen w) [])
  = (inr tt, mkConn d (TxOpen (add_histories [h] [] w)) []).
Proof.
  unfold Create_price_history, statement, add_histories, with_price_histories. simpl.
  by rewrite app_nil_r.
Qed.

Lemma Create_stock_history_no_faults h d w :
  Create_stock_history h (mkConn d (TxOpen w) [])
  = (inr tt, mkConn d (TxOpen (add_histories [] [h] w)) []).
Proof.
  unfold Create_stock_history, statement, add_histories, with_stock_histories. simpl.
  by rewrite app_nil_r.
Qed.

Lemma compareVariants_no_faults ep m vs : forall d w,
  compareVariants ep m vs (mkConn d (TxOpen w) [])
  = (inr (adopt_identities (Product.ID ep) m vs),
     mkConn d (TxOpen (add_histories (price_changes (Product.ID ep) m vs)
                                     (stock_changes (Product.ID ep) m vs) w)) []).
Proof.
  induction vs as [|v vs IH]; intros d w.
  - simpl. unfold ret. by rewrite add_histories_nil.
  - unfold adopt_identities, price_changes, stock_changes. simpl.
    destruct (m !! Variant.ExternalID v) as [ev|] eqn:Hm.
    + unfold bind at 1. unfold price_change.
      assert (exists P,
        (if negb (Variant.Price ev =? Variant.Price v)%float
         then or_rollback "failed to create price history"
                (Create_price_history
                   (PriceHistory.mk (Product.ID ep) (Variant.ID ev) (Variant.Price ev)
                      (Variant.Price v)
                      (calculatePercentageChange (Variant.Price ev) (Variant.Price v))))
         else ret tt) (mkConn d (TxOpen w) [])
        = (inr tt, mkConn d (TxOpen (add_histories P [] w)) [])
        /\ P = price_change (Product.ID ep) ev v) as (P & -> & HP).
      { unfold price_change. destruct (Variant.Price ev =? Variant.Price v)%float; simpl.
        - exists []. by rewrite add_histories_nil.
        - eexists. unfold or_rollback. rewrite Create_price_history_no_faults.
          split; [done|]. by rewrite changePercent_calculatePercentageChange. }
      unfold bind at 1.
      assert (exists S0,
        (if negb (Variant.StockCount ev =? Variant.StockCount v)
         then or_rollback "failed to create stock history"
                (Create_stock_history
                   (StockHistory.mk (Product.ID ep) (Variant.ID ev) (Variant.StockCount ev)
                      (Variant.StockCount v)
                      (int_wrap (Variant.StockCount v - Variant.StockCount ev))))
         else ret tt) (mkConn d (TxOpen (add_histories P [] w)) [])
        = (inr tt, mkConn d (TxOpen (add_histories P S0 w)) [])
        /\ S0 = stock_change (Product.ID ep) ev v) as (S0 & -> & HS).
      { unfold stock_change. destruct (Variant.StockCount ev =? Variant.StockCount v); simpl.
        - by exists [].
        - eexists. unfold or_rollback. rewrite Create_stock_history_no_faults.
          split; [|done]. rewrite add_histories_add. simpl. by rewrite app_nil_r. }
      unfold bind at 1. rewrite IH. unfold ret.
      rewrite add_histories_add. by subst.
    + unfold bind at 1. by rewrite IH.
Qed.

(** Without injected failures [saveProduct] fails only when the store refuses
    the upsert. *)
Lemma saveProduct_no_faults product d t :
  saveProduct product (mkConn d t [])
  = let '(p, Ph, Sh) := reconcile d (stored_item d (Product.ExternalID product)) product in
    match upsert p d with
    | inr (_, d') => (inr tt, mkConn (add_histories Ph Sh d') TxCommitted [])
    | inl e => (inl (Errorf "failed to save product" e), mkConn d TxRolledBack [])
    end.
Proof.
  unfold saveProduct, bind at 1, Begin, draw. simpl.
  unfold bind at 1, result_of, First_product_by_external_id.
  rewrite statement_no_faults.
  fold (stored_item d (Product.ExternalID product)).
  destruct (stored_item d (Product.ExternalID product)) as [ep|]; simpl.
  - unfold bind at 1, bind at 1, or_rollback, Find_variants_by_product_id.
    rewrite statement_no_faults.
    unfold bind at 1. rewrite compareVariants_no_faults. unfold ret.
    fold (stored_variants d (Product.ID ep)).
    unfold bind at 1, or_rollback, Save. rewrite statement_no_faults.
    rewrite upsert_add_histories.
    destruct (upsert _ d) as [e|[[] d']]; [done|]. done.
  - unfold bind at 1, ret, bind at 1, or_rollback, Save.
    rewrite statement_no_faults.
    destruct (upsert product d) as [e|[[] d']]; [done|].
    simpl. by rewrite add_histories_nil.
Qed.

(** *** The second reconciliation *)

(** Saving again the rows that are already stored changes nothing. *)
Lemma upsert_variants_same pid ins table :
  Forall (fun r => Variant.ID r <> 0%N /\ Variant.ProductID r = pid
                   /\ r ∈ table /\ sole_row table r) ins ->
  upsert_variants pid ins table = inr table.
Proof.
  induction ins as [|r ins IH]; [done|].
  intros [(Hid & Hpid & Hin & Hsole) Hrest]%Forall_cons. simpl.
  assert (Variant.with_ids (Variant.ID r) pid r = r) as ->
    by (destruct r; simpl in *; by subst).
  unfold upsert_variant.
  apply N.eqb_neq in Hid as ->.
  assert (existsb (fun x => String.eqb (Variant.ExternalID x) (Variant.ExternalID r)
                            && negb (N.eqb (Variant.ID x) (Variant.ID r))) table = false)
    as ->.
  { apply not_true_is_false. intros (x & Hx & Hb)%existsb_exists.
    apply andb_prop in Hb as [He Hn]. apply String.eqb_eq in He.
    rewrite (Hsole x) in Hn; [|by apply list_elem_of_In|by left].
    by rewrite N.eqb_refl in Hn. }
  assert (existsb (fun x => N.eqb (Variant.ID x) (Variant.ID r)) table = true) as ->.
  { apply existsb_exists. exists r. split; [by apply list_elem_of_In|apply N.eqb_refl]. }
  assert ((fun x => if N.eqb (Variant.ID x) (Variant.ID r) then r else x) <$> table = table)
    as ->; [|by apply IH].
  rewrite <- (list_fmap_id table) at 2. apply list_fmap_ext.
  intros i x Hx. destruct (N.eqb_spec (Variant.ID x) (Variant.ID r)) as [Heq|]; [|done].
  symmetry. apply Hsole; [|by right]. by apply list_elem_of_lookup_2 in Hx.
Qed.

(** A snapshot diffed against the rows it was stored as: every variant finds
    its own row, and no record is owed. *)
Lemma diff_against_itself pid m ins vs :
  Forall2 (fun r v => r = Variant.with_ids (Variant.ID r) pid v
                      /\ m !! Variant.ExternalID v = Some r
                      /\ is_nan (Variant.Price v) = false) ins vs ->
  adopt_identities pid m vs = ins
  /\ price_changes pid m vs = [] /\ stock_changes pid m vs = [].
Proof.
  unfold adopt_identities, price_changes, stock_changes.
  induction 1 as [|r v ins vs (Hr & Hm & Hnan) _ (IH1 & IH2 & IH3)]; [done|].
  rewrite fmap_cons. cbn [flat_map]. rewrite Hm, IH1, IH2, IH3.
  unfold price_change, stock_change. rewrite Hr. simpl.
  unfold is_nan in Hnan. apply negb_false_iff in Hnan. rewrite Hnan, Z.eqb_refl.
  done.
Qed.

Lemma find_app_None {A} (f : A -> bool) l l' :
  List.find f l = None -> List.find f (l ++ l') = List.find f l'.
Proof. induction l as [|x l IH]; [done|]. simpl. destruct (f x); [done|exact IH]. Qed.

Lemma find_None_filter {A} (f : A -> bool) l : List.find f l = None -> List.filter f l = [].
Proof. induction l as [|x l IH]; [done|]. simpl. destruct (f x); [done|exact IH]. Qed.

Lemma Forall2_with_Forall {A B} (P : A -> B -> Prop) (Q : A -> Prop) (R : B -> Prop) l k :
  Forall2 P l k -> Forall Q l -> Forall R k ->
  Forall2 (fun x y => P x y /\ Q x /\ R y) l k.
Proof.
  induction 1; intros HQ HR; [constructor|].
  apply Forall_cons in HQ as [??]. apply Forall_cons in HR as [??].
  constructor; auto.
Qed.

Lemma stored_as_ProductID pid ins vs :
  Forall2 (fun r v => r = Variant.with_ids (Variant.ID r) pid v) ins vs ->
  Forall (fun r => Variant.ProductID r = pid) ins.
Proof.
  induction 1 as [|r v ins vs Hr _ IH]; constructor; [|done]. by rewrite Hr.
Qed.

(** The first reconciliation of an unknown item: one row for the item, the
    variants appended as they came, no record. *)
Lemma saveProduct_unknown_item product c c1 :
  Product.ID product = 0%N ->
  Forall (fun v => Variant.ID v = 0%N) (Product.Variants product) ->
  stored_item (committed c) (Product.ExternalID product) = None ->
  saveProduct product c = (inr tt, c1) ->
  tx c1 = TxCommitted /\
  exists row ins,
    committed c1
    = with_variants (variants (committed c) ++ ins)
        (with_products (products (committed c) ++ [row]) (committed c))
    /\ Product.ID row = fresh_id (Product.ID <$> products (committed c))
    /\ Product.ExternalID row = Product.ExternalID product
    /\ Product.Name row = Product.Name product
    /\ Product.URL row = Product.URL product
    /\ Product.IsActive row = Product.IsActive product
    /\ Forall2 (fun r v => r = Variant.with_ids (Variant.ID r) (Product.ID row) v)
               ins (Product.Variants product)
    /\ Forall (fun r => Variant.ID r <> 0%N
                        /\ sole_row (variants (committed c) ++ ins) r) ins.
Proof.
  intros Hid Hids Hnew Hsave.
  apply saveProduct_inv in Hsave as [(e & [=] & _)|(_ & Ht & found & Hfound & Hrec)].
  split; [done|].
  assert (found = None) as -> by (destruct Hfound; congruence).
  simpl in Hrec. destruct Hrec as (d' & Hup & ->). rewrite add_histories_nil.
  unfold upsert, upsert_product in Hup. rewrite Hid in Hup. simpl in Hup.
  destruct (existsb _ (products (committed c))); [done|].
  destruct (upsert_variants _ _ _) as [|vrows] eqn:Hv; [done|]. injection Hup as <-.
  apply upsert_variants_new in Hv as (ins & -> & Htwin & Hsole); [|done].
  eexists _, ins. split; [done|]. simpl.
  repeat split; try done; by destruct (Product.CreatedAt product =? 0).
Qed.

End new_item.

(** C8. Reconciling an item never seen before (a snapshot as the scraper
    builds it: no identities yet, prices that are numbers) inserts one row for
    the item and its variants as they came, and adds no change record; when
    the same snapshot is reconciled again and the store fails no statement,
    the call succeeds, finds every variant equal to its stored row, and after
    both calls there is one row for the item and not one record more. *)
Theorem saveProduct_new_item_twice (product : Product.t) (c c1 : db.Conn) :
  Product.ID product = 0%N ->
  Forall (fun v => Variant.ID v = 0%N /\ is_nan (Variant.Price v) = false)
         (Product.Variants product) ->
  stored_item (db.observable c) (Product.ExternalID product) = None ->
  crawler.saveProduct product c = (inr tt, c1) ->
  db.faults c1 = [] ->
  item_rows (db.observable c1) (Product.ExternalID product) = 1%nat
  /\ (exists row ins,
        db.products (db.observable c1) = db.products (db.observable c) ++ [row]
        /\ Product.ExternalID row = Product.ExternalID product
        /\ Product.Name row = Product.Name product
        /\ Product.URL row = Product.URL product
        /\ Product.IsActive row = Product.IsActive product
        /\ db.variants (db.observable c1) = db.variants (db.observable c) ++ ins
        /\ Forall2 (fun r v => r = Variant.with_ids (Variant.ID r) (Product.ID row) v)
                   ins (Product.Variants product))
  /\ db.price_histories (db.observable c1) = db.price_histories (db.observable c)
  /\ db.stock_histories (db.observable c1) = db.stock_histories (db.observable c)
  /\ exists c2,
       crawler.saveProduct product c1 = (inr tt, c2)
       /\ item_rows (db.observable c2) (Product.ExternalID product) = 1%nat
       /\ db.variants (db.observable c2) = db.variants (db.observable c1)
       /\ db.price_histories (db.observable c2) = db.price_histories (db.observable c)
       /\ db.stock_histories (db.observable c2) = db.stock_histories (db.observable c).
Proof.
  unfold db.observable. intros Hid Hvs Hnew Hsave Hfaults.
  assert (Forall (fun v => Variant.ID v = 0%N) (Product.Variants product)) as Hids
    by (eapply Forall_impl; [exact Hvs|]; by intros ? [??]).
  assert (Forall (fun v => is_nan (Variant.Price v) = false) (Product.Variants product))
    as Hnan by (eapply Forall_impl; [exact Hvs|]; by intros ? [??]).
  destruct (saveProduct_unknown_item _ _ _ Hid Hids Hnew Hsave)
    as (Ht & row & ins & Hd1 & Hrid & Hrext & Hname & Hurl & Hactive & Htwin & Hsole).
  set (d := db.committed c) in *.
  set (e := Product.ExternalID product) in *.
  assert (List.filter (fun p => String.eqb (Product.ExternalID p) e) (db.products d) = [])
    as Hnone by (by apply find_None_filter).
  assert (item_rows (db.committed c1) e = 1%nat) as Hrows1.
  { rewrite Hd1. unfold item_rows. simpl. rewrite List.filter_app, Hnone. simpl.
    by rewrite Hrext, String.eqb_refl. }
  split; [done|]. split; [exists row, ins; by rewrite Hd1|].
  split; [by rewrite Hd1|]. split; [by rewrite Hd1|].
  destruct c1 as [d1 t1 f1]. simpl in *. subst d1 t1 f1.
  rewrite saveProduct_no_faults. fold e.
  set (d1 := db.with_variants _ _) in *.
  assert (stored_item d1 e = Some row) as ->.
  { unfold stored_item, d1. simpl. rewrite find_app_None by done. simpl.
    by rewrite Hrext, String.eqb_refl. }
  assert (Product.ID row <> 0%N) as Hrow0 by (rewrite Hrid; apply fresh_id_nonzero).
  (* every variant finds the row it was stored as *)
  assert (Forall2 (fun r v => r = Variant.with_ids (Variant.ID r) (Product.ID row) v
                    /\ stored_variants d1 (Product.ID row) !! Variant.ExternalID v = Some r
                    /\ is_nan (Variant.Price v) = false) ins (Product.Variants product))
    as Hself.
  { assert (Forall (fun r => (Variant.ID r <> 0%N /\ sole_row (db.variants d ++ ins) r)
                             /\ r ∈ ins) ins) as Hin.
    { apply Forall_forall. intros r Hr. split; [|done].
      rewrite Forall_forall in Hsole. by apply Hsole. }
    pose proof (Forall2_with_Forall _ _ _ _ _ Htwin Hin Hnan) as H2.
    eapply Forall2_impl; [exact H2|].
    intros r v (Hr & ((_ & Hs) & Hrin) & Hn). split; [done|]. split; [|done].
    assert (Variant.ExternalID v = Variant.ExternalID r) as -> by (by rewrite Hr).
    unfold stored_variants. apply variantMap_sole.
    - apply list_elem_of_In, filter_In. split.
      + apply list_elem_of_In. unfold d1. simpl. apply elem_of_app. by right.
      + rewrite Hr. simpl. apply N.eqb_refl.
    - intros x Hx Hxe. apply Hs; [|by left].
      apply list_elem_of_In, filter_In in Hx as [Hx _]. by apply list_elem_of_In. }
  apply diff_against_itself in Hself as (Hadopt & Hprices & Hstocks).
  unfold reconcile. rewrite Hadopt, Hprices, Hstocks.
  (* the upsert replaces the item's row and leaves the variants alone *)
  unfold db.upsert, db.upsert_product. simpl.
  apply N.eqb_neq in Hrow0 as Hrow0'. rewrite Hrow0'. fold e.
  assert (forall x, x ∈ db.products d -> Product.ID x <> Product.ID row) as Hold.
  { intros x Hx Heq.
    assert (Product.ID x ∈ Product.ID <$> db.products d) as Hin
      by (apply list_elem_of_fmap; eauto).
    apply fresh_id_gt in Hin. lia. }
  assert (existsb (fun r => String.eqb (Product.ExternalID r) e
                            && negb (N.eqb (Product.ID r) (Product.ID row)))
                  (db.products d ++ [row]) = false) as ->.
  { apply not_true_is_false. intros (x & Hx & Hb)%existsb_exists.
    apply andb_prop in Hb as [He Hn].
    apply in_app_or in Hx as [Hx|[<-|[]]].
    - by rewrite (find_none _ _ Hnew x Hx) in He.
    - by rewrite N.eqb_refl in Hn. }
  assert (existsb (fun r => N.eqb (Product.ID r) (Product.ID row))
                  (db.products d ++ [row]) = true) as ->.
  { apply existsb_exists. exists row. split; [apply in_or_app; right; by left|].
    apply N.eqb_refl. }
  rewrite (upsert_variants_same (Product.ID row) ins (db.variants d ++ ins)).
  2:{ rewrite Forall_forall in Hsole. apply Forall_forall. intros r Hr.
      destruct (Hsole r Hr) as [? ?]. repeat split; try done.
      - pose proof (stored_as_ProductID _ _ _ Htwin) as Hp.
        rewrite Forall_forall in Hp. by apply Hp.
      - apply elem_of_app. by right. }
  eexists. split; [done|]. simpl. rewrite !app_nil_r.
  split; [|done].
  unfold item_rows. simpl. rewrite fmap_app, List.filter_app.
  assert (((fun r => if N.eqb (Product.ID r) (Product.ID row) then _ else r)
             <$> db.products d) = db.products d) as ->.
  { rewrite <- (list_fmap_id (db.products d)) at 2. apply list_fmap_ext.
    intros i x Hx. apply list_elem_of_lookup_2, Hold, N.eqb_neq in Hx. by rewrite Hx. }
  rewrite Hnone. simpl. rewrite N.eqb_refl.
  destruct (Product.CreatedAt row =? 0); simpl; fold e; by rewrite String.eqb_refl.
Qed.

(** The sample snapshot reconciled twice into empty tables. *)
Lemma saveProduct_new_item_twice_witness :
  let c1 := snd (crawler.saveProduct sample_snapshot (db.connect empty_tables [])) in
  item_rows (db.observable c1) "p1" = 1%nat
  /\ exists c2,
       crawler.saveProduct sample_snapshot c1 = (inr tt, c2)
       /\ item_rows (db.observable c2) "p1" = 1%nat
       /\ db.price_histories (db.observable c2) = []
       /\ db.stock_histories (db.observable c2) = [].
Proof.
  intros c1.
  destruct (saveProduct_new_item_twice sample_snapshot (db.connect empty_tables []) c1)
    as (H1 & _ & _ & _ & c2 & H2 & H3 & _ & H4 & H5).
  - reflexivity.
  - repeat constructor.
  - reflexivity.
  - vm_compute. reflexivity.
  - reflexivity.
  - split; [exact H1|]. exists c2. auto.
Defined.

(** ** The priority table: the two selections (C4) and the bands (C7) *)

Section priority_table.
Import crawler.

Lemma elem_of_selection (f : string * Z -> bool) (iteration : list (string * Z))
    (table : gmap string Z) id :
  iteration ≡ₚ map_to_list table ->
  id ∈ fst <$> List.filter f iteration
  <-> exists band, table !! id = Some band /\ f (id, band) = true.
Proof.
  intros Hperm. rewrite list_elem_of_fmap. split.
  - intros ([id' band] & -> & Hin). exists band.
    apply list_elem_of_In, filter_In in Hin as [Hin Hf]. split; [|done].
    apply elem_of_map_to_list. rewrite <- Hperm. by apply list_elem_of_In.
  - intros (band & Hm & Hf). exists (id, band). split; [done|].
    apply list_elem_of_In, filter_In. split; [|done].
    apply list_elem_of_In. rewrite Hperm. by apply elem_of_map_to_list.
Qed.


Lemma bands_valid_insert (table : gmap string Z) id band :
  bands_valid table -> 0 <= band <= 10 -> bands_valid (<[id := band]> table).
Proof.
  intros Hvalid Hband id' band' [[_ <-]|[_ H]]%lookup_insert_Some; [done|].
  by apply (Hvalid id').
Qed.

Lemma loadPriorityList_bands (favorites : list (UserFavorite.t * Product.t)) : forall s,
  bands_valid (priorityList s) ->
  bands_valid (priorityList
    (foldl (fun s favorite => priorityList_set (Product.ExternalID (snd favorite)) 10 s)
           s favorites)).
Proof.
  induction favorites as [|f favorites IH]; intros s Hvalid; [done|].
  simpl. apply IH. simpl. apply bands_valid_insert; [done|lia].
Qed.

(** What the claim on bands has right: the startup load, the discovery pass
    and the API call keep every band within [0, 10]; the API call refuses a
    band outside of it without touching the table and overwrites the entry
    otherwise; a priority-update message keeps the bands valid when its own
    band is. *)
Lemma api_and_startup_keep_bands_valid s :
  bands_valid (priorityList s) ->
  bands_valid (priorityList (snd (loadPriorityList s)))
  /\ (forall id, bands_valid (priorityList (ensurePriority id s)))
  /\ (forall id request,
        bands_valid (priorityList (snd (updateProductPriority id request s))))
  /\ (forall id band, ~ 0 <= band <= 10 ->
        updateProductPriority id (Some band) s
        = (inl (StatusBadRequest "Priority must be between 0 and 10"), s))
  /\ (forall id band, 0 <= band <= 10 ->
        fst (updateProductPriority id (Some band) s) = inr tt ->
        priorityList (snd (updateProductPriority id (Some band) s))
        = <[id := band]> (priorityList s))
  /\ (forall id band, 0 <= band <= 10 ->
        bands_valid (priorityList (snd (listenForPriorityUpdates (Some (id, band)) s)))).
Proof.
  intros Hvalid. split; [|split; [|split; [|split; [|split]]]].
  - unfold loadPriorityList.
    destruct (db.Find_user_favorites_with_product _) as [[e|favorites] c]; [done|].
    simpl. by apply loadPriorityList_bands.
  - intros id. unfold ensurePriority. simpl.
    destruct (bool_decide _); simpl; [done|]. apply bands_valid_insert; [done|lia].
  - intros id [band|]; [|done]. unfold updateProductPriority.
    destruct (band <? 0) eqn:Hlo; [done|]. destruct (band >? 10) eqn:Hhi; [done|]. simpl.
    destruct (db.First_product_by_external_id _ _) as [[[]|?] c]; try done.
    simpl. apply bands_valid_insert; [done|lia].
  - intros id band Hout. unfold updateProductPriority.
    destruct (band <? 0) eqn:Hlo; [done|]. destruct (band >? 10) eqn:Hhi; [done|]. lia.
  - intros id band Hin. unfold updateProductPriority.
    destruct (band <? 0) eqn:Hlo; [lia|]. destruct (band >? 10) eqn:Hhi; [lia|]. simpl.
    by destruct (db.First_product_by_external_id _ _) as [[[]|?] c].
  - intros id band Hin. simpl. by apply bands_valid_insert.
Qed.

End priority_table.




(** C7, at the input that breaks it.  A priority-update message carrying band
    99 is installed as it is by the broker handler, while the API call refuses
    the same band and leaves the table alone. *)
Theorem listenForPriorityUpdates_installs_any_band :
  let s := crawler.NewCrawlerService (db.connect sample_tables []) in
  crawler.priorityList (snd (crawler.listenForPriorityUpdates (Some ("p1", 99)) s)) !! "p1"
  = Some 99
  /\ fst (crawler.listenForPriorityUpdates (Some ("p1", 99)) s) = None
  /\ ~ bands_valid (crawler.priorityList
                      (snd (crawler.listenForPriorityUpdates (Some ("p1", 99)) s)))
  /\ crawler.updateProductPriority "p1" (Some 99) s
     = (inl (StatusBadRequest "Priority must be between 0 and 10"), s).
Proof.
  intros s. split; [vm_compute; reflexivity|]. split; [reflexivity|]. split; [|reflexivity].
  intros Hvalid. specialize (Hvalid "p1" 99). 
  assert (0 <= 99 <= 10) by (apply Hvalid; vm_compute; reflexivity). lia.
Qed.

(** ** The alert matcher: the suppression window (C3) and its reset (C10) *)

(** C3, at the input that breaks it.  A rule last notified one hour ago stays
    silent on a -20% record and the same rule last notified 25 hours ago
    publishes; but with two qualifying records among the recent ones, one run
    publishes two notifications for that one rule: the window is tested on
    the copy of the rule taken before the first publish. *)
Theorem processProductUpdate_notifies_twice :
  sample_run one_drop [rule_15 (1 * Hour)] = []
  /\ sample_run one_drop [rule_15 (25 * Hour)]
     = [("user-notifications", "price-drop-7-1",
         PriceDrop.mk 7 1 1 100 80 20 "Shoe" "https://shop.example/p1")]
  /\ sample_run two_drops [rule_15 (25 * Hour)]
     = [("user-notifications", "price-drop-7-1",
         PriceDrop.mk 7 1 1 80 56 30 "Shoe" "https://shop.example/p1");
        ("user-notifications", "price-drop-7-1",
         PriceDrop.mk 7 1 1 100 80 20 "Shoe" "https://shop.example/p1")].
Proof. repeat split; vm_compute; reflexivity. Qed.

Section matcher.
Import analyzer.

Lemma updateLastNotification_kafka pid uid now s :
  kafka (updateLastNotification pid uid now s) = kafka s.
Proof. unfold updateLastNotification. by destruct (priceAlerts s !! pid). Qed.

Lemma updateLastNotification_alerts pid uid now s :
  alertsOf pid (updateLastNotification pid uid now s)
  = (fun a => if N.eqb (UserID a) uid then with_LastNotification now a else a)
      <$> alertsOf pid s.
Proof.
  unfold updateLastNotification, alertsOf.
  destruct (priceAlerts s !! pid) as [alerts|] eqn:Ha; simpl.
  - by rewrite lookup_insert_eq.
  - by rewrite Ha.
Qed.

Lemma updateLastNotification_other pid uid now s other :
  other <> pid ->
  alertsOf other (updateLastNotification pid uid now s) = alertsOf other s.
Proof.
  intros Hne. unfold updateLastNotification, alertsOf.
  destruct (priceAlerts s !! pid) as [alerts|]; simpl; [|done].
  by rewrite lookup_insert_ne.
Qed.

End matcher.


(** Two rules of one user on the sample item, thresholds 15% and 25%, and a
    rule of another user; the one recent record, -30%, satisfies all three.  The first rule
    publishes and resets the second, which then stays silent; the other
    user's rule publishes on its own. *)
Example second_rule_of_the_user_is_silenced :
  (fun '(_, _, n) => PriceDrop.UserID n)
    <$> sample_run (db.with_price_histories [PriceHistory.mk 1 1 80 56 (-30)] sample_tables)
          [rule_15 (25 * Hour); analyzer.mkAlert 7 1 2 25 analyzer.zeroTime;
           analyzer.mkAlert 8 1 0 25 analyzer.zeroTime]
  = [7%N; 8%N].
Proof. vm_compute. reflexivity. Qed.

(** ** The notification fan-out: delivery (C5) and the registry (C6) *)

Section registry.
Import notification.

Lemma channels_ok_new c : channels_ok (NewNotificationService c).
Proof.
  repeat split; simpl.
  - intros u ch H. by rewrite lookup_empty in H.
  - intros ch c0 H. by rewrite lookup_nil in H.
  - intros u1 u2 ch H. by rewrite lookup_empty in H.
  - intros ch c0 H. by rewrite lookup_nil in H.
Qed.

Lemma close_open ch c h :
  h !! ch = Some c -> closed c = false ->
  close ch h = Done (<[ch := mkChan (buffer c) (capacity c) true]> h).
Proof. intros Hc Ho. unfold close. by rewrite Hc, Ho. Qed.

(** Closing the channel of a user and dropping the user keeps the
    invariant. *)
Lemma channels_ok_close s u ch c :
  channels_ok s ->
  userChannels s !! u = Some ch -> channels s !! ch = Some c ->
  channels_ok (mkService (database s)
                 (<[ch := mkChan (buffer c) (capacity c) true]> (channels s))
                 (delete u (userChannels s))).
Proof.
  intros (Hreg & Hopen & Hinj & Hcap) Hu Hc. repeat split; simpl.
  - intros u' ch' [Hne Hu']%lookup_delete_Some.
    destruct (Hreg _ _ Hu') as (c' & Hc' & Ho). exists c'. split; [|done].
    rewrite list_lookup_insert_ne; [done|]. intros <-. by apply Hne, (Hinj _ _ ch).
  - intros ch' c' Hc' Ho.
    destruct (decide (ch = ch')) as [<-|Hne].
    + rewrite list_lookup_insert_eq in Hc' by (by eapply lookup_lt_Some).
      by simplify_eq.
    + rewrite list_lookup_insert_ne in Hc' by done.
      destruct (Hopen _ _ Hc' Ho) as (u' & Hu'). exists u'.
      apply lookup_delete_Some. split; [|done]. intros <-. congruence.
  - intros u1 u2 ch' [_ H1]%lookup_delete_Some [_ H2]%lookup_delete_Some. eauto.
  - intros ch' c' Hc'.
    destruct (decide (ch = ch')) as [<-|Hne].
    + rewrite list_lookup_insert_eq in Hc' by (by eapply lookup_lt_Some).
      simplify_eq. simpl. eauto.
    + rewrite list_lookup_insert_ne in Hc' by done. eauto.
Qed.

(** Making a channel for a user who has none keeps the invariant. *)
Lemma channels_ok_make s u :
  channels_ok s -> userChannels s !! u = None ->
  channels_ok (mkService (database s) (channels s ++ [mkChan [] 100 false])
                 (<[u := length (channels s)]> (userChannels s))).
Proof.
  intros (Hreg & Hopen & Hinj & Hcap) Hu. repeat split; simpl.
  - intros u' ch' [[<- <-]|[Hne Hu']]%lookup_insert_Some.
    + eexists. split; [by apply list_lookup_middle|done].
    + destruct (Hreg _ _ Hu') as (c' & Hc' & Ho). exists c'. split; [|done].
      by apply lookup_app_l_Some.
  - intros ch' c' Hc' Ho. apply lookup_app_Some in Hc' as [Hc'|[Hge Hc']].
    + destruct (Hopen _ _ Hc' Ho) as (u' & Hu'). exists u'.
      rewrite lookup_insert_ne; [done|]. intros <-. congruence.
    + exists u. apply list_lookup_singleton_Some in Hc' as [Hz _].
      rewrite lookup_insert_eq. f_equal. lia.
  - assert (forall u' , userChannels s !! u' <> Some (length (channels s))) as Hfresh.
    { intros u' Hu'. destruct (Hreg _ _ Hu') as (c' & Hc' & _).
      apply lookup_lt_Some in Hc'. lia. }
    intros u1 u2 ch' [[<- <-]|[Hne1 H1]]%lookup_insert_Some
                     [[<- Heq]|[Hne2 H2]]%lookup_insert_Some; try done.
    + by apply Hfresh in H2.
    + subst. by apply Hfresh in H1.
    + eauto.
  - intros ch' c' Hc'. apply lookup_app_Some in Hc' as [Hc'|[Hge Hc']]; [eauto|].
    by apply list_lookup_singleton_Some in Hc' as [_ <-].
Qed.

(** Changing what a channel holds keeps the invariant. *)
Lemma channels_ok_buffer s ch c buf :
  channels_ok s -> channels s !! ch = Some c ->
  channels_ok (with_channels (<[ch := mkChan buf (capacity c) (closed c)]> (channels s)) s).
Proof.
  intros (Hreg & Hopen & Hinj & Hcap) Hc.
  assert (forall ch' c', <[ch := mkChan buf (capacity c) (closed c)]> (channels s) !! ch'
                         = Some c' ->
            exists c0, channels s !! ch' = Some c0
                       /\ closed c0 = closed c' /\ capacity c0 = capacity c') as Hsame.
  { intros ch' c' Hc'. destruct (decide (ch = ch')) as [<-|Hne].
    - rewrite list_lookup_insert_eq in Hc' by (by eapply lookup_lt_Some).
      exists c. by simplify_eq.
    - rewrite list_lookup_insert_ne in Hc' by done. eauto. }
  repeat split; simpl; [|intros ch' c' Hc' Ho|done|intros ch' c' Hc'].
  - intros u' ch' Hu'. destruct (Hreg _ _ Hu') as (c' & Hc' & Ho).
    destruct (decide (ch = ch')) as [<-|Hne].
    + eexists. rewrite list_lookup_insert_eq by (by eapply lookup_lt_Some).
      split; [done|]. simpl. congruence.
    + exists c'. by rewrite list_lookup_insert_ne.
  - destruct (Hsame _ _ Hc') as (c0 & Hc0 & Hcl & _). apply (Hopen _ _ Hc0). congruence.
  - destruct (Hsame _ _ Hc') as (c0 & Hc0 & _ & <-). eauto.
Qed.

Lemma RegisterUserChannel_ok s u :
  channels_ok s ->
  exists ch s',
    RegisterUserChannel u s = Done (ch, s')
    /\ channels_ok s'
    /\ userChannels s' !! u = Some ch
    /\ channels s' !! ch = Some (mkChan [] 100 false)
    /\ (forall old, userChannels s !! u = Some old ->
          old <> ch /\
          exists c, channels s !! old = Some c
                    /\ channels s' !! old = Some (mkChan (buffer c) (capacity c) true))
    /\ (forall u', u' <> u -> userChannels s' !! u' = userChannels s !! u').
Proof.
  intros Hok. unfold RegisterUserChannel.
  destruct (userChannels s !! u) as [old|] eqn:Hu.
  - destruct Hok as (Hreg & Hrest). destruct (Hreg _ _ Hu) as (c & Hc & Ho).
    rewrite (close_open _ _ _ Hc Ho).
    pose proof (channels_ok_close s u old c (conj Hreg Hrest) Hu Hc) as Hmid.
    apply (channels_ok_make _ u) in Hmid; [|by apply lookup_delete_eq].
    simpl in Hmid. rewrite insert_delete_eq in Hmid.
    do 2 eexists. split; [done|]. split; [done|]. simpl.
    split; [by rewrite lookup_insert_eq|]. split; [by apply list_lookup_middle|].
    split; [|by intros; rewrite lookup_insert_ne].
    intros ? [= <-]. apply lookup_lt_Some in Hc as Hlt.
    split; [rewrite length_insert; lia|]. exists c. split; [done|].
    rewrite lookup_app_l by (by rewrite length_insert).
    by rewrite list_lookup_insert_eq.
  - pose proof (channels_ok_make s u Hok Hu) as Hmake.
    do 2 eexists. split; [done|]. split; [done|]. simpl.
    split; [by rewrite lookup_insert_eq|]. split; [by apply list_lookup_middle|].
    split; [done|]. by intros; rewrite lookup_insert_ne.
Qed.

Lemma UnregisterUserChannel_ok s u :
  channels_ok s ->
  exists s',
    UnregisterUserChannel u s = Done s'
    /\ channels_ok s'
    /\ userChannels s' !! u = None
    /\ (forall u', u' <> u -> userChannels s' !! u' = userChannels s !! u').
Proof.
  intros Hok. unfold UnregisterUserChannel.
  destruct (userChannels s !! u) as [old|] eqn:Hu.
  - destruct Hok as (Hreg & Hrest). destruct (Hreg _ _ Hu) as (c & Hc & Ho).
    rewrite (close_open _ _ _ Hc Ho). eexists. split; [done|].
    split; [by apply channels_ok_close|]. simpl.
    split; [by apply lookup_delete_eq|]. by intros; rewrite lookup_delete_ne.
  - exists s. done.
Qed.

Lemma Create_notification_autocommit r c :
  db.tx c = db.NoTx ->
  exists c',
    db.Create_notification r c
    = (match db.faults c with true :: _ => inl ErrStatement | _ => inr tt end, c')
    /\ db.tx c' = db.NoTx
    /\ db.notifications (db.observable c')
       = match db.faults c with
         | true :: _ => db.notifications (db.observable c)
         | _ => db.notifications (db.observable c) ++ [r]
         end.
Proof.
  intros Ht. unfold db.Create_notification, db.statement, db.draw, db.current, db.put.
  destruct c as [d t [|[] rest]]; simpl in *; subst; simpl; eauto.
Qed.

(** The consume handler on a decoded event. *)
Lemma consumeNotifications_ok Sprintf now n s :
  channels_ok s -> db.tx (database s) = db.NoTx ->
  let text := Sprintf (PriceDrop.ProductName n) (PriceDrop.NewPrice n)
                      (PriceDrop.PreviousPrice n) (PriceDrop.DiscountPercent n) in
  let record := Notification.mk (PriceDrop.UserID n) (PriceDrop.ProductID n) text false now in
  exists s',
    consumeNotifications Sprintf now (Some n) s = Done (None, s')
    /\ channels_ok s' /\ db.tx (database s') = db.NoTx
    /\ userChannels s' = userChannels s
    /\ db.notifications (db.observable (database s'))
       = match db.faults (database s) with
         | true :: _ => db.notifications (db.observable (database s))
         | _ => db.notifications (db.observable (database s)) ++ [record]
         end
    /\ match userChannels s !! PriceDrop.UserID n with
       | None => channels s' = channels s
       | Some ch =>
           exists c, channels s !! ch = Some c /\ closed c = false
             /\ channels s'
                = if (length (buffer c) <? 100)%nat
                  then <[ch := mkChan (buffer c ++ [text]) 100 false]> (channels s)
                  else channels s
       end.
Proof.
  intros Hok Htx text record. unfold consumeNotifications, deliver. fold text. fold record.
  destruct (Create_notification_autocommit record _ Htx) as (c' & -> & Htx' & Hn).
  simpl.
  destruct (userChannels s !! PriceDrop.UserID n) as [ch|] eqn:Hu.
  - destruct Hok as (Hreg & Hrest). destruct (Hreg _ _ Hu) as (c & Hc & Ho).
    destruct Hrest as (Hopen & Hinj & Hcap). pose proof (Hcap _ _ Hc) as Hc100.
    unfold trySend. simpl. rewrite Hc, Ho, Hc100.
    destruct (length (buffer c) <? 100)%nat eqn:Hlt.
    + eexists. split; [done|]. simpl.
      split; [|split; [done|split; [done|split; [done|]]]].
      * pose proof (channels_ok_buffer (with_database c' s) ch c (buffer c ++ [text])) as Hb.
        rewrite Ho, Hc100 in Hb. by apply Hb.
      * exists c. by rewrite Hlt.
    + eexists. split; [done|]. simpl.
      split; [done|]. split; [done|]. split; [done|]. split; [done|].
      exists c. by rewrite Hlt.
  - eexists. split; [done|]. simpl. done.
Qed.

End registry.

(** C5, as the code has it.  In a state of the registry reached by connects
    and disconnects, the handler of a decoded notify-event, run without a
    connect or disconnect in between, returns [nil]: it neither fails nor
    panics, and being a total function it does not wait.
    One record is persisted when the store accepts the insert; when the
    insert fails nothing is persisted and the event is still offered to the
    channel.  With no channel for the user, or with 100 messages waiting on
    it, the channels are left as they are (the 101st message is dropped);
    otherwise the message is queued last. *)
Theorem consumeNotifications_never_blocks (Sprintf : string -> float -> float -> float -> string)
    (now : Z) (n : PriceDrop.t) (s : notification.Service) :
  channels_ok s -> db.tx (notification.database s) = db.NoTx ->
  let text := Sprintf (PriceDrop.ProductName n) (PriceDrop.NewPrice n)
                      (PriceDrop.PreviousPrice n) (PriceDrop.DiscountPercent n) in
  let record := Notification.mk (PriceDrop.UserID n) (PriceDrop.ProductID n) text false now in
  exists s',
    notification.consumeNotifications Sprintf now (Some n) s = Done (None, s')
    /\ channels_ok s' /\ db.tx (notification.database s') = db.NoTx
    /\ db.notifications (db.observable (notification.database s'))
       = match db.faults (notification.database s) with
         | true :: _ => db.notifications (db.observable (notification.database s))
         | _ => db.notifications (db.observable (notification.database s)) ++ [record]
         end
    /\ match notification.userChannels s !! PriceDrop.UserID n with
       | None => notification.channels s' = notification.channels s
       | Some ch =>
           exists c, notification.channels s !! ch = Some c
             /\ notification.closed c = false
             /\ notification.channels s'
                = if (length (notification.buffer c) <? 100)%nat
                  then <[ch := notification.mkChan (notification.buffer c ++ [text]) 100 false]>
                         (notification.channels s)
                  else notification.channels s
       end.
Proof.
  intros Hok Htx text record.
  destruct (consumeNotifications_ok Sprintf now n s Hok Htx)
    as (s' & H1 & H2 & H3 & _ & H4 & H5).
  exists s'. auto.
Qed.

(** The sample registry satisfies the invariant. *)
Lemma sample_full_ok : channels_ok sample_full.
Proof.
  repeat split; simpl.
  - intros u ch [<- <-]%lookup_singleton_Some. eexists. split; reflexivity.
  - intros [|ch] c Hc Ho; [|done].
    exists 7%N. by rewrite lookup_singleton_eq.
  - intros u1 u2 ch [<- _]%lookup_singleton_Some [<- _]%lookup_singleton_Some. done.
  - intros [|ch] c Hc; [by injection Hc as <-|done].
Qed.

(** The 101st message for a user whose channel is full: it is persisted and
    not queued. *)
Lemma consumeNotifications_never_blocks_witness :
  exists s',
    notification.consumeNotifications sample_Sprintf 0 (Some sample_event) sample_full
    = Done (None, s')
    /\ length (db.notifications (db.observable (notification.database s'))) = 1%nat
    /\ notification.channels s' = notification.channels sample_full.
Proof.
  destruct (consumeNotifications_never_blocks sample_Sprintf 0 sample_event sample_full)
    as (s' & H1 & _ & _ & H2 & c & Hc & _ & H3).
  - exact sample_full_ok.
  - reflexivity.
  - exists s'. split; [exact H1|]. split.
    + rewrite H2. reflexivity.
    + rewrite H3. injection Hc as <-. reflexivity.
Defined.

(** C5 as stated fails: when the store refuses the insert, the event is
    consumed, the handler returns [nil], and no record is persisted. *)
Lemma notification_lost_when_insert_fails :
  let s := notification.NewNotificationService (db.connect empty_tables [true]) in
  exists s',
    notification.consumeNotifications sample_Sprintf 0 (Some sample_event) s = Done (None, s')
    /\ db.notifications (db.observable (notification.database s')) = [].
Proof. eexists. split; reflexivity. Qed.

(** The window between the lookup and the send.  The handler gives the lock
    back before it sends: when the user disconnects in between, the send
    meets a closed channel, and the select panics instead of taking its
    default case. *)
Example send_after_disconnect_panics :
  exists ch s1 s2,
    notification.RegisterUserChannel 7
      (notification.NewNotificationService (db.connect empty_tables [])) = Done (ch, s1)
    /\ notification.userChannels s1 !! 7%N = Some ch
    /\ notification.UnregisterUserChannel 7 s1 = Done s2
    /\ notification.deliver (Some ch) "Price drop alert: Shoe" s2 = Panic.
Proof. do 3 eexists. repeat split; reflexivity. Qed.

(** C6, as the code has it.  The registry starts within the invariant, and
    connects and disconnects keep it: a user has at most one open channel.
    A connect closes the channel the user had and registers a new, empty one;
    the handler never queues anything on a closed channel; but what was
    queued on it before stays there, and the loop reading it is still handed
    those messages, closed or not. *)
Theorem one_channel_per_user :
  (forall c, channels_ok (notification.NewNotificationService c))
  /\ (forall s u, channels_ok s ->
        exists ch s',
          notification.RegisterUserChannel u s = Done (ch, s')
          /\ channels_ok s'
          /\ notification.userChannels s' !! u = Some ch
          /\ notification.channels s' !! ch = Some (notification.mkChan [] 100 false)
          /\ forall old, notification.userChannels s !! u = Some old ->
               old <> ch /\
               exists c, notification.channels s !! old = Some c
                 /\ notification.channels s' !! old
                    = Some (notification.mkChan (notification.buffer c)
                                                (notification.capacity c) true))
  /\ (forall s u, channels_ok s ->
        exists s',
          notification.UnregisterUserChannel u s = Done s'
          /\ channels_ok s'
          /\ notification.userChannels s' !! u = None)
  /\ (forall Sprintf now n s, channels_ok s -> db.tx (notification.database s) = db.NoTx ->
        exists s',
          notification.consumeNotifications Sprintf now (Some n) s = Done (None, s')
          /\ forall ch c, notification.channels s !! ch = Some c ->
               notification.closed c = true ->
               notification.channels s' !! ch = Some c)
  /\ (forall s u ch c msg rest,
        notification.channels s !! ch = Some c ->
        notification.buffer c = msg :: rest ->
        notification.handleWebSocket u ch s
        = Done (notification.WriteJSON msg,
                notification.with_channels
                  (<[ch := notification.mkChan rest (notification.capacity c)
                                               (notification.closed c)]>
                     (notification.channels s)) s)).
Proof.
  split; [exact channels_ok_new|]. split; [|split; [|split]].
  - intros s u Hok.
    destruct (RegisterUserChannel_ok s u Hok) as (ch & s' & ? & ? & ? & ? & ? & _).
    exists ch, s'. auto.
  - intros s u Hok.
    destruct (UnregisterUserChannel_ok s u Hok) as (s' & ? & ? & ? & _).
    exists s'. auto.
  - intros Sprintf now n s Hok Htx.
    destruct (consumeNotifications_ok Sprintf now n s Hok Htx)
      as (s' & H1 & _ & _ & _ & _ & H5).
    exists s'. split; [done|]. intros ch c Hc Hcl.
    destruct (notification.userChannels s !! PriceDrop.UserID n) as [ch'|];
      [|by rewrite H5].
    destruct H5 as (c' & Hc' & Ho & ->).
    destruct (_ <? _)%nat; [|done].
    rewrite list_lookup_insert_ne; [done|]. intros <-. congruence.
  - intros s u ch c msg rest Hc Hb. unfold notification.handleWebSocket, notification.receive.
    by rewrite Hc, Hb.
Qed.

(** C6 as stated fails: user 7 connects, a notification is queued on the
    channel, user 7 connects again; the loop of the first connection then
    receives the queued message from the replaced channel and writes it to
    its socket. *)
Lemma queued_message_delivered_after_replacement :
  exists first s1 s2 second s3 s4,
    notification.RegisterUserChannel 7
      (notification.NewNotificationService (db.connect empty_tables [])) = Done (first, s1)
    /\ notification.consumeNotifications sample_Sprintf 0 (Some sample_event) s1
       = Done (None, s2)
    /\ notification.RegisterUserChannel 7 s2 = Done (second, s3)
    /\ second <> first
    /\ (exists c, notification.channels s3 !! first = Some c
                  /\ notification.closed c = true)
    /\ notification.handleWebSocket 7 first s3
       = Done (notification.WriteJSON "Price drop alert: Shoe", s4).
Proof.
  do 6 eexists. split; [reflexivity|]. split; [reflexivity|]. split; [reflexivity|].
  split; [discriminate|]. split; [eexists; split; reflexivity|]. reflexivity.
Qed.

(** ** Locking of the two tables (C9) *)

Section locking.
Import crawler.

Lemma run_app h t1 t2 :
  sync.run h (t1 ++ t2)
  = match sync.run h t1 with Some h' => sync.run h' t2 | None => None end.
Proof.
  revert h. induction t1 as [|e t1 IH]; intros h; [done|]. simpl.
  destruct (sync.step h e); [apply IH|done].
Qed.

Lemma run_writes n : sync.run sync.Exclusive (replicate n sync.Write) = Some sync.Exclusive.
Proof. induction n; [done|]. simpl. exact IHn. Qed.

Lemma loadPriorityList_writes (favorites : list (UserFavorite.t * Product.t)) : forall s,
  trace (foldl (fun s favorite => priorityList_set (Product.ExternalID (snd favorite)) 10 s)
               s favorites)
  = trace s ++ replicate (length favorites) sync.Write.
Proof.
  induction favorites as [|f favorites IH]; intros s; simpl.
  - by rewrite app_nil_r.
  - rewrite IH. simpl. by rewrite <- app_assoc.
Qed.

(** Every operation of the crawler on its priority table is bracketed by
    [priorityMux]. *)
Lemma crawler_accesses_guarded s :
  (exists tr, trace (snd (loadPriorityList s)) = trace s ++ tr /\ sync.guarded tr)
  /\ (forall id, exists tr, trace (ensurePriority id s) = trace s ++ tr /\ sync.guarded tr)
  /\ (forall iteration, exists tr,
        trace (snd (crawlRegularPriorityProducts iteration s)) = trace s ++ tr
        /\ sync.guarded tr)
  /\ (forall iteration, exists tr,
        trace (snd (crawlHighPriorityProducts iteration s)) = trace s ++ tr
        /\ sync.guarded tr)
  /\ (forall id request, exists tr,
        trace (snd (updateProductPriority id request s)) = trace s ++ tr
        /\ sync.guarded tr)
  /\ (forall update, exists tr,
        trace (snd (listenForPriorityUpdates update s)) = trace s ++ tr
        /\ sync.guarded tr).
Proof.
  repeat split.
  - unfold loadPriorityList.
    destruct (db.Find_user_favorites_with_product _) as [[e|favorites] c]; simpl.
    + exists []. by rewrite app_nil_r.
    + exists ([sync.Lock] ++ replicate (length favorites) sync.Write ++ [sync.Unlock]).
      rewrite loadPriorityList_writes. simpl. rewrite <- !app_assoc. split; [done|].
      unfold sync.guarded. simpl. by rewrite run_app, run_writes.
  - intros id. unfold ensurePriority. simpl.
    destruct (bool_decide _); simpl; eexists; rewrite <- !app_assoc; split; done.
  - intros iteration. eexists. simpl. rewrite <- !app_assoc. split; done.
  - intros iteration. eexists. simpl. rewrite <- !app_assoc. split; done.
  - intros id [Priority|]; simpl; [|exists []; by rewrite app_nil_r].
    destruct (_ || _); simpl; [exists []; by rewrite app_nil_r|].
    destruct (db.First_product_by_external_id _ _) as [[[]|?] c]; simpl;
      try (exists []; by rewrite app_nil_r).
    eexists. rewrite <- !app_assoc. split; done.
  - intros [[id Priority]|]; simpl; [|exists []; by rewrite app_nil_r].
    eexists. rewrite <- !app_assoc. split; done.
Qed.

End locking.

(** C9, at the input that breaks it.  A valid request to create a price alert
    reads and writes the alert table with no lock held (the analyzer's
    [Service] has no mutex), and so does the matcher when it processes an
    item-changed event; the crawler's API call on its priority table, by
    contrast, is bracketed by [priorityMux]. *)
Theorem priceAlerts_accessed_without_lock :
  let s := sample_analyzer one_drop [] in
  fst (analyzer.createPriceAlert (Some (7%N, 1%N, 0%N, 15%float)) s)
  = inr (analyzer.mkAlert 7 1 0 15 analyzer.zeroTime)
  /\ analyzer.trace (snd (analyzer.createPriceAlert (Some (7%N, 1%N, 0%N, 15%float)) s))
     = [sync.Read; sync.Write]
  /\ ~ sync.guarded [sync.Read; sync.Write]
  /\ analyzer.trace
       (snd (analyzer.processProductUpdate "user-notifications" sample_now "p1"
               (sample_analyzer one_drop [rule_15 (25 * Hour)])))
     = [sync.Read; sync.Read; sync.Read; sync.Write]
  /\ crawler.trace
       (snd (crawler.updateProductPriority "p1" (Some 7)
               (crawler.NewCrawlerService (db.connect sample_tables []))))
     = [sync.Lock; sync.Write; sync.Unlock]
  /\ sync.guarded [sync.Lock; sync.Write; sync.Unlock].
Proof.
  intros s. split; [vm_compute; reflexivity|]. split; [vm_compute; reflexivity|].
  split; [intros H; discriminate H|]. split; [vm_compute; reflexivity|].
  split; [vm_compute; reflexivity|]. reflexivity.
Qed.

(** * Further properties of the services *)

(** ** Statements on a connection without open transaction *)

Section statements.
Import db.

(** A statement that only reads. *)
Lemma statement_reads {A} (f : Tables -> error + (A * Tables)) c r c' :
  (forall d a d', f d = inr (a, d') -> d' = d) ->
  statement f c = (r, c') ->
  committed c' = committed c /\ tx c' = tx c
  /\ forall a, r = inr a -> f (current c) = inr (a, current c).
Proof.
  intros Hf H. unfold statement in H.
  destruct (draw c) as [failed c1] eqn:Hdraw.
  assert (Hc1 : committed c1 = committed c /\ tx c1 = tx c /\ current c1 = current c).
  { unfold draw in Hdraw. destruct (faults c) as [|b fs]; injection Hdraw as <- <-; done. }
  destruct Hc1 as (Hc & Ht & Hcur).
  destruct failed; [injection H as <- <-; done|].
  destruct (f (current c1)) as [e|[a d]] eqn:Hfc; [injection H as <- <-; done|].
  pose proof (Hf _ _ _ Hfc) as ->. injection H as <- <-.
  assert (Hput : committed (put (current c1) c1) = committed c1
                 /\ tx (put (current c1) c1) = tx c1).
  { unfold put, current. destruct (tx c1) eqn:Htx; simpl; rewrite ?Htx; done. }
  destruct Hput as [-> ->]. split; [done|]. split; [done|].
  intros a' [= <-]. by rewrite <- Hcur.
Qed.

Lemma autocommit_current c : autocommit c -> current c = committed c.
Proof.
  intros Hc. unfold current. destruct (tx c) eqn:Htx; try done. by destruct (Hc work).
Qed.

Lemma autocommit_tx c c' : tx c' = tx c -> autocommit c -> autocommit c'.
Proof. intros Ht Hc work. rewrite Ht. apply Hc. Qed.

Lemma statement_autocommit {A} (f : Tables -> error + (A * Tables)) c r c' :
  tx c = NoTx ->
  statement f c = (r, c') ->
  tx c' = NoTx
  /\ ((exists e, r = inl e /\ committed c' = committed c
                 /\ (hd false (faults c) = true \/ f (committed c) = inl e))
      \/ (exists a, r = inr a /\ f (committed c) = inr (a, committed c')
                    /\ hd false (faults c) = false)).
Proof.
  intros Htx H. unfold statement, draw in H.
  destruct (faults c) as [|[] fs] eqn:Hf.
  - unfold current, put in H. rewrite Htx in H.
    destruct (f (committed c)) as [e|[a d]] eqn:Hfc; injection H as <- <-.
    + split; [done|]. left. exists e. auto.
    + split; [done|]. right. by exists a.
  - injection H as <- <-. split; [done|]. left. eexists. simpl. auto.
  - unfold current, put in H. simpl in H. rewrite Htx in H.
    destruct (f (committed c)) as [e|[a d]] eqn:Hfc; injection H as <- <-.
    + split; [done|]. left. exists e. auto.
    + split; [done|]. right. by exists a.
Qed.

Lemma statement_idle {A} (f : Tables -> error + (A * Tables)) d t :
  (forall work, t <> TxOpen work) ->
  statement f (mkConn d t [])
  = match f d with
    | inl e => (inl e, mkConn d t [])
    | inr (a, d') => (inr a, mkConn d' t [])
    end.
Proof.
  intros Ht. unfold statement, current, put. simpl.
  destruct t; try (by destruct (f d) as [e|[a d']]). by destruct (Ht work).
Qed.

Lemma statement_connect {A} (f : Tables -> error + (A * Tables)) d :
  statement f (connect d [])
  = match f d with
    | inl e => (inl e, connect d [])
    | inr (a, d') => (inr a, connect d' [])
    end.
Proof.
  unfold statement, connect, current, put. simpl. by destruct (f d) as [e|[a d']].
Qed.

End statements.

(** ** The crawling loops and the priority table *)

Section crawl_loops.
Import db crawler.
Variable ProductTopic : string.

Lemma crawlAndPublish_table productID w :
  priorityList (service (crawlAndPublish ProductTopic productID w)) = priorityList (service w)
  /\ trace (service (crawlAndPublish ProductTopic productID w)) = trace (service w).
Proof.
  unfold crawlAndPublish.
  destruct (scraper.GetProductDetails productID (scraper w)) as [[product|] sc]; simpl; [|done].
  destruct (saveProduct product (database (service w))) as [[e|u] c]; simpl; done.
Qed.

Lemma crawl_batch_table batch : forall w,
  priorityList (service (foldl (fun w productID => crawlAndPublish ProductTopic productID w) w batch))
  = priorityList (service w)
  /\ trace (service (foldl (fun w productID => crawlAndPublish ProductTopic productID w) w batch))
     = trace (service w).
Proof.
  induction batch as [|id batch IH]; intros w; simpl; [done|].
  destruct (IH (crawlAndPublish ProductTopic id w)) as [-> ->].
  apply crawlAndPublish_table.
Qed.

(** X1.  Neither periodic tick changes the priority table: whatever the
    scraper, the store and the broker do, the table after the tick is the
    table before it, and the only accesses logged are the read of the
    selection under the read lock. *)
Theorem ticks_keep_priority_table (iteration : list (string * Z)) (w : Crawl) :
  (priorityList (service (regularPriorityTick ProductTopic iteration w))
   = priorityList (service w)
   /\ trace (service (regularPriorityTick ProductTopic iteration w))
      = trace (service w) ++ [sync.RLock; sync.Read; sync.RUnlock])
  /\ (priorityList (service (highPriorityTick ProductTopic iteration w))
      = priorityList (service w)
      /\ trace (service (highPriorityTick ProductTopic iteration w))
         = trace (service w) ++ [sync.RLock; sync.Read; sync.RUnlock]).
Proof.
  split.
  - unfold regularPriorityTick, crawlRegularPriorityProducts.
    match goal with |- context [foldl ?f ?a ?l] => destruct (crawl_batch_table l a) as [-> ->] end.
    simpl. split; [done|]. by rewrite <- !app_assoc.
  - unfold highPriorityTick, crawlHighPriorityProducts.
    match goal with |- context [foldl ?f ?a ?l] => destruct (crawl_batch_table l a) as [-> ->] end.
    simpl. split; [done|]. by rewrite <- !app_assoc.
Qed.


Lemma NoDup_fmap_eq {A B} (f : A -> B) l x y :
  NoDup (f <$> l) -> x ∈ l -> y ∈ l -> f x = f y -> x = y.
Proof.
  induction l as [|a l IH]; intros Hnd Hx Hy Hf; [by apply elem_of_nil in Hx|].
  rewrite fmap_cons in Hnd. apply NoDup_cons in Hnd as [Hna Hnd].
  apply elem_of_cons in Hx as [->|Hx]; apply elem_of_cons in Hy as [->|Hy]; auto.
  - exfalso. apply Hna. rewrite Hf. by apply list_elem_of_fmap_2.
  - exfalso. apply Hna. rewrite <- Hf. by apply list_elem_of_fmap_2.
Qed.

Lemma upsert_product_keeps now p rows pid rows' :
  upsert_product now p rows = inr (pid, rows') ->
  NoDup (Product.ID <$> rows) ->
  (Product.ID p = 0%N
   \/ exists ep, ep ∈ rows /\ Product.ID ep = Product.ID p
                 /\ Product.ExternalID ep = Product.ExternalID p) ->
  NoDup (Product.ID <$> rows')
  /\ (forall x, x ∈ rows -> exists y, y ∈ rows' /\ Product.ExternalID y = Product.ExternalID x).
Proof.
  unfold upsert_product. intros H Hnd Hp.
  set (row := Product.with_Variants [] _) in H.
  assert (Hrow : Product.ID row = Product.ID p /\ Product.ExternalID row = Product.ExternalID p).
  { subst row. by destruct (Product.CreatedAt p =? 0). }
  destruct Hrow as [HrowID Hrowext].
  destruct (N.eqb_spec (Product.ID p) 0) as [H0|Hn0].
  - destruct (existsb _ rows); [done|]. injection H as <- <-. split.
    + rewrite fmap_app. apply NoDup_app. split; [done|]. split.
      * intros x Hx Hx'. simpl in Hx'. apply list_elem_of_singleton in Hx'.
        apply fresh_id_gt in Hx. simpl in Hx'. lia.
      * apply NoDup_singleton.
    + intros x Hx. exists x. split; [|done]. apply elem_of_app. by left.
  - destruct Hp as [?|(ep & Hep & Hid & Hext)]; [done|].
    destruct (existsb (fun r => String.eqb _ _ && _) rows); [done|].
    assert (Hex : existsb (fun r => N.eqb (Product.ID r) (Product.ID p)) rows = true).
    { apply existsb_exists. exists ep. split; [by apply list_elem_of_In|]. by apply N.eqb_eq. }
    rewrite Hex in H. injection H as <- <-. split.
    + rewrite <- list_fmap_compose.
      erewrite list_fmap_ext; [exact Hnd|]. intros i x _. simpl.
      destruct (N.eqb_spec (Product.ID x) (Product.ID p)); congruence.
    + intros x Hx.
      exists (if N.eqb (Product.ID x) (Product.ID p) then row else x). split.
      * apply (list_elem_of_fmap_2 (fun r => if N.eqb (Product.ID r) (Product.ID p) then row else r)).
        done.
      * destruct (N.eqb_spec (Product.ID x) (Product.ID p)) as [Heq|]; [|done].
        assert (x = ep) as -> by (eapply NoDup_fmap_eq; eauto; congruence).
        congruence.
Qed.

Lemma stored_item_Some d e ep :
  stored_item d e = Some ep -> ep ∈ products d /\ Product.ExternalID ep = e.
Proof.
  unfold stored_item. intros H. apply find_some in H as [Hin Heq].
  split; [by apply list_elem_of_In|]. by apply String.eqb_eq.
Qed.

Lemma upsert_products p d u d' :
  upsert p d = inr (u, d') ->
  exists pid, upsert_product (clock d) p (products d) = inr (pid, products d').
Proof.
  unfold upsert. intros H.
  destruct (upsert_product (clock d) p (products d)) as [e|[pid prows]]; [done|].
  destruct (upsert_variants pid (Product.Variants p) (variants d)) as [e|vrows]; [done|].
  injection H as _ <-. by exists pid.
Qed.

Lemma saveProduct_keeps_items r c res c' :
  saveProduct (scraper.product_of r) c = (res, c') ->
  product_ids_unique (committed c) ->
  product_ids_unique (committed c')
  /\ (forall e, stored (committed c) e -> stored (committed c') e)
  /\ (res = inr tt -> stored (committed c') (scraper.ID r)).
Proof.
  intros H Hnd.
  apply saveProduct_inv in H as [(e & -> & Hc & _)|(-> & _ & found & Hfound & H)].
  { rewrite Hc. split; [done|]. split; [done|]. done. }
  assert (Hcase : Product.ID (fst (fst (reconcile (committed c) found (scraper.product_of r)))) = 0%N
          \/ exists ep, ep ∈ products (committed c)
               /\ Product.ID ep = Product.ID (fst (fst (reconcile (committed c) found (scraper.product_of r))))
               /\ Product.ExternalID ep = Product.ExternalID (fst (fst (reconcile (committed c) found (scraper.product_of r))))).
  { destruct found as [ep|]; simpl; [|by left].
    destruct Hfound as [Hf|]; [|done]. symmetry in Hf.
    apply stored_item_Some in Hf as [Hin Hext]. right. by exists ep. }
  assert (Hext : Product.ExternalID (fst (fst (reconcile (committed c) found (scraper.product_of r))))
                 = scraper.ID r).
  { by destruct found. }
  destruct (reconcile (committed c) found (scraper.product_of r)) as [[p Ph] Sh]. simpl in *.
  destruct H as (d' & Hup & ->).
  destruct (upsert_products _ _ _ _ Hup) as [pid Hpr].
  destruct (upsert_product_keeps _ _ _ _ _ Hpr Hnd Hcase) as [Hnd' Hkeep].
  unfold product_ids_unique, stored. simpl. split; [done|]. split.
  - intros e (x & Hx & <-). by apply Hkeep.
  - intros _. rewrite <- Hext. eapply upsert_product_row. exact Hpr.
Qed.


Lemma PublishMessage_written {A} topic key (data : A) k :
  messaging.written (snd (messaging.PublishMessage topic key data k)) = messaging.written k
  \/ (fst (messaging.PublishMessage topic key data k) = None
      /\ messaging.written (snd (messaging.PublishMessage topic key data k))
         = messaging.written k ++ [(topic, key, data)]).
Proof.
  unfold messaging.PublishMessage.
  destruct (messaging.failures k) as [|[] rest]; simpl; auto.
Qed.

Lemma crawlAndPublish_announced before productID w :
  announced_stored ProductTopic before w ->
  announced_stored ProductTopic before (crawlAndPublish ProductTopic productID w)
  /\ forall e, stored (committed (database (service w))) e ->
               stored (committed (database (service (crawlAndPublish ProductTopic productID w)))) e.
Proof.
  intros [Hnd Hw]. unfold crawlAndPublish, scraper.GetProductDetails.
  destruct (scraper.details (scraper w)) as [|[r|] rest]; simpl; [done..| |done].
  destruct (saveProduct (scraper.product_of r) (database (service w))) as [res c] eqn:Hsave.
  destruct (saveProduct_keeps_items _ _ _ _ Hsave Hnd) as (Hnd' & Hkeep & Hnew).
  destruct res as [e|[]]; simpl.
  - split; [|done]. split; [done|]. intros topic key update Hin.
    destruct (Hw _ _ _ Hin) as [?|(? & ? & ?)]; auto.
  - split; [|done]. split; [done|]. intros topic key update Hin.
    unfold publishProductUpdate in Hin.
    cbn [kafka with_kafka service with_service database with_database] in Hin |- *.
    match type of Hin with context [messaging.PublishMessage ?t ?k ?d ?c] =>
      destruct (PublishMessage_written t k d c) as [Heq|[_ Heq]]; rewrite Heq in Hin end.
    + destruct (Hw _ _ _ Hin) as [?|(? & ? & ?)]; auto.
    + apply elem_of_app in Hin as [Hin|Hin].
      * destruct (Hw _ _ _ Hin) as [?|(? & ? & ?)]; auto.
      * apply list_elem_of_singleton in Hin. injection Hin as -> -> ->. right.
        simpl. auto.
Qed.

Lemma crawl_batch_announced before batch : forall w,
  announced_stored ProductTopic before w ->
  announced_stored ProductTopic before
    (foldl (fun w productID => crawlAndPublish ProductTopic productID w) w batch)
  /\ forall e, stored (committed (database (service w))) e ->
       stored (committed (database (service
         (foldl (fun w productID => crawlAndPublish ProductTopic productID w) w batch)))) e.
Proof.
  induction batch as [|id batch IH]; intros w Hw; simpl; [done|].
  destruct (crawlAndPublish_announced before id w Hw) as [H1 H2].
  destruct (IH _ H1) as [H3 H4]. split; [done|]. auto.
Qed.

Lemma announced_stored_start w :
  product_ids_unique (committed (database (service w))) ->
  announced_stored ProductTopic (messaging.written (kafka w)) w.
Proof. intros H. split; [done|]. auto. Qed.

(** X2.  When product rows have distinct identities, a periodic tick
    keeps them distinct, removes no stored product, and every message it has
    added to the product topic carries the external identifier of a product
    that is stored when the tick ends. *)
Theorem ticks_announce_stored_items (iteration : list (string * Z)) (w : Crawl) :
  product_ids_unique (observable (database (service w))) ->
  forall w',
    w' = regularPriorityTick ProductTopic iteration w
    \/ w' = highPriorityTick ProductTopic iteration w ->
    product_ids_unique (observable (database (service w')))
    /\ (forall row, row ∈ products (observable (database (service w))) ->
          exists row', row' ∈ products (observable (database (service w')))
                       /\ Product.ExternalID row' = Product.ExternalID row)
    /\ forall topic key update,
         (topic, key, update) ∈ messaging.written (kafka w') ->
         (topic, key, update) ∈ messaging.written (kafka w)
         \/ (topic = ProductTopic /\ ProductUpdate.ExternalID update = key
             /\ exists row, row ∈ products (observable (database (service w')))
                            /\ Product.ExternalID row = key).
Proof.
  intros Hnd w' Hw'.
  assert (H : exists batch s,
            w' = foldl (fun w productID => crawlAndPublish ProductTopic productID w)
                       (with_service s w) batch
            /\ database s = database (service w)).
  { destruct Hw' as [->| ->].
    - unfold regularPriorityTick, crawlRegularPriorityProducts. by eexists _, _.
    - unfold highPriorityTick, crawlHighPriorityProducts. by eexists _, _. }
  destruct H as (batch & s & -> & Hdb).
  assert (Hstart : announced_stored ProductTopic (messaging.written (kafka w)) (with_service s w)).
  { split; [simpl; by rewrite Hdb|]. simpl. auto. }
  destruct (crawl_batch_announced _ batch _ Hstart) as [[H1 H2] H3].
  split; [done|]. split.
  - intros row Hrow. apply (H3 (Product.ExternalID row)). simpl. rewrite Hdb. by exists row.
  - exact H2.
Qed.


Lemma saveProduct_stores product c c' :
  saveProduct product c = (inr tt, c') ->
  stored (committed c') (Product.ExternalID product) /\ tx c' = TxCommitted.
Proof.
  intros H.
  apply saveProduct_inv in H as [(e & He & _)|(_ & Htx & found & _ & H)]; [done|].
  split; [|done].
  assert (Hext : Product.ExternalID (fst (fst (reconcile (committed c) found product)))
                 = Product.ExternalID product) by (by destruct found).
  destruct (reconcile (committed c) found product) as [[p Ph] Sh]. simpl in *.
  destruct H as (d' & Hup & ->).
  destruct (upsert_products _ _ _ _ Hup) as [pid Hpr].
  rewrite <- Hext. eapply upsert_product_row. exact Hpr.
Qed.

Lemma saveProduct_autocommit product c r c' :
  saveProduct product c = (r, c') -> autocommit c -> autocommit c'.
Proof.
  intros H Hc work.
  apply saveProduct_inv in H
    as [(e & _ & _ & [[_ ->]|[[_ ->]|[_ ->]]])|(_ & -> & _)]; done.
Qed.

Lemma First_product_by_external_id_inv e c r c' :
  First_product_by_external_id e c = (r, c') ->
  autocommit c ->
  committed c' = committed c /\ autocommit c'
  /\ forall p, r = inr p -> p ∈ products (committed c) /\ Product.ExternalID p = e.
Proof.
  unfold First_product_by_external_id, statement, draw, autocommit.
  intros H Hc.
  assert (Hcur : forall c1, tx c1 = tx c -> current c1 = committed c1).
  { intros c1 H1. unfold current. rewrite H1.
    destruct (tx c) eqn:Htx; try done. by destruct (Hc work). }
  assert (Hput : forall c1, tx c1 = tx c -> put (committed c1) c1 = c1).
  { intros [d t fs] H1. unfold put. simpl in *. rewrite H1.
    destruct (tx c) eqn:Htx; try done. by destruct (Hc work). }
  destruct (faults c) as [|[] fs] eqn:Hf.
  - rewrite (Hcur c eq_refl) in H.
    destruct (List.find _ (products (committed c))) as [p|] eqn:Hfind.
    + rewrite (Hput c eq_refl) in H. injection H as <- <-. split; [done|]. split; [done|].
      intros p' [= <-]. by apply stored_item_Some.
    + injection H as <- <-. done.
  - injection H as <- <-. simpl. done.
  - rewrite Hcur in H; [|done]. simpl in H.
    destruct (List.find _ (products (committed c))) as [p|] eqn:Hfind.
    + pose proof (Hput (mkConn (committed c) (tx c) fs) eq_refl) as Hp'. simpl in Hp'.
      rewrite Hp' in H.
      injection H as <- <-. simpl. split; [done|]. split; [done|].
      intros p' [= <-]. by apply stored_item_Some.
    + injection H as <- <-. simpl. done.
Qed.

(** X3.  The crawl of one product requested through the API
    publishes the update although [saveProduct] has failed and the store is as
    it was, where the loop of the periodic ticks publishes nothing. *)
Theorem crawlProduct_announces_unsaved_product (id : string) (w : Crawl)
    (r : scraper.result) (rest : list (option scraper.result)) (e : error) (c : Conn) :
  scraper.details (scraper w) = Some r :: rest ->
  saveProduct (scraper.product_of r) (database (service w)) = (inl e, c) ->
  hd false (messaging.failures (kafka w)) = false ->
  messaging.written (kafka (crawlProduct ProductTopic id w))
  = messaging.written (kafka w)
      ++ [(ProductTopic, scraper.ID r,
           ProductUpdate.mk (scraper.ID r) (scraper.Name r) (scraper.IsInStock r))]
  /\ observable (database (service (crawlProduct ProductTopic id w)))
     = observable (database (service w))
  /\ messaging.written (kafka (crawlAndPublish ProductTopic id w))
     = messaging.written (kafka w).
Proof.
  intros Hd Hsave Hk.
  unfold crawlProduct, crawlAndPublish, scraper.GetProductDetails. rewrite Hd.
  cbn [scraper with_scraper service with_service kafka with_kafka database with_database].
  rewrite Hsave.
  cbn [snd scraper with_scraper service with_service kafka with_kafka database with_database].
  split; [|split; [|done]].
  - unfold publishProductUpdate, messaging.PublishMessage.
    destruct (messaging.failures (kafka w)) as [|[] fs]; simpl in *; done.
  - apply saveProduct_inv in Hsave as [(e' & _ & Hc & _)|(? & _)]; [|done].
    exact Hc.
Qed.

Lemma ensurePriority_table id s :
  priorityList (ensurePriority id s)
  = match priorityList s !! id with
    | Some _ => priorityList s
    | None => <[id := 1]> (priorityList s)
    end
  /\ database (ensurePriority id s) = database s.
Proof.
  unfold ensurePriority, priorityList_exists. simpl.
  destruct (priorityList s !! id) as [band|] eqn:Hl.
  - rewrite bool_decide_eq_true_2; [done|]. by eexists.
  - rewrite bool_decide_eq_false_2; [done|]. by intros [? ?].
Qed.

Lemma crawlAndPublish_autocommit productID w :
  autocommit (database (service w)) ->
  autocommit (database (service (crawlAndPublish ProductTopic productID w))).
Proof.
  intros Hc. unfold crawlAndPublish, scraper.GetProductDetails.
  destruct (scraper.details (scraper w)) as [|[r|] rest]; simpl; [done..| |done].
  destruct (saveProduct (scraper.product_of r) (database (service w))) as [res c] eqn:Hsave.
  apply saveProduct_autocommit in Hsave; [|done].
  by destruct res as [e|[]].
Qed.

Lemma discoverProduct_discovered table before productID w :
  discovered ProductTopic table before w ->
  discovered ProductTopic table before (discoverProduct ProductTopic productID w).
Proof.
  intros (Hann & Hauto & Hold & Hnew). unfold discoverProduct.
  destruct (First_product_by_external_id productID (database (service w)))
    as [res c] eqn:Hfirst.
  destruct (First_product_by_external_id_inv _ _ _ _ Hfirst Hauto) as (Hc & Hauto' & Hp).
  destruct res as [e|p].
  - set (w1 := with_service (with_database c (service w)) w).
    assert (Hann1 : announced_stored ProductTopic before w1).
    { destruct Hann as [Hnd Hw]. split; simpl; [by rewrite Hc|].
      intros topic key update Hin. rewrite Hc. by apply Hw. }
    destruct (crawlAndPublish_announced before productID w1 Hann1) as [Hann2 Hkeep].
    destruct (crawlAndPublish_table productID w1) as [Ht _].
    split; [done|]. split; [by apply crawlAndPublish_autocommit|].
    rewrite Ht. simpl. split; [done|].
    intros id band Hid. destruct (Hnew _ _ Hid) as [?|(? & ? & Hst)]; [by left|].
    right. split; [done|]. split; [done|]. apply Hkeep. simpl. by rewrite Hc.
  - destruct (Hp p eq_refl) as [Hin Hext].
    destruct (ensurePriority_table productID (with_database c (service w))) as [Ht Hdb].
    cbn [priorityList database with_database] in Ht, Hdb.
    set (s' := ensurePriority productID (with_database c (service w))) in *.
    unfold discovered, announced_stored.
    cbn [service with_service kafka]. rewrite Hdb, Ht, Hc.
    split; [|split; [|split]].
    + by destruct Hann.
    + done.
    + intros id band Hid.
      destruct (priorityList (service w) !! productID) eqn:Hl; [by apply Hold|].
      destruct (decide (id = productID)) as [->|Hne].
      * apply Hold in Hid. congruence.
      * rewrite lookup_insert_ne; [by apply Hold|done].
    + intros id band.
      destruct (priorityList (service w) !! productID) eqn:Hl; [by apply Hnew|].
      destruct (decide (id = productID)) as [->|Hne].
      * rewrite lookup_insert_eq. intros [= <-].
        destruct (table !! productID) as [b|] eqn:Htb.
        -- apply Hold in Htb. congruence.
        -- right. split; [done|]. split; [done|]. by exists p.
      * rewrite lookup_insert_ne; [by apply Hnew|done].
Qed.

Lemma discover_batch_discovered table before productIDs : forall w,
  discovered ProductTopic table before w ->
  discovered ProductTopic table before
    (foldl (fun w productID => discoverProduct ProductTopic productID w) w productIDs).
Proof.
  induction productIDs as [|id ids IH]; intros w Hw; simpl; [done|].
  apply IH. by apply discoverProduct_discovered.
Qed.

Lemma crawlProductsByCategory_discovered table before categories : forall w,
  discovered ProductTopic table before w ->
  discovered ProductTopic table before (crawlProductsByCategory ProductTopic categories w).
Proof.
  unfold crawlProductsByCategory.
  induction categories as [|category categories IH]; intros w Hw; simpl; [done|].
  apply IH. unfold scraper.GetProductIDsByCategory.
  destruct (scraper.listings (scraper w)) as [|[productIDs|] rest]; [done| |done].
  by apply discover_batch_discovered.
Qed.

(** X4.  The discovery pass over the categories never changes or
    removes a band that is in the table; what it adds is band 1, and only for
    a product that is stored; so it keeps every band within [0, 10]. *)
Theorem crawlProductsByCategory_only_adds_band_1 (categories : list string) (w : Crawl) :
  product_ids_unique (observable (database (service w))) ->
  tx (database (service w)) = NoTx ->
  let table := priorityList (service w) in
  let w' := crawlProductsByCategory ProductTopic categories w in
  (forall id band, table !! id = Some band ->
     priorityList (service w') !! id = Some band)
  /\ (forall id band, priorityList (service w') !! id = Some band ->
        table !! id = Some band
        \/ (table !! id = None /\ band = 1
            /\ exists row, row ∈ products (observable (database (service w')))
                           /\ Product.ExternalID row = id))
  /\ (bands_valid table -> bands_valid (priorityList (service w'))).
Proof.
  intros Hnd Htx table w'.
  assert (Hstart : discovered ProductTopic table (messaging.written (kafka w)) w).
  { split; [by apply announced_stored_start|]. split.
    - intros work. by rewrite Htx.
    - split; [done|]. intros id band Hid. by left. }
  apply (crawlProductsByCategory_discovered _ _ categories) in Hstart.
  destruct Hstart as (_ & _ & Hold & Hnew). fold w' in Hold, Hnew.
  split; [done|]. split; [done|].
  intros Hv id band Hid. destruct (Hnew _ _ Hid) as [Ht|(_ & -> & _)]; [by eapply Hv|lia].
Qed.

(** X5.  A product that the discovery pass stores for the first time is
    stored and left without a band: the table is unchanged, so neither tick
    selects it. *)
Theorem discovered_product_gets_no_band (productID : string) (w : Crawl)
    (e : error) (c c' : Conn) (r : scraper.result) (rest : list (option scraper.result)) :
  First_product_by_external_id productID (database (service w)) = (inl e, c) ->
  scraper.details (scraper w) = Some r :: rest ->
  saveProduct (scraper.product_of r) c = (inr tt, c') ->
  let w' := discoverProduct ProductTopic productID w in
  (exists row, row ∈ products (observable (database (service w')))
               /\ Product.ExternalID row = scraper.ID r)
  /\ priorityList (service w') = priorityList (service w)
  /\ forall iteration,
       iteration ≡ₚ map_to_list (priorityList (service w')) ->
       priorityList (service w) !! (scraper.ID r) = None ->
       (scraper.ID r ∉ fst (crawlRegularPriorityProducts iteration (service w')))
       /\ (scraper.ID r ∉ fst (crawlHighPriorityProducts iteration (service w'))).
Proof.
  intros Hfirst Hd Hsave w'.
  assert (Hw' : w' = with_kafka
                  (snd (publishProductUpdate ProductTopic (scraper.product_of r) (kafka w)))
                  (with_service (with_database c' (service w))
                     (with_scraper (scraper.mkScraper rest (scraper.listings (scraper w))) w))).
  { subst w'. unfold discoverProduct. rewrite Hfirst.
    unfold crawlAndPublish, scraper.GetProductDetails.
    cbn [scraper with_scraper service with_service kafka with_kafka database with_database].
    rewrite Hd.
    cbn [scraper with_scraper service with_service kafka with_kafka database with_database].
    by rewrite Hsave. }
  assert (Ht : priorityList (service w') = priorityList (service w)) by (by rewrite Hw').
  split; [|split; [done|]].
  - rewrite Hw'. simpl. apply (saveProduct_stores _ _ _ Hsave).
  - intros iteration Hperm Hnone. rewrite <- Ht in Hnone.
    split; intros Hin.
    + assert (Hin' : scraper.ID r
                     ∈ fst <$> List.filter (fun entry => snd entry <? 5) iteration).
      { unfold crawlRegularPriorityProducts in Hin. simpl in Hin.
        match type of Hin with context [if ?b then _ else _] => destruct b end;
          [|done].
        apply elem_of_take in Hin as (i & Hi & _). by eapply list_elem_of_lookup_2. }
      apply (elem_of_selection _ _ _ _ Hperm) in Hin' as (band & Hb & _). congruence.
    + apply (elem_of_selection _ _ _ _ Hperm) in Hin as (band & Hb & _). congruence.
Qed.

Lemma latest_band_snoc id reads read :
  latest_band id (reads ++ [read])
  = match read with
    | Some (Some (ProductID, Priority)) =>
        if String.eqb ProductID id then Some Priority else latest_band id reads
    | _ => latest_band id reads
    end.
Proof. unfold latest_band. by rewrite foldl_app. Qed.

Lemma consumePriorityUpdates_lookup
    (reads : list (option (option (string * Z)))) (s : Service) (id : string) :
  priorityList (consumePriorityUpdates reads s) !! id
  = match latest_band id reads with
    | Some band => Some band
    | None => priorityList s !! id
    end
  /\ database (consumePriorityUpdates reads s) = database s.
Proof.
  unfold consumePriorityUpdates, messaging.ConsumeMessages.
  induction reads as [|read reads IH] using rev_ind; [done|].
  rewrite foldl_app, latest_band_snoc. simpl.
  destruct read as [[[ProductID Priority]|]|]; simpl; try done.
  destruct IH as [IH1 IH2]. split; [|done].
  destruct (String.eqb_spec ProductID id) as [->|Hne].
  - by rewrite lookup_insert_eq.
  - rewrite lookup_insert_ne; done.
Qed.


(** X6.  The listener on the priority topic goes on after a failed
    read or an undecodable message; for every identifier the band it leaves is
    that of the last update naming it, and the band it had when no update
    names it.  It never touches the store. *)
Theorem consumePriorityUpdates_last_update_wins
    (reads : list (option (option (string * Z)))) (s : Service) (id : string) :
  priorityList (consumePriorityUpdates reads s) !! id
  = match latest_band id reads with
    | Some band => Some band
    | None => priorityList s !! id
    end
  /\ database (consumePriorityUpdates reads s) = database s.
Proof. apply consumePriorityUpdates_lookup. Qed.

End crawl_loops.

(** The high-priority tick on the sample item, band 7. *)
Lemma ticks_announce_stored_items_witness :
  let w := sample_crawl sample_tables [] [Some sample_result] [] {[ "p1" := 7 ]} in
  let w' := crawler.highPriorityTick "product-updates"
              (map_to_list (crawler.priorityList (crawler.service w))) w in
  product_ids_unique (db.observable (crawler.database (crawler.service w')))
  /\ messaging.written (crawler.kafka w') = [announcement "product-updates" sample_result].
Proof.
  intros w w'.
  destruct (ticks_announce_stored_items "product-updates"
              (map_to_list (crawler.priorityList (crawler.service w))) w) with (w' := w')
    as (H & _).
  - apply NoDup_singleton.
  - right. reflexivity.
  - split; [exact H|]. vm_compute. reflexivity.
Defined.

(** The sample item fetched while the store fails the save. *)
Lemma crawlProduct_announces_unsaved_product_witness :
  let w := sample_crawl sample_tables save_fails [Some sample_result] [] ∅ in
  messaging.written (crawler.kafka (crawler.crawlProduct "product-updates" "p1" w))
  = [announcement "product-updates" sample_result]
  /\ messaging.written (crawler.kafka (crawler.crawlAndPublish "product-updates" "p1" w))
     = [].
Proof.
  intros w.
  destruct (crawlProduct_announces_unsaved_product "product-updates" "p1" w sample_result []
              (Errorf "failed to save product" ErrStatement)
              (snd (crawler.saveProduct (scraper.product_of sample_result)
                      (db.connect sample_tables save_fails))))
    as (H1 & _ & H2).
  - reflexivity.
  - vm_compute. reflexivity.
  - reflexivity.
  - split; [exact H1|exact H2].
Defined.

(** A category that lists the stored sample item and an item not yet stored. *)
Lemma crawlProductsByCategory_only_adds_band_1_witness :
  let w := sample_crawl sample_tables [] [Some new_result] [Some ["p1"; "p2"]] ∅ in
  let w' := crawler.crawlProductsByCategory "product-updates" ["c1"] w in
  bands_valid (crawler.priorityList (crawler.service w'))
  /\ crawler.priorityList (crawler.service w') !! "p1" = Some 1
  /\ crawler.priorityList (crawler.service w') !! "p2" = None.
Proof.
  intros w w'.
  destruct (crawlProductsByCategory_only_adds_band_1 "product-updates" ["c1"] w)
    as (_ & _ & H).
  - apply NoDup_singleton.
  - reflexivity.
  - split; [apply H; intros id band Hl; by destruct (lookup_empty_Some (M := gmap string) id band)|].
    split; vm_compute; reflexivity.
Defined.

(** The discovery of an item that is not stored. *)
Lemma discovered_product_gets_no_band_witness :
  let w := sample_crawl sample_tables [] [Some new_result] [] ∅ in
  let w' := crawler.discoverProduct "product-updates" "p2" w in
  crawler.priorityList (crawler.service w') = ∅
  /\ item_rows (db.observable (crawler.database (crawler.service w'))) "p2" = 1%nat.
Proof.
  intros w w'.
  destruct (discovered_product_gets_no_band "product-updates" "p2" w ErrRecordNotFound
              (db.connect sample_tables [])
              (snd (crawler.saveProduct (scraper.product_of new_result)
                      (db.connect sample_tables [])))
              new_result [])
    as (_ & H & _).
  - vm_compute. reflexivity.
  - reflexivity.
  - vm_compute. reflexivity.
  - split; [exact H|]. vm_compute. reflexivity.
Defined.

Section trending.

Lemma updatePriorities_written (trendingProducts : list Product.t) :
  forall k : messaging.KafkaClient (string * Z),
  exists new,
    messaging.written (analyzer.updatePriorities trendingProducts k)
    = messaging.written k ++ new
    /\ Forall (fun m => exists product, product ∈ trendingProducts
                 /\ m = ("product-priorities", Product.ExternalID product,
                         (Product.ExternalID product, 8))) new
    /\ (messaging.failures k = [] ->
        new = (fun product => ("product-priorities", Product.ExternalID product,
                               (Product.ExternalID product, 8))) <$> trendingProducts).
Proof.
  unfold analyzer.updatePriorities.
  induction trendingProducts as [|product products IH]; intros k.
  - exists []. simpl. by rewrite app_nil_r.
  - cbn [foldl].
    match goal with |- context [foldl ?f ?k1 products] =>
      destruct (IH k1) as (new & Hw & Hall & Hnf) end.
    assert (Hall' : Forall (fun m => exists product0, product0 ∈ product :: products
                 /\ m = ("product-priorities", Product.ExternalID product0,
                         (Product.ExternalID product0, 8))) new).
    { eapply Forall_impl; [exact Hall|]. intros m (p & Hp & ->). exists p. split; [|done].
      apply elem_of_cons. by right. }
    rewrite Hw. clear Hw.
    unfold messaging.PublishMessage in *.
    destruct (messaging.failures k) as [|[] rest] eqn:Hf; simpl in *.
    + eexists (_ :: new). rewrite <- app_assoc. split; [done|]. split.
      * constructor; [|done]. exists product. split; [|done]. apply elem_of_cons. by left.
      * intros _. by rewrite Hnf.
    + exists new. done.
    + eexists (_ :: new). rewrite <- app_assoc. split; [done|]. split.
      * constructor; [|done]. exists product. split; [|done]. apply elem_of_cons. by left.
      * done.
Qed.

Lemma latest_band_8 id (updates : list (string * Z)) :
  Forall (fun u => snd u = 8) updates ->
  (latest_band id ((fun u => Some (Some u)) <$> updates) = None
   /\ Forall (fun u => fst u <> id) updates)
  \/ latest_band id ((fun u => Some (Some u)) <$> updates) = Some 8.
Proof.
  induction updates as [|[pid band] updates IH] using rev_ind; intros Hall; [by left|].
  apply Forall_app in Hall as [Hall Hlast]. apply Forall_cons in Hlast as [Hband _].
  simpl in Hband. subst band.
  rewrite fmap_app. simpl. rewrite latest_band_snoc.
  destruct (String.eqb_spec pid id) as [->|Hne]; [by right|].
  destruct (IH Hall) as [[Hn Hf]|Hs]; [left|by right].
  split; [done|]. apply Forall_app. split; [done|]. by constructor.
Qed.

(** X7.  Every message of [updatePriorities] is an update to band 8 for
    a trending product; when the crawler has consumed them, bands that were
    within [0, 10] still are, and every product named is in the high-priority
    batch and not in the regular one. *)
Theorem trending_products_reach_the_high_band (trendingProducts : list Product.t)
    (failures : list bool) (s : crawler.Service) :
  let k := analyzer.updatePriorities trendingProducts (messaging.mkKafka [] failures) in
  let reads := (fun m => Some (Some (snd m))) <$> messaging.written k in
  let s' := crawler.consumePriorityUpdates reads s in
  (forall m, m ∈ messaging.written k ->
     exists product, product ∈ trendingProducts
       /\ m = ("product-priorities", Product.ExternalID product,
               (Product.ExternalID product, 8)))
  /\ (failures = [] ->
      messaging.written k
      = (fun product => ("product-priorities", Product.ExternalID product,
                         (Product.ExternalID product, 8))) <$> trendingProducts)
  /\ (bands_valid (crawler.priorityList s) -> bands_valid (crawler.priorityList s'))
  /\ (forall topic key id band,
        (topic, key, (id, band)) ∈ messaging.written k ->
        crawler.priorityList s' !! id = Some 8
        /\ forall iteration,
             iteration ≡ₚ map_to_list (crawler.priorityList s') ->
             id ∈ fst (crawler.crawlHighPriorityProducts iteration s')
             /\ (id ∉ fst (crawler.crawlRegularPriorityProducts iteration s'))).
Proof.
  intros k reads s'.
  destruct (updatePriorities_written trendingProducts (messaging.mkKafka [] failures))
    as (new & Hw & Hall & Hnf). fold k in Hw. simpl in Hw, Hnf. subst new.
  assert (Hreads : reads = (fun u => Some (Some u)) <$> (snd <$> messaging.written k)).
  { subst reads. by rewrite <- list_fmap_compose. }
  assert (H8 : Forall (fun u : string * Z => snd u = 8) (snd <$> messaging.written k)).
  { apply Forall_fmap. eapply Forall_impl; [exact Hall|]. by intros m (p & _ & ->). }
  assert (Hlookup : forall id,
            crawler.priorityList s' !! id = Some 8
            \/ (crawler.priorityList s' !! id = crawler.priorityList s !! id
                /\ Forall (fun u : string * Z => fst u <> id) (snd <$> messaging.written k))).
  { intros id. destruct (consumePriorityUpdates_lookup reads s id) as [Hl _].
    fold s' in Hl. rewrite Hl, Hreads.
    destruct (latest_band_8 id _ H8) as [[-> Hf]| ->]; auto. }
  split; [|split; [done|split]].
  - intros m Hm. rewrite Forall_forall in Hall. by apply Hall.
  - intros Hv id band Hid. destruct (Hlookup id) as [H|[H _]]; rewrite H in Hid.
    + injection Hid as <-. lia.
    + by eapply Hv.
  - intros topic key id band Hin.
    assert (Hs8 : crawler.priorityList s' !! id = Some 8).
    { destruct (Hlookup id) as [H|[_ H]]; [done|].
      rewrite Forall_forall in H. destruct (H (id, band)); [|done].
      apply list_elem_of_fmap. by exists (topic, key, (id, band)). }
    split; [done|]. intros iteration Hperm. split.
    + apply (elem_of_selection _ _ _ _ Hperm). exists 8. done.
    + intros Hreg.
      assert (Hin' : id ∈ fst <$> List.filter (fun entry => snd entry <? 5) iteration).
      { unfold crawler.crawlRegularPriorityProducts in Hreg. simpl in Hreg.
        match type of Hreg with context [if ?b then _ else _] => destruct b end;
          [|done].
        apply elem_of_take in Hreg as (i & Hi & _). by eapply list_elem_of_lookup_2. }
      apply (elem_of_selection _ _ _ _ Hperm) in Hin' as (b & Hb & Hlt).
      rewrite Hs8 in Hb. injection Hb as <-. done.
Qed.

End trending.

Section requested_crawls.
Import db crawler.
Variable ProductTopic : string.

Lemma crawlProducts_written productIDs : forall w,
  messaging.failures (kafka w) = [] ->
  let w' := foldl (fun w productID => crawlProduct ProductTopic productID w) w productIDs in
  messaging.written (kafka w')
  = messaging.written (kafka w)
      ++ (announcement ProductTopic
            <$> omap id (take (length productIDs) (scraper.details (scraper w))))
  /\ priorityList (service w') = priorityList (service w).
Proof.
  induction productIDs as [|productID productIDs IH]; intros w Hf; simpl.
  - by rewrite app_nil_r.
  - unfold crawlProduct at 2 4. unfold scraper.GetProductDetails.
    destruct (scraper.details (scraper w)) as [|[r|] ds] eqn:Hd.
    + destruct (IH (with_scraper (scraper w) w) Hf) as [-> ->]. simpl.
      by rewrite Hd, take_nil.
    + match goal with |- context [foldl ?f ?w1 productIDs] =>
        destruct (IH w1) as [-> ->] end.
      { simpl. unfold publishProductUpdate, messaging.PublishMessage. by rewrite Hf. }
      simpl. unfold publishProductUpdate, messaging.PublishMessage. rewrite Hf. simpl.
      by rewrite <- app_assoc.
    + match goal with |- context [foldl ?f ?w1 productIDs] =>
        destruct (IH w1) as [-> ->] end; done.
Qed.

(** X8.  The crawl of a category requested through the API, when the
    broker fails no write, publishes one update for every product whose
    details could be fetched, in the order of the listing, whatever became of
    [saveProduct], and leaves the priority table as it was. *)
Theorem crawlCategory_announces_every_fetched_product (category : string) (w : Crawl)
    (productIDs : list string) (rest : list (option (list string))) :
  scraper.listings (scraper w) = Some productIDs :: rest ->
  messaging.failures (kafka w) = [] ->
  let w' := crawlCategory ProductTopic category w in
  messaging.written (kafka w')
  = messaging.written (kafka w)
      ++ (announcement ProductTopic
            <$> omap id (take (length productIDs) (scraper.details (scraper w))))
  /\ priorityList (service w') = priorityList (service w).
Proof.
  intros Hl Hf w'. subst w'. unfold crawlCategory, scraper.GetProductIDsByCategory.
  rewrite Hl.
  by destruct (crawlProducts_written productIDs
                 (with_scraper (scraper.mkScraper (scraper.details (scraper w)) rest) w) Hf)
       as [-> ->].
Qed.






Lemma filter_none {A} (f : A -> bool) l :
  (forall x, x ∈ l -> f x = false) -> List.filter f l = [].
Proof.
  induction l as [|x l IH]; intros H; [done|]. simpl.
  rewrite (H x) by (apply elem_of_cons; by left).
  apply IH. intros y Hy. apply H. apply elem_of_cons. by right.
Qed.

Lemma filter_all {A} (f : A -> bool) l :
  (forall x, x ∈ l -> f x = true) -> List.filter f l = l.
Proof.
  induction l as [|x l IH]; intros H; [done|]. simpl.
  rewrite (H x) by (apply elem_of_cons; by left).
  f_equal. apply IH. intros y Hy. apply H. apply elem_of_cons. by right.
Qed.

(** X10.  A product stored for the first time by [saveProduct] is read
    back by [getProductByID] with the name, the URL and the activity the
    scraper read, under an identity of its own, and with its variants in the
    order of the response, each with the prices and the stock that were read. *)
Theorem stored_snapshot_is_read_back (r : scraper.result) (c c1 : Conn) (s : Service) :
  stored_item (observable c) (scraper.ID r) = None ->
  variants_belong (observable c) ->
  saveProduct (scraper.product_of r) c = (inr tt, c1) ->
  faults c1 = [] ->
  exists product,
    getProductByID (scraper.ID r) (with_database c1 s) = (inr product, with_database c1 s)
    /\ Product.ID product <> 0%N
    /\ Product.ExternalID product = scraper.ID r
    /\ Product.Name product = scraper.Name r
    /\ Product.URL product = scraper.URL r
    /\ Product.IsActive product = scraper.IsInStock r
    /\ Forall2 (holds_variant (Product.ID product))
               (Product.Variants product) (scraper.Variants r).
Proof.
  intros Hnew Hbelong Hsave Hfaults.
  destruct (saveProduct_unknown_item (scraper.product_of r) c c1)
    as (Htx & row & ins & Hc1 & Hid & Hext & Hname & Hurl & Hact & Htwin & Hsole);
    try done.
  { apply Forall_fmap, Forall_forall. done. }
  simpl in Hext, Hname, Hurl, Hact, Htwin.
  assert (Hconn : c1 = mkConn (committed c1) TxCommitted []).
  { destruct c1. simpl in *. by subst. }
  assert (Hidle : forall work, TxCommitted <> TxOpen work) by done.
  exists (Product.with_Variants ins row).
  split; [|split; [|split; [|split; [|split; [|split]]]]]; try done.
  - unfold getProductByID. cbn [database with_database]. rewrite Hconn.
    unfold First_product_by_external_id. rewrite statement_idle by done.
    rewrite Hc1. cbn [products with_products with_variants].
    rewrite find_app_None by exact Hnew. simpl.
    assert (He : String.eqb (Product.ExternalID row) (scraper.ID r) = true)
      by (by apply String.eqb_eq).
    rewrite He.
    unfold Find_variants_by_product_id. rewrite statement_idle by done.
    cbn [variants with_products with_variants]. rewrite List.filter_app.
    rewrite filter_none, filter_all; [done| |].
    + intros v Hv. apply N.eqb_eq.
      apply stored_as_ProductID in Htwin. rewrite Forall_forall in Htwin. by apply Htwin.
    + intros v Hv. apply N.eqb_neq. intros Heq.
      unfold variants_belong in Hbelong. rewrite Forall_forall in Hbelong.
      specialize (Hbelong v Hv). apply fresh_id_gt in Hbelong.
      unfold observable in Hbelong. lia.
  - simpl. rewrite Hid. apply fresh_id_nonzero.
  - simpl. apply Forall2_fmap_r in Htwin.
    assert (Hids : Forall (fun v => Variant.ID v <> 0%N) ins).
    { eapply Forall_impl; [exact Hsole|]. by intros x [Hx _]. }
    clear - Htwin Hids. induction Htwin as [|v rv ins rvs Hv Hrest IH]; [constructor|].
    apply Forall_cons in Hids as [Hv0 Hids].
    constructor; [|by apply IH].
    rewrite Hv. unfold holds_variant. simpl. rewrite Hv in Hv0. done.
Qed.


Lemma price_changes_item item m vs :
  forall h, h ∈ price_changes item m vs -> PriceHistory.ProductID h = item.
Proof.
  intros h Hh. unfold price_changes in Hh. apply list_elem_of_In, in_flat_map in Hh.
  destruct Hh as (v & _ & Hh). destruct (m !! Variant.ExternalID v) as [ev|]; [|done].
  unfold price_change in Hh. destruct (_ =? _)%float; [done|].
  destruct Hh as [<-|[]]. done.
Qed.

(** X11.  After a reconciliation of a stored product, [getPriceHistory]
    answers with the price records of that reconciliation, the last one first,
    followed by the earlier records of the product. *)
Theorem price_history_lists_the_latest_changes_first (r : scraper.result)
    (existing : Product.t) (c c' : Conn) (s : analyzer.Service) :
  stored_item (observable c) (scraper.ID r) = Some existing ->
  saveProduct (scraper.product_of r) c = (inr tt, c') ->
  faults c' = [] ->
  let item := Product.ID existing in
  analyzer.getPriceHistory (Some item) (analyzer.with_database c' s)
  = (inr (rev (price_changes item (stored_variants (observable c) item)
                             (Product.Variants (scraper.product_of r)))
          ++ rev (List.filter (fun h => N.eqb (PriceHistory.ProductID h) item)
                              (price_histories (observable c)))),
     analyzer.with_database c' s).
Proof.
  intros Hstored Hsave Hfaults item.
  apply saveProduct_inv in Hsave as [(e & [=] & _)|(_ & Htx & found & Hfound & Hrec)].
  assert (found = Some existing) as ->.
  { destruct Hfound as [-> | ->]; [done|]. simpl in Hrec. destruct Hrec as (d' & Hup & _).
    by rewrite (upsert_unidentified_known _ _ existing) in Hup. }
  cbn [reconcile] in Hrec. destruct Hrec as (d' & Hup & Hc').
  apply upsert_histories in Hup as [Hph _].
  assert (Hconn : c' = mkConn (committed c') TxCommitted []).
  { destruct c'. simpl in *. by subst. }
  unfold analyzer.getPriceHistory. cbn [analyzer.database analyzer.with_database].
  rewrite Hconn at 1. unfold Find_price_histories. rewrite statement_idle by done.
  rewrite <- Hconn. f_equal. f_equal.
  rewrite Hc'. cbn [price_histories add_histories]. rewrite Hph.
  rewrite List.filter_app, rev_app_distr. f_equal. f_equal.
  apply filter_all. intros h Hh. apply N.eqb_eq. by eapply price_changes_item.
Qed.

End requested_crawls.

(** A listing of three products, the second of which cannot be fetched, on a store that fails. *)
Lemma crawlCategory_announces_every_fetched_product_witness :
  let w := sample_crawl sample_tables [true] [Some sample_result; None; Some new_result]
             [Some ["p1"; "px"; "p2"]] ∅ in
  messaging.written (crawler.kafka (crawler.crawlCategory "product-updates" "c1" w))
  = [announcement "product-updates" sample_result;
     announcement "product-updates" new_result].
Proof.
  intros w.
  destruct (crawlCategory_announces_every_fetched_product "product-updates" "c1" w
              ["p1"; "px"; "p2"] []) as (H & _).
  - reflexivity.
  - reflexivity.
  - exact H.
Defined.


(** An item stored for the first time beside the sample item. *)
Lemma stored_snapshot_is_read_back_witness :
  let c := db.connect sample_tables [] in
  let c1 := snd (crawler.saveProduct (scraper.product_of new_result) c) in
  exists product,
    crawler.getProductByID "p2" (crawler.NewCrawlerService c1)
    = (inr product, crawler.NewCrawlerService c1)
    /\ Product.Name product = "Hat"
    /\ length (Product.Variants product) = 1%nat.
Proof.
  intros c c1.
  destruct (stored_snapshot_is_read_back new_result c c1 (crawler.NewCrawlerService c1))
    as (product & H & _ & _ & Hname & _ & _ & Hv).
  - reflexivity.
  - unfold variants_belong. simpl. repeat constructor.
  - vm_compute. reflexivity.
  - vm_compute. reflexivity.
  - exists product. split; [exact H|]. split; [exact Hname|].
    rewrite (Forall2_length _ _ _ Hv). reflexivity.
Defined.

(** The sample snapshot reconciled, and the history read. *)
Lemma price_history_lists_the_latest_changes_first_witness :
  let c := db.connect sample_tables [] in
  let c' := snd (crawler.saveProduct (scraper.product_of sample_result) c) in
  analyzer.getPriceHistory (Some 1%N)
    (analyzer.with_database c' (sample_analyzer sample_tables []))
  = (inr [PriceHistory.mk 1 1 100 80 (-20)],
     analyzer.with_database c' (sample_analyzer sample_tables [])).
Proof.
  intros c c'.
  rewrite (price_history_lists_the_latest_changes_first sample_result
             (Product.mk 1 5 "p1" "Shoe" "https://shop.example/p1" true []) c c').
  - vm_compute. reflexivity.
  - reflexivity.
  - vm_compute. reflexivity.
  - vm_compute. reflexivity.
Defined.

(** ** The alerts of the analyzer *)

Section alerts.
Import db analyzer.

Lemma alertsOf_appendAlert id alert s other :
  alertsOf other (appendAlert id alert s)
  = if decide (other = id) then alertsOf id s ++ [alert] else alertsOf other s.
Proof.
  unfold appendAlert, alertsOf. simpl.
  destruct (decide (other = id)) as [->|Hne].
  - by rewrite lookup_insert_eq.
  - by rewrite lookup_insert_ne.
Qed.

Lemma deletePriceAlert_inv (id userID productID : N) (s : Service) :
  let r := deletePriceAlert (Some id) (Some (userID, productID)) s in
  (Forall (fun a => UserID a <> userID) (alertsOf productID s) ->
     fst r = inl (StatusNotFound "Price alert not found")
     /\ priceAlerts (snd r) = priceAlerts s)
  /\ (forall before alert after,
        alertsOf productID s = before ++ alert :: after ->
        Forall (fun a => UserID a <> userID) before ->
        UserID alert = userID ->
        fst r = inr tt
        /\ alertsOf productID (snd r) = before ++ after
        /\ forall other, other <> productID -> alertsOf other (snd r) = alertsOf other s)
  /\ database (snd r) = database s
  /\ kafka (snd r) = kafka s.
Proof.
  intros r. subst r. unfold deletePriceAlert, alertsOf.
  destruct (priceAlerts s !! productID) as [alerts|] eqn:Hl; simpl.
  - destruct (list_find (fun alert => UserID alert = userID) alerts) as [[i a]|] eqn:Hfind.
    + simpl. split; [|split; [|done]].
      * intros Hall. apply list_find_Some in Hfind as (Hi & Ha & _).
        apply list_elem_of_lookup_2 in Hi.
        rewrite Forall_forall in Hall. by destruct (Hall a Hi).
      * intros before alert after -> Hbefore Halert.
        apply list_find_Some in Hfind as (Hi & Ha & Hmin).
        assert (i = length before) as ->.
        { destruct (Nat.lt_trichotomy i (length before)) as [Hlt|[Heq|Hgt]]; [|done|].
          - rewrite lookup_app_l in Hi by done.
            apply list_elem_of_lookup_2 in Hi. rewrite Forall_forall in Hbefore.
            by destruct (Hbefore a Hi).
          - exfalso. apply (Hmin (length before) alert); [|done|done].
            by rewrite list_lookup_middle. }
        split; [done|]. split.
        -- rewrite lookup_insert_eq. simpl.
           rewrite <- delete_take_drop. apply delete_middle.
        -- intros other Hne. by rewrite lookup_insert_ne.
    + simpl. split; [done|]. split; [|done].
      intros before alert after -> Hbefore Halert.
      apply list_find_None in Hfind. rewrite Forall_forall in Hfind.
      destruct (Hfind alert); [|done].
      apply elem_of_app. right. apply elem_of_cons. by left.
  - split; [done|]. split; [|done].
    intros before alert after Heq. by destruct before.
Qed.


(** X12.  [deletePriceAlert] answers 404 and changes nothing when the
    user has no alert on the product; otherwise it removes the first alert of
    the product that belongs to the user, whatever alert the path names, and
    keeps every other alert in its order.  It never touches the store. *)
Theorem deletePriceAlert_removes_first (id userID productID : N) (s : Service) :
  let r := deletePriceAlert (Some id) (Some (userID, productID)) s in
  (Forall (fun a => UserID a <> userID) (alertsOf productID s) ->
     fst r = inl (StatusNotFound "Price alert not found")
     /\ priceAlerts (snd r) = priceAlerts s)
  /\ (forall before alert after,
        alertsOf productID s = before ++ alert :: after ->
        Forall (fun a => UserID a <> userID) before ->
        UserID alert = userID ->
        fst r = inr tt
        /\ alertsOf productID (snd r) = before ++ after
        /\ forall other, other <> productID -> alertsOf other (snd r) = alertsOf other s)
  /\ database (snd r) = database s
  /\ kafka (snd r) = kafka s.
Proof. apply deletePriceAlert_inv. Qed.

Lemma first_of_user u (l : list priceAlert) :
  Forall (fun x => UserID x <> u) l
  \/ exists before older after,
       l = before ++ older :: after
       /\ Forall (fun x => UserID x <> u) before /\ UserID older = u.
Proof.
  induction l as [|x l IH]; [by left|].
  destruct (decide (UserID x = u)) as [Hx|Hx].
  - right. exists [], x, l. done.
  - destruct IH as [IH|(before & older & after & -> & Hb & Ho)].
    + left. by constructor.
    + right. exists (x :: before), older, after. split; [done|]. split; [|done].
      by constructor.
Qed.

Lemma loadPriceAlerts_loop (favorites : list (UserFavorite.t * Product.t)) p : forall s,
  alertsOf p
    (foldl (fun s favorite =>
              let alert := mkAlert (UserFavorite.UserID (fst favorite))
                                   (UserFavorite.ProductID (fst favorite))
                                   0 10%float zeroTime in
              appendAlert (UserFavorite.ProductID (fst favorite)) alert s)
           s favorites)
  = alertsOf p s
      ++ (default_alert
            <$> List.filter (fun f => N.eqb (UserFavorite.ProductID f) p)
                            (fst <$> favorites)).
Proof.
  induction favorites as [|[f product] favorites IH]; intros s; simpl.
  - by rewrite app_nil_r.
  - rewrite IH, alertsOf_appendAlert. simpl.
    destruct (N.eqb_spec (UserFavorite.ProductID f) p) as [Heq|Hne];
      destruct (decide (p = UserFavorite.ProductID f)) as [Heq'|Hne']; try congruence.
    + rewrite <- Heq', fmap_cons, <- app_assoc. unfold default_alert. by rewrite Heq.
    + reflexivity.
Qed.

Lemma Find_user_favorites_with_product_inv c r c' :
  Find_user_favorites_with_product c = (r, c') ->
  committed c' = committed c /\ tx c' = tx c
  /\ forall favorites, r = inr favorites -> fst <$> favorites = user_favorites (current c).
Proof.
  intros H. unfold Find_user_favorites_with_product in H.
  apply statement_reads in H as (Hc & Ht & Hr); [|by intros d a d' [= _ <-]].
  split; [done|]. split; [done|].
  intros favorites ->. specialize (Hr _ eq_refl). injection Hr as <-.
  rewrite <- list_fmap_compose. by rewrite list_fmap_id.
Qed.

(** X13.  [loadPriceAlerts] appends to the alerts of every product one
    alert for each favorite of that product, in the order of the table, with
    threshold 10 and no notification yet; when the query fails the alerts are
    as they were.  The store is only read. *)
Theorem loadPriceAlerts_one_alert_per_favorite (s : Service) :
  tx (database s) = NoTx ->
  let r := loadPriceAlerts s in
  (fst r = None ->
   forall productID,
     alertsOf productID (snd r)
     = alertsOf productID s
         ++ (default_alert <$> favorites_of productID (observable (database s))))
  /\ (fst r <> None -> priceAlerts (snd r) = priceAlerts s)
  /\ observable (database (snd r)) = observable (database s)
  /\ kafka (snd r) = kafka s.
Proof.
  intros Htx r. subst r. unfold loadPriceAlerts.
  destruct (Find_user_favorites_with_product (database s)) as [[e|favorites] c] eqn:Hfind;
    apply Find_user_favorites_with_product_inv in Hfind as (Hc & Ht & Hr); simpl.
  - done.
  - split; [|split; [done|]].
    + intros _ productID. rewrite loadPriceAlerts_loop.
      rewrite (Hr _ eq_refl). unfold current. by rewrite Htx.
    + match goal with |- context [foldl ?f ?a ?l] =>
        assert (Hfold : forall l s0, database (foldl f s0 l) = database s0
                                     /\ kafka (foldl f s0 l) = kafka s0) end.
      { intros l. induction l as [|x l IH]; intros s0; simpl; [done|].
        destruct (IH (appendAlert (UserFavorite.ProductID (fst x))
                        (mkAlert (UserFavorite.UserID (fst x))
                                 (UserFavorite.ProductID (fst x)) 0 10 zeroTime) s0))
          as [-> ->]. done. }
      destruct (Hfold favorites (with_database c s)) as [-> ->]. done.
Qed.


Lemma createPriceAlert_created u p v d s a s' :
  createPriceAlert (Some (u, p, v, d)) s = (inr a, s') ->
  a = mkAlert u p v d zeroTime
  /\ (forall other,
        alertsOf other s'
        = if decide (other = p) then alertsOf p s ++ [a] else alertsOf other s)
  /\ kafka s' = kafka s.
Proof.
  intros H. unfold createPriceAlert in H.
  destruct (d <=? 0)%float; [done|].
  destruct (First_product_by_id p (database s)) as [[e|x] c1]; [by destruct e|].
  destruct (First_user_by_id u c1) as [[e|y] c2]; [by destruct e|].
  set (checked := if (0 <? v)%N then _ else _) in H.
  destruct checked as [[e|[]] c3]; [done|].
  set (s1 := appendAlert p (mkAlert u p v d zeroTime) (with_database c3 s)) in H.
  assert (H1 : forall other,
             alertsOf other s1
             = if decide (other = p) then alertsOf p s ++ [mkAlert u p v d zeroTime]
               else alertsOf other s).
  { intros other. subst s1. by rewrite alertsOf_appendAlert. }
  destruct (First_user_favorite u p (database s1)) as [[e|f] c4].
  - destruct e; try (injection H as <- <-; done).
    destruct (Create_user_favorite (UserFavorite.mk u p) c4) as [[e|[]] c5]; [done|].
    injection H as <- <-. done.
  - injection H as <- <-. done.
Qed.

(** X14.  Deleting right after a successful [createPriceAlert] gives
    back the alerts as they were only when the user had no alert on the
    product before; otherwise the older alert of the user is the one removed
    and the new one stays. *)
Theorem create_then_delete_drops_the_older_alert (id u p v : N) (d : float)
    (s s1 : Service) (a : priceAlert) :
  createPriceAlert (Some (u, p, v, d)) s = (inr a, s1) ->
  let r := deletePriceAlert (Some id) (Some (u, p)) s1 in
  fst r = inr tt
  /\ (Forall (fun x => UserID x <> u) (alertsOf p s) ->
      alertsOf p (snd r) = alertsOf p s)
  /\ (forall before older after,
        alertsOf p s = before ++ older :: after ->
        Forall (fun x => UserID x <> u) before ->
        UserID older = u ->
        alertsOf p (snd r) = before ++ after ++ [a])
  /\ (forall other, other <> p -> alertsOf other (snd r) = alertsOf other s).
Proof.
  intros Hcreate r.
  apply createPriceAlert_created in Hcreate as (Ha & Halerts & _).
  assert (Hp : alertsOf p s1 = alertsOf p s ++ [a]).
  { rewrite Halerts. by rewrite decide_True. }
  assert (Hua : UserID a = u) by (by rewrite Ha).
  destruct (deletePriceAlert_inv id u p s1) as (_ & Hdel & _). fold r in Hdel.
  pose proof (first_of_user u (alertsOf p s)) as Hcases.
  assert (Hother : forall other, other <> p -> alertsOf other s1 = alertsOf other s).
  { intros other Hne. rewrite Halerts. by rewrite decide_False. }
  destruct Hcases as [Hnone|(before & older & after & Heq & Hb & Ho)].
  - destruct (Hdel (alertsOf p s) a []) as (Hr & Hp' & Ho'); [done..|].
    split; [done|]. split; [by rewrite app_nil_r in Hp'|]. split.
    + intros before older after Heq Hb Ho. rewrite Heq in Hnone.
      rewrite Forall_app in Hnone. destruct Hnone as [_ Hnone].
      apply Forall_cons in Hnone as [Hnone _]. done.
    + intros other Hne. rewrite Ho' by done. by apply Hother.
  - destruct (Hdel before older (after ++ [a])) as (Hr & Hp' & Ho'); [|done..|].
    { rewrite Hp, Heq. by rewrite <- app_assoc. }
    split; [done|]. split; [|split].
    + intros Hnone. rewrite Heq in Hnone.
      rewrite Forall_app in Hnone. destruct Hnone as [_ Hnone].
      apply Forall_cons in Hnone as [Hnone _]. done.
    + intros before' older' after' Heq' Hb' Ho2. rewrite Hp'.
      assert (before' = before /\ older' = older /\ after' = after) as (-> & -> & ->);
        [|done].
      rewrite Heq in Heq'. clear - Heq' Hb Ho Hb' Ho2.
      revert before' Heq' Hb'. induction before as [|x before IH]; intros before' Heq' Hb'.
      * destruct before' as [|y before']; simpl in Heq'.
        -- by injection Heq' as -> ->.
        -- injection Heq' as -> _. apply Forall_cons in Hb' as [Hy _]. done.
      * destruct before' as [|y before']; simpl in Heq'.
        -- injection Heq' as -> _. apply Forall_cons in Hb as [Hx _]. done.
        -- injection Heq' as -> Heq'. apply Forall_cons in Hb as [_ Hb].
           apply Forall_cons in Hb' as [_ Hb'].
           destruct (IH Hb before' Heq' Hb') as (-> & -> & ->). done.
    + intros other Hne. rewrite Ho' by done. by apply Hother.
Qed.


Lemma createPriceAlert_favorite u p v d tables s a s1 :
  database s = connect tables [] ->
  createPriceAlert (Some (u, p, v, d)) s = (inr a, s1) ->
  exists tables', database s1 = connect tables' []
                  /\ UserFavorite.mk u p ∈ user_favorites tables'.
Proof.
  intros Hdb H. unfold createPriceAlert in H. rewrite Hdb in H.
  destruct (d <=? 0)%float; [done|].
  unfold First_product_by_id in H. rewrite statement_connect in H.
  destruct (List.find _ (products tables)) as [x|]; [|done].
  unfold First_user_by_id in H. rewrite statement_connect in H.
  destruct (List.find _ (users tables)) as [y|]; [|done].
  assert (Hchecked :
    (if (0 <? v)%N
     then match First_variant_by_id v (connect tables []) with
          | (inl ErrRecordNotFound, c) => (inl (StatusNotFound "Variant not found"), c)
          | (inl _, c) => (inl (StatusInternalServerError "Failed to fetch variant"), c)
          | (inr _, c) => (inr tt, c)
          end
     else (inr tt, connect tables []))
    = (inr tt, connect tables [])
    \/ exists e, (if (0 <? v)%N
     then match First_variant_by_id v (connect tables []) with
          | (inl ErrRecordNotFound, c) => (inl (StatusNotFound "Variant not found"), c)
          | (inl _, c) => (inl (StatusInternalServerError "Failed to fetch variant"), c)
          | (inr _, c) => (inr tt, c)
          end
     else (inr tt, connect tables [])) = (inl e, connect tables [])).
  { destruct (0 <? v)%N; [|by left].
    unfold First_variant_by_id. rewrite statement_connect.
    destruct (List.find _ (variants tables)); [by left|]. right. by eexists. }
  destruct Hchecked as [Hch|[e Hch]]; rewrite Hch in H; [|done].
  cbn [database appendAlert emit with_priceAlerts with_database] in H.
  unfold First_user_favorite in H. rewrite statement_connect in H.
  destruct (List.find _ (user_favorites tables)) as [f|] eqn:Hfind.
  - injection H as _ <-. exists tables. split; [done|].
    apply find_some in Hfind as [Hin Hf]. apply list_elem_of_In in Hin.
    apply andb_true_iff in Hf as [Hu Hp]. apply N.eqb_eq in Hu, Hp.
    destruct f as [fu fp]. simpl in *. by subst.
  - unfold Create_user_favorite in H. rewrite statement_connect in H.
    injection H as _ <-. eexists. split; [reflexivity|]. simpl.
    apply elem_of_app. right. by apply list_elem_of_singleton.
Qed.

Lemma loadPriceAlerts_connect tables k :
  fst (loadPriceAlerts (NewAnalyzerService (connect tables []) k)) = None
  /\ forall productID,
       alertsOf productID (snd (loadPriceAlerts (NewAnalyzerService (connect tables []) k)))
       = default_alert <$> favorites_of productID tables.
Proof.
  unfold loadPriceAlerts, NewAnalyzerService.
  cbn [database]. unfold Find_user_favorites_with_product. rewrite statement_connect.
  split; [done|]. intros productID. cbn [snd]. rewrite loadPriceAlerts_loop.
  rewrite <- list_fmap_compose. simpl. rewrite list_fmap_id. done.
Qed.

(** X15.  The threshold of an alert made by [createPriceAlert] is kept
    in memory only: a service started again on the same store finds the
    favorite and gives the user an alert of 10 percent on no variant, also
    after the alert was deleted. *)
Theorem restart_resets_alert_to_default (id u p v : N) (d : float) (tables : Tables)
    (s s1 : Service) (a : priceAlert) (k : messaging.KafkaClient PriceDrop.t) :
  database s = connect tables [] ->
  createPriceAlert (Some (u, p, v, d)) s = (inr a, s1) ->
  let restarted := loadPriceAlerts (NewAnalyzerService (database s1) k) in
  DiscountPercent a = d
  /\ database (snd (deletePriceAlert (Some id) (Some (u, p)) s1)) = database s1
  /\ fst restarted = None
  /\ default_alert (UserFavorite.mk u p) ∈ alertsOf p (snd restarted)
  /\ forall productID alert,
       alert ∈ alertsOf productID (snd restarted) ->
       DiscountPercent alert = 10%float /\ VariantID alert = 0%N
       /\ LastNotification alert = zeroTime.
Proof.
  intros Hdb Hcreate restarted.
  destruct (createPriceAlert_favorite _ _ _ _ _ _ _ _ Hdb Hcreate) as (tables' & Hdb' & Hfav).
  apply createPriceAlert_created in Hcreate as (-> & _ & _).
  destruct (deletePriceAlert_inv id u p s1) as (_ & _ & Hd & _).
  subst restarted. rewrite Hdb'.
  destruct (loadPriceAlerts_connect tables' k) as [Hnone Halerts].
  split; [done|]. split; [by rewrite Hd|]. split; [done|]. split.
  - rewrite Halerts. apply list_elem_of_fmap_2. unfold favorites_of.
    apply list_elem_of_In, filter_In. split; [by apply list_elem_of_In|].
    by apply N.eqb_eq.
  - intros productID alert. rewrite Halerts. intros Hin.
    apply list_elem_of_fmap in Hin as (f & -> & _). done.
Qed.


Section matching.
Variable topic : string.
Variable now : Z.
Variable tables : Tables.
Variable externalID : string.
Variable start : Service.

Local Abbreviation matching_here := (matching topic now tables externalID start).

Lemma same_rule_refl a : same_rule now a a.
Proof. unfold same_rule. auto 10. Qed.

Lemma same_rule_notified u a' a :
  same_rule now a' a ->
  same_rule now (if N.eqb (UserID a') u then with_LastNotification now a' else a') a.
Proof.
  intros (? & ? & ? & ? & ?). destruct (N.eqb (UserID a') u); unfold same_rule; simpl; auto 10.
Qed.

Lemma updateLastNotification_database pid uid s :
  database (updateLastNotification pid uid now s) = database s.
Proof. unfold updateLastNotification. by destruct (priceAlerts s !! pid). Qed.

Lemma matching_emit e s : matching_here s -> matching_here (emit e s).
Proof. done. Qed.

Lemma processHistory_matching product alert alert0 history s :
  matching_here s ->
  product ∈ products tables -> Product.ExternalID product = externalID ->
  alert0 ∈ alertsOf (Product.ID product) start ->
  UserID alert = UserID alert0 -> DiscountPercent alert = DiscountPercent alert0 ->
  history ∈ price_histories tables ->
  PriceHistory.ProductID history = Product.ID product ->
  matching_here (processHistory topic now product alert history s).
Proof.
  intros Hs Hp He Ha0 Hu Hd Hh Hhp.
  pose proof Hs as (Hc & Htx & Hrules & new & Hw & Hnew).
  unfold processHistory.
  destruct (_ <=? _)%float eqn:Hle; simpl; [|done].
  destruct (_ <? _) eqn:Hlt; simpl; [|done].
  destruct (First_variant_by_id (PriceHistory.VariantID history) (database s))
    as [[e|variant] c] eqn:Hv;
    unfold First_variant_by_id in Hv;
    apply statement_reads in Hv as (Hc' & Htx' & Hr);
    try (intros d a d' Hf; destruct (List.find _ _); by simplify_eq).
  { split; [simpl; congruence|]. split; [simpl; congruence|]. split; [done|]. by exists new. }
  specialize (Hr _ eq_refl). unfold current in Hr. rewrite Htx, Hc in Hr.
  destruct (List.find _ (variants tables)) as [v'|] eqn:Hfind; [|done].
  injection Hr as ->. apply find_some in Hfind as [Hvin Hvid].
  apply list_elem_of_In in Hvin. apply N.eqb_eq in Hvid.
  unfold messaging.PublishMessage.
  set (msg := (topic, _, _)).
  assert (Hj : justified topic tables externalID (fun id => alertsOf id start) msg).
  { exists product, alert0, history, variant. subst msg. rewrite Hu.
    repeat (split; [done|]). split; [by rewrite <- Hd|]. done. }
  destruct (messaging.failures (kafka s)) as [|[] rest]; unfold matching.
  - rewrite !updateLastNotification_database.
    split; [simpl; congruence|]. split; [simpl; congruence|]. split.
    + intros id. destruct (decide (id = Product.ID product)) as [->|Hne].
      * rewrite updateLastNotification_alerts. apply Forall2_fmap_l.
        eapply Forall2_impl; [apply Hrules|]. intros a' a Ha. by apply same_rule_notified.
      * rewrite updateLastNotification_other by done. apply Hrules.
    + exists (new ++ [msg]). rewrite updateLastNotification_kafka. simpl.
      rewrite Hw, <- app_assoc. split; [done|]. apply Forall_app. split; [done|].
      by constructor.
  - split; [simpl; congruence|]. split; [simpl; congruence|]. split; [done|]. by exists new.
  - rewrite !updateLastNotification_database.
    split; [simpl; congruence|]. split; [simpl; congruence|]. split.
    + intros id. destruct (decide (id = Product.ID product)) as [->|Hne].
      * rewrite updateLastNotification_alerts. apply Forall2_fmap_l.
        eapply Forall2_impl; [apply Hrules|]. intros a' a Ha. by apply same_rule_notified.
      * rewrite updateLastNotification_other by done. apply Hrules.
    + exists (new ++ [msg]). rewrite updateLastNotification_kafka. simpl.
      rewrite Hw, <- app_assoc. split; [done|]. apply Forall_app. split; [done|].
      by constructor.
Qed.


Lemma processHistories_matching product alert alert0 histories : forall s,
  matching_here s ->
  product ∈ products tables -> Product.ExternalID product = externalID ->
  alert0 ∈ alertsOf (Product.ID product) start ->
  UserID alert = UserID alert0 -> DiscountPercent alert = DiscountPercent alert0 ->
  Forall (fun history => history ∈ price_histories tables
                         /\ PriceHistory.ProductID history = Product.ID product)
         histories ->
  matching_here (foldl (fun s history => processHistory topic now product alert history s)
                  s histories).
Proof.
  induction histories as [|history histories IH]; intros s Hs Hp He Ha0 Hu Hd Hh; [done|].
  apply Forall_cons in Hh as [[Hh1 Hh2] Hh]. simpl.
  apply IH; try done. by eapply processHistory_matching.
Qed.

Lemma processAlert_matching product histories i s :
  matching_here s ->
  product ∈ products tables -> Product.ExternalID product = externalID ->
  Forall (fun history => history ∈ price_histories tables
                         /\ PriceHistory.ProductID history = Product.ID product)
         histories ->
  matching_here (processAlert topic now product histories i s).
Proof.
  intros Hs Hp He Hh. unfold processAlert.
  destruct (alertsOf (Product.ID product) s !! i) as [alert|] eqn:Hi; [|done].
  pose proof Hs as (_ & _ & Hrules & _).
  specialize (Hrules (Product.ID product)).
  destruct (Forall2_lookup_l _ _ _ _ _ Hrules Hi) as (alert0 & Hi0 & Hrule).
  destruct Hrule as (Hu & _ & _ & Hd & _).
  apply (processHistories_matching product alert alert0); try done.
  by eapply list_elem_of_lookup_2.
Qed.

Lemma processAlerts_matching product histories indices : forall s,
  matching_here s ->
  product ∈ products tables -> Product.ExternalID product = externalID ->
  Forall (fun history => history ∈ price_histories tables
                         /\ PriceHistory.ProductID history = Product.ID product)
         histories ->
  matching_here (foldl (fun s i => processAlert topic now product histories i s) s indices).
Proof.
  induction indices as [|i indices IH]; intros s Hs Hp He Hh; [done|]. simpl.
  apply IH; try done. by apply processAlert_matching.
Qed.

Lemma processProductUpdate_matching s :
  matching_here s -> matching_here (snd (processProductUpdate topic now externalID s)).
Proof.
  intros Hs. pose proof Hs as (Hc & Htx & Hrules & new & Hw & Hnew).
  unfold processProductUpdate.
  destruct (First_product_by_external_id externalID (database s))
    as [[e|product] c] eqn:Hfirst;
    unfold First_product_by_external_id in Hfirst;
    apply statement_reads in Hfirst as (Hc1 & Htx1 & Hr1);
    try (intros d a d' Hf; destruct (List.find _ _); by simplify_eq).
  { split; [simpl; congruence|]. split; [simpl; congruence|]. split; [done|]. by exists new. }
  specialize (Hr1 _ eq_refl). unfold current in Hr1. rewrite Htx, Hc in Hr1.
  destruct (List.find _ (products tables)) as [p'|] eqn:Hfind; [|done].
  injection Hr1 as ->. apply find_some in Hfind as [Hpin Hpe].
  apply list_elem_of_In in Hpin. apply String.eqb_eq in Hpe.
  destruct (Find_recent_price_histories (Product.ID product) 10 c)
    as [[e|histories] c2] eqn:Hrecent;
    unfold Find_recent_price_histories in Hrecent;
    apply statement_reads in Hrecent as (Hc2 & Htx2 & Hr2);
    try (intros d a d' Hf; by simplify_eq).
  { split; [simpl; congruence|]. split; [simpl; congruence|]. split; [done|]. by exists new. }
  specialize (Hr2 _ eq_refl). unfold current in Hr2. rewrite Htx1, Htx, Hc1, Hc in Hr2.
  injection Hr2 as Hr2.
  assert (Hh : Forall (fun history => history ∈ price_histories tables
                         /\ PriceHistory.ProductID history = Product.ID product)
                      histories).
  { rewrite <- Hr2. apply Forall_forall. intros history Hin.
    apply elem_of_take in Hin as (j & Hj & _). apply list_elem_of_lookup_2 in Hj.
    apply list_elem_of_In, in_rev, filter_In in Hj as [Hj1 Hj2].
    split; [by apply list_elem_of_In|]. by apply N.eqb_eq. }
  assert (Hs2 : matching_here (emit sync.Read (with_database c2 s))).
  { split; [simpl; congruence|]. split; [simpl; congruence|]. split; [done|]. by exists new. }
  cbn [priceAlerts emit with_database].
  destruct (priceAlerts s !! Product.ID product) as [alerts|]; [|done].
  destruct (0 <? length histories)%nat; [|done].
  cbn [snd]. by apply processAlerts_matching.
Qed.

End matching.

(** User 7 holds a rule of 15 percent, creates one of 25 percent and deletes. *)
Lemma create_then_delete_drops_the_older_alert_witness :
  let s := sample_analyzer sample_tables [rule_15 0] in
  let s1 := snd (analyzer.createPriceAlert (Some (7%N, 1%N, 0%N, 25%float)) s) in
  analyzer.alertsOf 1 (snd (analyzer.deletePriceAlert (Some 0%N) (Some (7%N, 1%N)) s1))
  = [analyzer.mkAlert 7 1 0 25 analyzer.zeroTime].
Proof.
  intros s s1.
  destruct (create_then_delete_drops_the_older_alert 0 7 1 0 25 s s1
              (analyzer.mkAlert 7 1 0 25 analyzer.zeroTime))
    as (_ & _ & H & _).
  - vm_compute. reflexivity.
  - apply (H [] (rule_15 0) []); [vm_compute; reflexivity|constructor|reflexivity].
Defined.

(** A rule of 25 percent, and the service started again. *)
Lemma restart_resets_alert_to_default_witness :
  let s := sample_analyzer sample_tables [] in
  let s1 := snd (analyzer.createPriceAlert (Some (7%N, 1%N, 0%N, 25%float)) s) in
  let restarted := analyzer.loadPriceAlerts
                     (analyzer.NewAnalyzerService (analyzer.database s1)
                                                  (messaging.mkKafka [] [])) in
  fst restarted = None
  /\ default_alert (UserFavorite.mk 7 1) ∈ analyzer.alertsOf 1 (snd restarted).
Proof.
  intros s s1 restarted.
  destruct (restart_resets_alert_to_default 0 7 1 0 25 sample_tables s s1
              (analyzer.mkAlert 7 1 0 25 analyzer.zeroTime) (messaging.mkKafka [] []))
    as (_ & _ & H1 & H2 & _).
  - reflexivity.
  - vm_compute. reflexivity.
  - split; [exact H1|exact H2].
Defined.

(** The one favorite of the sample tables. *)
Lemma loadPriceAlerts_one_alert_per_favorite_witness :
  let s := analyzer.NewAnalyzerService (db.connect favorite_tables [])
             (messaging.mkKafka [] []) in
  analyzer.alertsOf 1 (snd (analyzer.loadPriceAlerts s))
  = [default_alert (UserFavorite.mk 7 1)].
Proof.
  intros s.
  destruct (loadPriceAlerts_one_alert_per_favorite s) as (H & _).
  - reflexivity.
  - rewrite H; [|vm_compute; reflexivity]. vm_compute. reflexivity.
Defined.

(** X16.  Handling one product update only reads the store, keeps every
    alert but for the time of its last notification, which is as before or the
    clock reading, and every message it publishes tells of a stored price
    record of that product which reaches the threshold of an alert of the
    addressed user. *)
Theorem consumeProductUpdates_notifies_on_stored_drops (topic : string) (now : Z)
    (update : option string) (s : Service) :
  tx (database s) = NoTx ->
  let s' := snd (consumeProductUpdates topic now update s) in
  observable (database s') = observable (database s)
  /\ (forall id, Forall2 (same_rule now) (alertsOf id s') (alertsOf id s))
  /\ exists new,
       messaging.written (kafka s') = messaging.written (kafka s) ++ new
       /\ Forall (fun m => exists externalID,
                    update = Some externalID
                    /\ justified topic (observable (database s)) externalID
                                 (fun id => alertsOf id s) m) new.
Proof.
  intros Htx s'. subst s'.
  assert (Hrefl : forall id, Forall2 (same_rule now) (alertsOf id s) (alertsOf id s)).
  { intros id. apply Forall_Forall2_diag, Forall_forall. intros a _. apply same_rule_refl. }
  destruct update as [externalID|]; simpl.
  - assert (Hstart : matching topic now (observable (database s)) externalID s s).
    { split; [done|]. split; [done|]. split; [done|]. exists []. by rewrite app_nil_r. }
    apply processProductUpdate_matching in Hstart.
    destruct Hstart as (Hc & _ & Hrules & new & Hw & Hnew).
    split; [done|]. split; [done|]. exists new. split; [done|].
    eapply Forall_impl; [exact Hnew|]. intros m Hm. by exists externalID.
  - split; [done|]. split; [done|]. exists []. by rewrite app_nil_r.
Qed.

End alerts.

(** An update for the sample item after two price drops. *)
Lemma consumeProductUpdates_notifies_on_stored_drops_witness :
  let s := sample_analyzer two_drops [rule_15 (25 * Hour)] in
  let s' := snd (analyzer.consumeProductUpdates "user-notifications" sample_now
                   (Some "p1") s) in
  db.observable (analyzer.database s') = two_drops
  /\ length (analyzer.alertsOf 1 s') = 1%nat.
Proof.
  intros s s'.
  destruct (consumeProductUpdates_notifies_on_stored_drops "user-notifications" sample_now
              (Some "p1") s) as (H1 & H2 & _).
  - reflexivity.
  - split; [exact H1|]. fold s' in H2. rewrite (Forall2_length _ _ _ (H2 1%N)).
    vm_compute. reflexivity.
Defined.

Section listing.
Import db analyzer.

Lemma with_database_id s : with_database (database s) s = s.
Proof. by destruct s. Qed.

Lemma getUserPriceAlerts_inner tables userID productID productAlerts : forall listed s,
  database s = connect tables [] ->
  foldl (fun '(alerts, s) alert =>
           if N.eqb (UserID alert) userID then
             match First_product_by_id productID (database s) with
             | (inl _, c) => (alerts, with_database c s)
             | (inr product, c) =>
                 (alerts ++ [(alert, Product.Name product)], with_database c s)
             end
           else (alerts, s))
        (listed, s) productAlerts
  = (listed ++ listed_alerts tables userID (productID, productAlerts), s).
Proof.
  unfold listed_alerts. cbn [fst snd].
  induction productAlerts as [|alert productAlerts IH]; intros listed s Hdb.
  - simpl. destruct (List.find _ (products tables)); simpl; by rewrite app_nil_r.
  - cbn [foldl List.filter].
    destruct (N.eqb (UserID alert) userID).
    + rewrite Hdb. unfold First_product_by_id. rewrite statement_connect.
      destruct (List.find _ (products tables)) as [product|] eqn:Hfind.
      * rewrite <- Hdb, with_database_id. rewrite IH by done.
        rewrite fmap_cons, <- app_assoc. done.
      * rewrite <- Hdb, with_database_id. rewrite IH by done. done.
    + by rewrite IH.
Qed.

Lemma getUserPriceAlerts_outer tables userID iteration : forall listed s,
  database s = connect tables [] ->
  foldl (fun '(alerts, s) '(productID, productAlerts) =>
           foldl (fun '(alerts, s) alert =>
                    if N.eqb (UserID alert) userID then
                      match First_product_by_id productID (database s) with
                      | (inl _, c) => (alerts, with_database c s)
                      | (inr product, c) =>
                          (alerts ++ [(alert, Product.Name product)], with_database c s)
                      end
                    else (alerts, s))
                 (alerts, s) productAlerts)
        (listed, s) iteration
  = (listed ++ flat_map (listed_alerts tables userID) iteration, s).
Proof.
  induction iteration as [|[productID productAlerts] iteration IH]; intros listed s Hdb.
  - simpl. by rewrite app_nil_r.
  - cbn [foldl flat_map]. rewrite (getUserPriceAlerts_inner tables) by done.
    rewrite IH by done. by rewrite <- app_assoc.
Qed.

(** X17.  When the store fails no statement, [getUserPriceAlerts] lists,
    whatever the order of the iteration, exactly the alerts of the user whose
    product is stored, each with the name of the product. *)
Theorem getUserPriceAlerts_lists_the_alerts_of_the_user (userID : N)
    (iteration : list (N * list priceAlert)) (tables : Tables) (s : Service) :
  database s = connect tables [] ->
  iteration ≡ₚ map_to_list (priceAlerts s) ->
  exists listed,
    getUserPriceAlerts (Some userID) iteration s = (inr listed, emit sync.Read s)
    /\ forall alert name,
         (alert, name) ∈ listed
         <-> exists productID product,
               alert ∈ alertsOf productID s /\ UserID alert = userID
               /\ List.find (fun p => N.eqb (Product.ID p) productID) (products tables)
                  = Some product
               /\ name = Product.Name product.
Proof.
  intros Hdb Hperm. exists (flat_map (listed_alerts tables userID) iteration).
  split.
  - unfold getUserPriceAlerts. by rewrite (getUserPriceAlerts_outer tables).
  - intros alert name. rewrite list_elem_of_In, in_flat_map. split.
    + intros ([productID productAlerts] & Hin & Hl).
      apply list_elem_of_In in Hin. rewrite Hperm in Hin.
      apply elem_of_map_to_list in Hin.
      unfold listed_alerts in Hl. cbn [fst snd] in Hl.
      destruct (List.find _ (products tables)) as [product|] eqn:Hfind; [|done].
      apply list_elem_of_In, list_elem_of_fmap in Hl as (a & [= -> ->] & Ha).
      apply list_elem_of_In, filter_In in Ha as [Ha Hu].
      exists productID, product. unfold alertsOf. rewrite Hin. simpl.
      split; [by apply list_elem_of_In|]. split; [by apply N.eqb_eq|]. done.
    + intros (productID & product & Ha & Hu & Hfind & ->).
      unfold alertsOf in Ha.
      destruct (priceAlerts s !! productID) as [productAlerts|] eqn:Hl;
        [|by apply elem_of_nil in Ha].
      exists (productID, productAlerts). split.
      * apply list_elem_of_In. rewrite Hperm. by apply elem_of_map_to_list.
      * unfold listed_alerts. cbn [fst snd]. rewrite Hfind.
        apply list_elem_of_In, (list_elem_of_fmap_2 (fun alert => (alert, Product.Name product))).
        apply list_elem_of_In, filter_In. split; [by apply list_elem_of_In|].
        by apply N.eqb_eq.
Qed.

End listing.

(** The rule of user 7 on the sample item. *)
Lemma getUserPriceAlerts_lists_the_alerts_of_the_user_witness :
  let s := sample_analyzer sample_tables [rule_15 0] in
  exists listed,
    analyzer.getUserPriceAlerts (Some 7%N) (map_to_list (analyzer.priceAlerts s)) s
    = (inr listed, analyzer.emit sync.Read s)
    /\ (rule_15 0, "Shoe") ∈ listed.
Proof.
  intros s.
  destruct (getUserPriceAlerts_lists_the_alerts_of_the_user 7
              (map_to_list (analyzer.priceAlerts s)) sample_tables s)
    as (listed & H1 & H2).
  - reflexivity.
  - reflexivity.
  - exists listed. split; [exact H1|]. apply H2.
    exists 1%N, (Product.mk 1 5 "p1" "Shoe" "https://shop.example/p1" true []).
    split; [vm_compute; apply list_elem_of_singleton; reflexivity|].
    split; [reflexivity|]. split; reflexivity.
Defined.

Section alert_answers.
Import db analyzer.

(** X18.  An error answer of [createPriceAlert] leaves the alerts as they
    were, except the 500 for a favorite that could not be created: by then the
    alert is installed. *)
Theorem createPriceAlert_error_answers (u p v : N) (d : float) (s s' : Service)
    (e : HTTPError) :
  createPriceAlert (Some (u, p, v, d)) s = (inl e, s') ->
  (e <> StatusInternalServerError "Failed to create user favorite" ->
   priceAlerts s' = priceAlerts s)
  /\ (e = StatusInternalServerError "Failed to create user favorite" ->
      (d <=? 0)%float = false
      /\ alertsOf p s' = alertsOf p s ++ [mkAlert u p v d zeroTime])
  /\ kafka s' = kafka s.
Proof.
  intros H. unfold createPriceAlert in H.
  destruct (d <=? 0)%float eqn:Hd; [by injection H as <- <-|].
  destruct (First_product_by_id p (database s)) as [[e1|x] c1];
    [destruct e1; by injection H as <- <-|].
  destruct (First_user_by_id u c1) as [[e2|y] c2];
    [destruct e2; by injection H as <- <-|].
  set (checked := if (0 <? v)%N then _ else _) in H.
  destruct checked as [[e3|[]] c3] eqn:Hch.
  { injection H as <- <-. split; [done|]. split; [|done]. intros ->.
    subst checked. destruct (0 <? v)%N; [|done].
    destruct (First_variant_by_id v c2) as [[[]|?] ?]; done. }
  set (s1 := appendAlert p (mkAlert u p v d zeroTime) (with_database c3 s)) in H.
  destruct (First_user_favorite u p (database s1)) as [[e4|f] c4]; [|done].
  destruct e4; try done.
  destruct (Create_user_favorite (UserFavorite.mk u p) c4) as [[e5|[]] c5]; [|done].
  injection H as <- <-. split; [done|]. split; [|done]. intros _. split.
  - done.
  - unfold alertsOf. simpl. by rewrite lookup_insert_eq.
Qed.


Lemma updateLastNotification_frame pid uid now s :
  database (updateLastNotification pid uid now s) = database s
  /\ kafka (updateLastNotification pid uid now s) = kafka s.
Proof. unfold updateLastNotification. by destruct (priceAlerts s !! pid). Qed.

Lemma processHistories_lone topic now tables product alert histories : forall s,
  database s = connect tables [] ->
  messaging.failures (kafka s) = [] ->
  24 * Hour < time_Since now (LastNotification alert) ->
  let s' := foldl (fun s history => processHistory topic now product alert history s)
                  s histories in
  messaging.written (kafka s')
  = messaging.written (kafka s)
      ++ (price_drop topic product alert <$> List.filter (qualifies tables alert) histories)
  /\ database s' = connect tables []
  /\ messaging.failures (kafka s') = [].
Proof.
  induction histories as [|history histories IH]; intros s Hdb Hf Hwin.
  - simpl. by rewrite app_nil_r.
  - cbn [foldl List.filter].
    assert (Hstep :
      let s1 := processHistory topic now product alert history s in
      messaging.written (kafka s1)
      = messaging.written (kafka s)
          ++ (if qualifies tables alert history
              then [price_drop topic product alert history] else [])
      /\ database s1 = connect tables []
      /\ messaging.failures (kafka s1) = []).
    { unfold processHistory, qualifies.
      apply Z.ltb_lt in Hwin. rewrite Hwin, andb_true_r.
      destruct (_ <=? _)%float; simpl; [|by rewrite app_nil_r].
      rewrite Hdb. unfold First_variant_by_id. rewrite statement_connect.
      destruct (List.find _ (variants tables)) as [variant|] eqn:Hfind.
      - rewrite bool_decide_eq_true_2 by (by eexists).
        unfold messaging.PublishMessage. rewrite Hf.
        destruct (updateLastNotification_frame (Product.ID product) (UserID alert) now
                    (with_kafka
                       (messaging.mkKafka
                          (messaging.written (kafka s)
                           ++ [(topic, notificationKey (UserID alert) (Product.ID product),
                                PriceDrop.mk (UserID alert) (Product.ID product)
                                  (Variant.ID variant)
                                  (PriceHistory.PreviousPrice history)
                                  (PriceHistory.NewPrice history)
                                  (- PriceHistory.ChangePercent history)%float
                                  (Product.Name product) (Product.URL product))]) [])
                       (with_database (connect tables []) s))) as [-> ->].
        simpl. apply find_some in Hfind as [_ Hid]. apply N.eqb_eq in Hid.
        unfold price_drop. by rewrite Hid.
      - rewrite bool_decide_eq_false_2 by (by intros [? ?]).
        simpl. by rewrite app_nil_r. }
    destruct Hstep as (Hw1 & Hdb1 & Hf1).
    destruct (IH _ Hdb1 Hf1 Hwin) as (Hw & Hdb' & Hf').
    split; [|done]. rewrite Hw, Hw1, <- app_assoc. f_equal.
    by destruct (qualifies tables alert history).
Qed.

(** X19.  With one alert on a product, not notified within the last 24
    hours, one run of the matcher publishes a notification for every one of the
    ten latest price records that reaches the threshold and names a stored
    variant, newest first. *)
Theorem lone_alert_notifies_once_per_qualifying_record (topic : string) (now : Z)
    (externalID : string) (tables : Tables) (s : Service) (product : Product.t)
    (alert : priceAlert) :
  database s = connect tables [] ->
  messaging.failures (kafka s) = [] ->
  stored_item tables externalID = Some product ->
  priceAlerts s !! Product.ID product = Some [alert] ->
  24 * Hour < time_Since now (LastNotification alert) ->
  let recent :=
    take 10 (rev (List.filter (fun h => N.eqb (PriceHistory.ProductID h) (Product.ID product))
                              (price_histories tables))) in
  fst (processProductUpdate topic now externalID s) = None
  /\ messaging.written (kafka (snd (processProductUpdate topic now externalID s)))
     = messaging.written (kafka s)
         ++ (price_drop topic product alert <$> List.filter (qualifies tables alert) recent).
Proof.
  intros Hdb Hf Hstored Halerts Hwin recent.
  unfold processProductUpdate. rewrite Hdb.
  unfold First_product_by_external_id. rewrite statement_connect.
  unfold stored_item in Hstored. rewrite Hstored.
  unfold Find_recent_price_histories. rewrite statement_connect. fold recent.
  cbn [priceAlerts emit with_database]. rewrite Halerts.
  destruct recent as [|history recent'] eqn:Hrecent.
  - simpl. by rewrite app_nil_r.
  - cbn [length Nat.ltb Nat.leb seq foldl fst snd].
    unfold processAlert. unfold alertsOf at 1. cbn [priceAlerts emit with_database].
    rewrite Halerts. cbn [default lookup list_lookup].
    split; [done|].
    destruct (processHistories_lone topic now tables product alert (history :: recent')
                (emit sync.Read (emit sync.Read (with_database (connect tables []) s))))
      as (Hw & _ & _); try done.
Qed.

End alert_answers.

(** The store fails the insert of the favorite. *)
Lemma createPriceAlert_error_answers_witness :
  let r := analyzer.createPriceAlert (Some (7%N, 1%N, 0%N, 25%float)) failing_analyzer in
  fst r = inl (StatusInternalServerError "Failed to create user favorite")
  /\ analyzer.alertsOf 1 (snd r) = [analyzer.mkAlert 7 1 0 25 analyzer.zeroTime].
Proof.
  intros r.
  destruct (createPriceAlert_error_answers 7 1 0 25 failing_analyzer (snd r)
              (StatusInternalServerError "Failed to create user favorite"))
    as (_ & H & _).
  - vm_compute. reflexivity.
  - split; [vm_compute; reflexivity|]. destruct (H eq_refl) as [_ H']. exact H'.
Defined.

(** One rule of 15 percent and two qualifying records. *)
Lemma lone_alert_notifies_once_per_qualifying_record_witness :
  length (sample_run two_drops [rule_15 (25 * Hour)]) = 2%nat.
Proof.
  destruct (lone_alert_notifies_once_per_qualifying_record "user-notifications" sample_now
              "p1" two_drops (sample_analyzer two_drops [rule_15 (25 * Hour)])
              (Product.mk 1 5 "p1" "Shoe" "https://shop.example/p1" true [])
              (rule_15 (25 * Hour))) as (_ & H).
  - reflexivity.
  - reflexivity.
  - vm_compute. reflexivity.
  - vm_compute. reflexivity.
  - vm_compute. reflexivity.
  - unfold sample_run. rewrite H. vm_compute. reflexivity.
Defined.

(** ** The notification store and the sockets *)

Section sockets.
Import db notification.










End sockets.




Section store.
Import db notification.

Lemma newer_first_total : Total newer_first.
Proof. intros a b. unfold newer_first. lia. Qed.

Lemma newer_first_trans : Transitive newer_first.
Proof. intros a b c. unfold newer_first. lia. Qed.

Lemma Limit_Offset_nil {A} limit offset : Limit_Offset limit offset (@nil A) = [].
Proof. unfold Limit_Offset. rewrite drop_nil. destruct (limit <? 0); [done|apply take_nil]. Qed.

Lemma unread_after_mark u v rows :
  List.filter (unread_of v) ((fun n => if unread_of u n then mark_read n else n) <$> rows)
  = if N.eqb u v then [] else List.filter (unread_of v) rows.
Proof.
  induction rows as [|n rows IH]; [by destruct (N.eqb u v)|].
  rewrite fmap_cons. cbn [List.filter]. rewrite IH.
  unfold unread_of.
  destruct (N.eqb_spec (Notification.UserID n) u) as [Hu|Hu];
    destruct (Notification.IsRead n) eqn:Hr;
    destruct (N.eqb_spec u v) as [Huv|Huv]; simpl; rewrite ?Hr; simpl;
    repeat match goal with
           | |- context [N.eqb ?a ?b] => destruct (N.eqb_spec a b); try congruence
           end; simpl; try done.
Qed.

(** X23.  After [markAllAsRead] succeeds the user has no unread
    notification, the unread notifications of every other user are as they
    were, no row is added or removed, and the channels are untouched. *)
Theorem markAllAsRead_clears_the_unread_list (u : N) (s s1 : Service) :
  tx (database s) = NoTx ->
  markAllAsRead (Some u) s = (inr tt, s1) ->
  (forall limit offset,
     fst (GetUnreadNotifications u limit offset s1) = inr ([], 0)
     \/ exists e, fst (GetUnreadNotifications u limit offset s1) = inl e)
  /\ (forall v, v <> u ->
        List.filter (unread_of v) (notifications (observable (database s1)))
        = List.filter (unread_of v) (notifications (observable (database s))))
  /\ length (notifications (observable (database s1)))
     = length (notifications (observable (database s)))
  /\ channels s1 = channels s /\ userChannels s1 = userChannels s.
Proof.
  intros Htx H. unfold markAllAsRead, MarkAllNotificationsAsRead in H.
  destruct (Update_notifications_read u (database s)) as [[e|[]] c] eqn:Hup; [done|].
  injection H as <-.
  unfold Update_notifications_read in Hup.
  apply statement_autocommit in Hup as (Htx1 & [(e & ? & _)|(? & _ & Hf & _)]); [done| |done].
  injection Hf as _ Hc. simpl. unfold observable.
  split; [|split; [|split; [|done]]].
  - intros limit offset. unfold GetUnreadNotifications. simpl.
    destruct (Count_notifications (unread_of u) c) as [[e|total] c2] eqn:Hcount;
      [right; by eexists|].
    unfold Count_notifications in Hcount.
    apply statement_autocommit in Hcount as (Htx2 & [(e & ? & _)|(? & [= <-] & Hf & _)]);
      [done| |done].
    injection Hf as Htotal Hc2.
    destruct (Find_notifications (unread_of u) limit offset c2) as [[e|rows] c3] eqn:Hfind;
      [right; by eexists|].
    unfold Find_notifications in Hfind.
    apply statement_autocommit in Hfind as (Htx3 & [(e & ? & _)|(? & [= <-] & Hf & _)]);
      [done| |by rewrite Htx2].
    injection Hf as Hrows Hc3. left. simpl.
    rewrite <- Hc2 in Hrows. rewrite <- Hc in Hrows, Htotal.
    cbn [notifications with_notifications] in Hrows, Htotal.
    rewrite unread_after_mark, N.eqb_refl in Hrows, Htotal.
    rewrite <- Hrows, <- Htotal.
    change (Order_delivered_at_desc []) with (@nil Notification.t).
    by rewrite Limit_Offset_nil.
  - intros v Hv. rewrite <- Hc. simpl. rewrite unread_after_mark.
    destruct (N.eqb_spec u v); [congruence|done].
  - rewrite <- Hc. simpl. by rewrite length_fmap.
Qed.


Lemma Order_delivered_at_desc_sorted rows :
  StronglySorted newer_first (Order_delivered_at_desc rows)
  /\ Order_delivered_at_desc rows ≡ₚ rows.
Proof.
  unfold Order_delivered_at_desc. split.
  - apply StronglySorted_merge_sort; [exact newer_first_trans|exact newer_first_total].
  - apply merge_sort_Permutation.
Qed.

Lemma StronglySorted_take_drop {A} (R : relation A) n m l :
  StronglySorted R l -> StronglySorted R (take n (drop m l)).
Proof.
  intros H. rewrite <- (take_drop m l) in H. apply StronglySorted_app_1_r in H.
  rewrite <- (take_drop n (drop m l)) in H. by apply StronglySorted_app_1_l in H.
Qed.

(** X24.  An answer of [getUnreadNotifications] holds a limit between 1
    and 100, an offset that is not negative, the number of all unread
    notifications of the user, and the rows of one page: unread notifications
    of that user, newest first, as many as the limit and the offset leave. *)
Theorem getUnreadNotifications_answers_one_page (u : N) (limit offset : Z)
    (s s' : Service) (rows : list Notification.t) (total l o : Z) :
  tx (database s) = NoTx ->
  getUnreadNotifications (Number u) limit offset s = (inr (rows, total, l, o), s') ->
  let unread := List.filter (unread_of u) (notifications (observable (database s))) in
  1 <= l <= 100 /\ (l = limit \/ l = 20)
  /\ 0 <= o /\ (o = offset \/ o = 0)
  /\ total = Z.of_nat (length unread)
  /\ Z.of_nat (length rows) = Z.min l (Z.max 0 (total - o))
  /\ (forall n, n ∈ rows ->
        n ∈ notifications (observable (database s))
        /\ Notification.UserID n = u /\ Notification.IsRead n = false)
  /\ StronglySorted newer_first rows
  /\ observable (database s') = observable (database s).
Proof.
  intros Htx H unread. unfold getUnreadNotifications in H.
  set (l0 := if (limit <=? 0) || (limit >? 100) then 20 else limit) in H.
  set (o0 := if offset <? 0 then 0 else offset) in H.
  assert (Hl0 : 1 <= l0 <= 100 /\ (l0 = limit \/ l0 = 20)).
  { subst l0. destruct (Z.leb_spec limit 0); simpl; [lia|].
    destruct (limit >? 100) eqn:Hgt; [lia|].
    rewrite Z.gtb_ltb in Hgt. apply Z.ltb_ge in Hgt. lia. }
  assert (Ho0 : 0 <= o0 /\ (o0 = offset \/ o0 = 0)).
  { subst o0. destruct (Z.ltb_spec offset 0); lia. }
  unfold GetUnreadNotifications in H.
  destruct (Count_notifications (unread_of u) (database s)) as [[e|total0] c1] eqn:Hcount;
    [done|].
  unfold Count_notifications in Hcount.
  apply statement_autocommit in Hcount as (Htx1 & [(e & ? & _)|(? & [= <-] & Hf & _)]);
    [done| |done].
  injection Hf as Htotal Hc1.
  destruct (Find_notifications (unread_of u) l0 o0 c1) as [[e|rows0] c2] eqn:Hfind;
    [done|].
  unfold Find_notifications in Hfind.
  apply statement_autocommit in Hfind as (Htx2 & [(e & ? & _)|(? & [= <-] & Hf & _)]);
    [done| |done].
  injection Hf as Hrows Hc2.
  injection H as <- <- <- <- <-.
  rewrite <- Hc1 in Hrows. fold (observable (database s)) in Hrows, Htotal.
  fold unread in Hrows, Htotal.
  destruct (Order_delivered_at_desc_sorted unread) as [Hsorted Hperm].
  unfold Limit_Offset in Hrows.
  assert (Hlt : (l0 <? 0) = false) by (apply Z.ltb_ge; lia). rewrite Hlt in Hrows.
  split; [tauto|]. split; [tauto|]. split; [tauto|]. split; [tauto|].
  split; [done|]. split; [|split; [|split]].
  - rewrite <- Hrows, length_take, length_drop, (Permutation_length Hperm), <- Htotal. lia.
  - intros n Hn. rewrite <- Hrows in Hn.
    apply elem_of_take in Hn as (i & Hi & _). apply list_elem_of_lookup_2 in Hi.
    assert (Hin : n ∈ Order_delivered_at_desc unread).
    { rewrite <- (take_drop (Z.to_nat o0)). apply elem_of_app. by right. }
    rewrite Hperm in Hin. subst unread.
    apply list_elem_of_In, filter_In in Hin as [Hin Hu].
    split; [by apply list_elem_of_In|].
    unfold unread_of in Hu. apply andb_true_iff in Hu as [Hu Hr].
    apply N.eqb_eq in Hu. by destruct (Notification.IsRead n).
  - rewrite <- Hrows. by apply StronglySorted_take_drop.
  - simpl. unfold observable. congruence.
Qed.


Lemma int_wrap_small z : - 2 ^ 63 <= z < 2 ^ 63 -> int_wrap z = z.
Proof.
  intros Hz. unfold int_wrap. rewrite Z.mod_small; lia.
Qed.

Lemma getNotifications_connected u page limit tables s :
  database s = connect tables [] ->
  1 <= page <= 2 ^ 50 -> 1 <= limit <= 100 ->
  let all := Order_delivered_at_desc (List.filter (of_user u) (notifications tables)) in
  getNotifications (Number u) page limit s
  = (inr (take (Z.to_nat limit) (drop (Z.to_nat (page - 1) * Z.to_nat limit) all),
          Z.of_nat (length (List.filter (of_user u) (notifications tables))), page, limit),
     s).
Proof.
  intros Hdb Hpage Hlimit all. unfold getNotifications, pagination.
  assert (Hp : (page <=? 0) = false) by (apply Z.leb_gt; lia).
  assert (Hl : (limit <=? 0) || (limit >? 100) = false).
  { apply orb_false_iff. split; [apply Z.leb_gt; lia|]. rewrite Z.gtb_ltb. apply Z.ltb_ge. lia. }
  rewrite Hp, Hl, Hdb.
  assert (Hmul : 0 <= (page - 1) * limit < 2 ^ 57).
  { split; [nia|]. assert ((page - 1) * limit <= 2 ^ 50 * 100) by nia. lia. }
  rewrite int_wrap_small by lia.
  unfold Count_notifications, Find_notifications. rewrite !statement_connect.
  unfold Limit_Offset.
  assert (Hlt : (limit <? 0) = false) by (apply Z.ltb_ge; lia). rewrite Hlt.
  rewrite Z2Nat.inj_mul by lia.
  destruct s as [c h m]. simpl in *. by subst.
Qed.

Lemma pages_tile {A} (all : list A) L : forall n,
  concat ((fun i => take L (drop (i * L) all)) <$> seq 0 n) = take (n * L) all.
Proof.
  induction n as [|n IH]; [done|].
  rewrite seq_S, fmap_app, concat_app, IH. simpl. rewrite app_nil_r.
  replace (L + n * L)%nat with (n * L + L)%nat by lia.
  rewrite <- (take_drop (n * L) (take (n * L + L) all)).
  rewrite take_take. rewrite (Nat.min_l (n * L) (n * L + L)) by lia.
  f_equal. by rewrite take_drop_commute.
Qed.

(** X25.  The pages of [getNotifications] tile the notifications of the
    user: the rows of pages 1 to n, one after the other, are the first n times
    limit rows of the newest-first order, and every page reports the same
    total. *)
Theorem getNotifications_pages_tile (u : N) (limit : Z) (tables : Tables) (s : Service)
    (n : nat) :
  database s = connect tables [] ->
  1 <= limit <= 100 ->
  Z.of_nat n <= 2 ^ 40 ->
  concat ((fun i : nat => rows_of (getNotifications (Number u) (Z.of_nat i + 1) limit s))
            <$> seq 0 n)
  = take (n * Z.to_nat limit)
         (Order_delivered_at_desc (List.filter (of_user u) (notifications tables)))
  /\ forall page, 1 <= page <= 2 ^ 50 ->
       exists rows,
         getNotifications (Number u) page limit s
         = (inr (rows, Z.of_nat (length (List.filter (of_user u) (notifications tables))),
                 page, limit), s)
         /\ (length rows <= Z.to_nat limit)%nat.
Proof.
  intros Hdb Hlimit Hn. split.
  - rewrite <- pages_tile. f_equal. apply list_fmap_ext. intros j i Hi.
    apply lookup_seq in Hi as [-> Hj]. cbn [Nat.add].
    rewrite getNotifications_connected with (tables := tables); try done.
    + unfold rows_of. cbn [fst]. do 3 f_equal. lia.
    + lia.
  - intros page Hpage. eexists. split.
    + by apply getNotifications_connected.
    + rewrite length_take. lia.
Qed.

Lemma filter_filter_comm {A} (f g : A -> bool) l :
  List.filter f (List.filter g l) = List.filter g (List.filter f l).
Proof.
  induction l as [|x l IH]; [done|]. simpl.
  destruct (g x) eqn:Hg; destruct (f x) eqn:Hf; simpl; rewrite ?Hg, ?Hf; by rewrite IH.
Qed.

(** X26.  [cleanupOldNotifications] removes exactly the notifications
    delivered before the cutoff, read or unread, and nothing when the statement
    fails; it touches no channel. *)
Theorem cleanupOldNotifications_goes_by_age_alone (cutoff : Z) (u : N) (s : Service) :
  tx (database s) = NoTx ->
  let recent := fun n => negb (Notification.DeliveredAt n <? cutoff) in
  let rows := notifications (observable (database s)) in
  let s' := cleanupOldNotifications cutoff s in
  (hd false (faults (database s)) = true -> notifications (observable (database s')) = rows)
  /\ (hd false (faults (database s)) = false ->
      notifications (observable (database s')) = List.filter recent rows
      /\ List.filter (unread_of u) (notifications (observable (database s')))
         = List.filter recent (List.filter (unread_of u) rows)
      /\ (forall n, n ∈ rows -> Notification.DeliveredAt n < cutoff ->
            n ∉ notifications (observable (database s'))))
  /\ channels s' = channels s /\ userChannels s' = userChannels s
  /\ tx (database s') = NoTx.
Proof.
  intros Htx recent rows s'. subst s'. unfold cleanupOldNotifications.
  destruct (Delete_notifications_before cutoff (database s)) as [r c] eqn:Hdel.
  unfold Delete_notifications_before in Hdel.
  apply statement_autocommit in Hdel as (Htx1 & Hcase); [|done]. simpl.
  split; [|split; [|done]].
  - intros Hf. destruct Hcase as [(e & _ & Hc & _)|(a & _ & _ & Hf')]; [|congruence].
    unfold observable. by rewrite Hc.
  - intros Hf. destruct Hcase as [(e & _ & _ & [Hf'|Hf'])|(a & _ & Hr & _)];
      [congruence|done|].
    injection Hr as _ Hc. unfold observable. rewrite <- Hc. simpl.
    split; [done|]. split.
    + apply filter_filter_comm.
    + intros n Hn Hold Hin. apply list_elem_of_In, filter_In in Hin as [_ Hin].
      apply negb_true_iff, Z.ltb_ge in Hin. lia.
Qed.

End store.

(** User 7 marks all as read; the notification of user 8 stays unread. *)
Lemma markAllAsRead_clears_the_unread_list_witness :
  let s1 := snd (notification.markAllAsRead (Some 7%N) sample_inbox) in
  List.filter (db.unread_of 8)
              (db.notifications (db.observable (notification.database s1)))
  = [Notification.mk 8 1 "other" false 20]
  /\ length (db.notifications (db.observable (notification.database s1))) = 3%nat.
Proof.
  intros s1.
  destruct (markAllAsRead_clears_the_unread_list 7 sample_inbox s1) as (_ & H1 & H2 & _).
  - reflexivity.
  - vm_compute. reflexivity.
  - split; [rewrite (H1 8%N) by done|rewrite H2]; vm_compute; reflexivity.
Defined.

(** A request with limit 0 and offset -5. *)
Lemma getUnreadNotifications_answers_one_page_witness :
  fst (notification.getUnreadNotifications (notification.Number 7) 0 (-5) sample_inbox)
  = inr ([Notification.mk 7 1 "second" false 30], 1, 20, 0)
  /\ StronglySorted db.newer_first [Notification.mk 7 1 "second" false 30].
Proof.
  destruct (getUnreadNotifications_answers_one_page 7 0 (-5) sample_inbox sample_inbox
              [Notification.mk 7 1 "second" false 30] 1 20 0)
    as (_ & _ & _ & _ & _ & _ & _ & H & _).
  - reflexivity.
  - vm_compute. reflexivity.
  - split; [vm_compute; reflexivity|exact H].
Defined.

(** Two pages of one row each. *)
Lemma getNotifications_pages_tile_witness :
  concat ((fun i : nat =>
             rows_of (notification.getNotifications (notification.Number 7)
                        (Z.of_nat i + 1) 1 sample_inbox)) <$> seq 0 2)
  = [Notification.mk 7 1 "second" false 30; Notification.mk 7 1 "first" true 10].
Proof.
  destruct (getNotifications_pages_tile 7 1 sample_notifications sample_inbox 2)
    as (H & _).
  - reflexivity.
  - lia.
  - vm_compute. discriminate.
  - rewrite H. vm_compute. reflexivity.
Defined.

(** A cutoff between the second and the third sample notification. *)
Lemma cleanupOldNotifications_goes_by_age_alone_witness :
  db.notifications
    (db.observable (notification.database
                      (notification.cleanupOldNotifications 25 sample_inbox)))
  = [Notification.mk 7 1 "second" false 30].
Proof.
  destruct (cleanupOldNotifications_goes_by_age_alone 25 7 sample_inbox) as (_ & H & _).
  - reflexivity.
  - destruct (H eq_refl) as (H' & _). rewrite H'. vm_compute. reflexivity.
Defined.

(** ** The configuration *)

Section configuration.
Import config.

(** X27.  [getEnvAsSlice] never splits: a variable that holds text is
    answered as a list of one element, commas included, so the broker list of
    the configuration always has one entry; a variable set to the empty string
    is answered as such by [getEnv]. *)
Theorem getEnvAsSlice_never_splits (env : gmap string string) (key : string)
    (defaultValue : list string) :
  (forall value, env !! key = Some value -> value <> "" ->
     getEnvAsSlice env key defaultValue = [value])
  /\ (env !! key = None \/ env !! key = Some "" ->
      getEnvAsSlice env key defaultValue = defaultValue)
  /\ length (Brokers (LoadConfig_Kafka env)) = 1%nat
  /\ (env !! "KAFKA_CONSUMER_GROUP" = Some "" -> ConsumerGroup (LoadConfig_Kafka env) = "").
Proof.
  unfold LoadConfig_Kafka, getEnvAsSlice, getEnv, split. cbn [Brokers ConsumerGroup].
  split; [|split; [|split]].
  - intros value -> Hne. apply String.eqb_neq in Hne. by rewrite Hne.
  - intros [-> | ->]; done.
  - destruct (env !! "KAFKA_BROKERS") as [value|]; [|done].
    destruct (String.eqb_spec value ""); done.
  - by intros ->.
Qed.

End configuration.
